(** * Travel-Planner: trips, days and activities

    A shallow embedding of the route handlers under [src/app/api], of the
    currency helpers, of the budget tracker, of the export and import code
    of the trip page, of its forms, its timeline, its map and its calendar,
    and of the import of a trip on the home page, followed by the
    properties proved about them.

    Conventions of the embedding.
    - A JavaScript [Date] is the number of milliseconds since the epoch
      ([Z]).  Strings that fail to parse as dates are not represented.
    - The server's local time zone is a fixed offset [tz] (in milliseconds)
      from UTC, so [setDate(getDate() + 1)] adds exactly one day.
    - [toISOString().split('T')[0]], the UTC calendar date of an instant, is
      represented by the number of that day.
    - A JavaScript [number] is a rational ([Q]); rounding and the infinities
      are not represented, and NaN only where a caller can pass it (the
      [amount] of [convertCurrency]); no division by zero is reached.
    - A Prisma table is a finite map from row identifiers to rows; the
      identifiers Prisma generates are drawn from a counter. *)

From Stdlib Require Import ZArith QArith Qminmax Lqa Lia.
From stdpp Require Import base tactics option list gmap strings fin_maps sorting.

Local Open Scope Z_scope.

(** ** Dates *)

Module JsDate.

Definition MS_PER_DAY : Z := 86400000.
#[global] Arguments MS_PER_DAY : simpl never.

(** [d.setDate(d.getDate() + 1)] *)
Definition addDay (t : Z) : Z := t + MS_PER_DAY.

(** [d.toISOString().split('T')[0]] *)
Definition isoDate (t : Z) : Z := t `div` MS_PER_DAY.

(** [d.setHours(0, 0, 0, 0)] in the zone at offset [tz] *)
Definition setHours0 (tz t : Z) : Z := t - (t + tz) `mod` MS_PER_DAY.

(** An instant that is a calendar date: midnight UTC, as
    [new Date('2024-03-05')] yields. *)
Definition isCalendarDate (t : Z) : Prop := t `mod` MS_PER_DAY = 0.

End JsDate.

(** ** Values of request bodies *)

(** A property of a request body that the handler tells apart from a
    missing one. *)
Inductive field (A : Type) : Type :=
  | Undefined
  | Null
  | Value (a : A).
Arguments Undefined {A}.
Arguments Null {A}.
Arguments Value {A} a.

(** Payloads that are stored as JSON text ([images], [details]). *)
#[local] Unset Elimination Schemes.
Inductive json : Type :=
  | JNull
  | JBool (b : bool)
  | JNum (q : Q)
  | JStr (s : string)
  | JArr (items : list json)
  | JObj (props : list (string * json)).
#[local] Set Elimination Schemes.

Definition Qnonzero (q : Q) : bool := negb (Qeq_bool q 0).

Definition truthy_string (s : string) : bool :=
  match s with EmptyString => false | _ => true end.

Definition truthy_json (v : json) : bool :=
  match v with
  | JNull => false
  | JBool b => b
  | JNum q => Qnonzero q
  | JStr s => truthy_string s
  | JArr _ | JObj _ => true
  end.

(** [x || d] on an optional string *)
Definition or_string (x : option string) (d : string) : string :=
  match x with
  | Some s => if truthy_string s then s else d
  | None => d
  end.

(** [x ? x : undefined] on an optional string *)
Definition truthy_opt_string (x : option string) : option string :=
  match x with
  | Some s => if truthy_string s then Some s else None
  | None => None
  end.

(** [x ? parseFloat(x) : null] on an optional number *)
Definition truthy_number (x : option Q) : option Q :=
  match x with
  | Some q => if Qnonzero q then Some q else None
  | None => None
  end.

(** ** The store *)

Module Store.

(** Row identifiers. *)
Abbreviation ident := nat.

Record Trip : Type := mkTrip {
  trip_title : string;
  trip_destination : option string;
  trip_startDate : Z;
  trip_endDate : Z;
  trip_budget : option Q;
  trip_currency : string;
  trip_coverImage : option string
}.

Record Day : Type := mkDay {
  day_tripId : ident;
  day_date : Z;
  day_index : Z
}.

Record Activity : Type := mkActivity {
  act_dayId : ident;
  act_type : option string;
  act_title : string;
  act_description : option string;
  act_location : option string;
  act_startTime : option Z;
  act_endTime : option Z;
  act_cost : option Q;
  act_currency : option string;
  act_images : option string;
  act_details : option string
}.

Record Db : Type := mkDb {
  trips : gmap ident Trip;
  days : gmap ident Day;
  activities : gmap ident Activity;
  next_id : ident
}.

(** A Prisma call: it may change the store, and it may throw ([None]).
    Nothing is rolled back when a later call throws. *)
Definition Prisma (A : Type) : Type := Db → Db * option A.

Definition ret {A} (a : A) : Prisma A := λ db, (db, Some a).
Definition throw {A} : Prisma A := λ db, (db, None).
Definition bind {A B} (m : Prisma A) (k : A → Prisma B) : Prisma B :=
  λ db, match m db with
        | (db', Some a) => k a db'
        | (db', None) => (db', None)
        end.

Notation "x <- m ;; k" := (bind m (λ x, k))
  (at level 100, m at next level, right associativity).
Notation "m ;;; k" := (bind m (λ _, k))
  (at level 100, right associativity).

(** [for (const x of l) { await f(x) }] *)
Fixpoint forEach {A} (l : list A) (f : A → Prisma unit) : Prisma unit :=
  match l with
  | [] => ret tt
  | x :: l' => f x ;;; forEach l' f
  end.

(** [for (let i = i0; ...; i++) { await f(i, l[i]) }] *)
Fixpoint forEachIndexed {A} (i : Z) (l : list A) (f : Z → A → Prisma unit)
  : Prisma unit :=
  match l with
  | [] => ret tt
  | x :: l' => f i x ;;; forEachIndexed (i + 1) l' f
  end.

(** The rows of a table that satisfy [p], with their identifiers. *)
Definition rows_where {R} (p : R → bool) (t : gmap ident R)
  : list (ident * R) :=
  filter (λ r, p r.2 = true) (map_to_list t).

Definition days_of_trip (id : ident) (db : Db) : list (ident * Day) :=
  rows_where (λ d, bool_decide (day_tripId d = id)) (days db).

Definition activities_of_day (id : ident) (db : Db)
  : list (ident * Activity) :=
  rows_where (λ a, bool_decide (act_dayId a = id)) (activities db).

(** [prisma.trip.create({ data: { ..., days: { create: ds } },
    include: { days: true } })]: the trip and its days are written in one
    nested write. *)
Definition trip_create (t : Trip) (ds : list (Z * Z))
  : Prisma (ident * Trip * list (ident * Day)) :=
  λ db,
    let id := next_id db in
    let rows :=
      imap (λ k (d : Z * Z), (S id + k, mkDay id d.1 d.2)%nat) ds in
    ({| trips := <[id := t]> (trips db);
        days := foldl (λ m r, <[r.1 := r.2]> m) (days db) rows;
        activities := activities db;
        next_id := (S id + length ds)%nat |},
     Some (id, t, rows)).

(** [prisma.trip.update({ where: { id }, data })] *)
Definition trip_update (id : ident) (f : Trip → Trip) : Prisma Trip :=
  λ db,
    match trips db !! id with
    | Some t =>
        ({| trips := <[id := f t]> (trips db);
            days := days db;
            activities := activities db;
            next_id := next_id db |},
         Some (f t))
    | None => (db, None)
    end.

(** [prisma.day.create({ data: { tripId, date, index } })] *)
Definition day_create (d : Day) : Prisma ident :=
  λ db,
    match trips db !! day_tripId d with
    | Some _ =>
        let id := next_id db in
        ({| trips := trips db;
            days := <[id := d]> (days db);
            activities := activities db;
            next_id := S id |},
         Some id)
    | None => (db, None)
    end.

(** [prisma.day.update({ where: { id }, data: { index } })] *)
Definition day_update_index (id : ident) (i : Z) : Prisma unit :=
  λ db,
    match days db !! id with
    | Some d =>
        ({| trips := trips db;
            days := <[id := mkDay (day_tripId d) (day_date d) i]> (days db);
            activities := activities db;
            next_id := next_id db |},
         Some tt)
    | None => (db, None)
    end.

(** Modelled from the spec: the schema file is not part of the sources;
    deleting a Day cascades to its Activities.
    [prisma.day.delete({ where: { id } })] *)
Definition day_delete (id : ident) : Prisma unit :=
  λ db,
    match days db !! id with
    | Some _ =>
        ({| trips := trips db;
            days := delete id (days db);
            activities :=
              filter (λ r, act_dayId r.2 ≠ id) (activities db);
            next_id := next_id db |},
         Some tt)
    | None => (db, None)
    end.

(** [prisma.activity.create({ data })]; the day it points to must
    exist. *)
Definition activity_create (a : Activity) : Prisma (ident * Activity) :=
  λ db,
    match days db !! act_dayId a with
    | Some _ =>
        let id := next_id db in
        ({| trips := trips db;
            days := days db;
            activities := <[id := a]> (activities db);
            next_id := S id |},
         Some (id, a))
    | None => (db, None)
    end.

(** [prisma.activity.update({ where: { id }, data })]; [f] is [None] when
    the data is refused. *)
Definition activity_update (id : ident) (f : Activity → option Activity)
  : Prisma Activity :=
  λ db,
    match activities db !! id with
    | Some a =>
        match f a with
        | Some a' =>
            match days db !! act_dayId a' with
            | Some _ =>
                ({| trips := trips db;
                    days := days db;
                    activities := <[id := a']> (activities db);
                    next_id := next_id db |},
                 Some a')
            | None => (db, None)
            end
        | None => (db, None)
        end
    | None => (db, None)
    end.

(** The integrity of a store: identifiers in use are below the counter,
    a day belongs to a stored trip and an activity to a stored day. *)
Record wf (db : Db) : Prop := mkWf {
  wf_trips : ∀ i, is_Some (trips db !! i) → (i < next_id db)%nat;
  wf_days : ∀ i, is_Some (days db !! i) → (i < next_id db)%nat;
  wf_activities :
    ∀ i, is_Some (activities db !! i) → (i < next_id db)%nat;
  wf_day_trip :
    ∀ i d, days db !! i = Some d → is_Some (trips db !! day_tripId d);
  wf_activity_day :
    ∀ i a, activities db !! i = Some a → is_Some (days db !! act_dayId a)
}.

End Store.

(** What a handler answers: [NextResponse.json(payload)] or
    [NextResponse.json({ error }, { status })]. *)
Inductive Response (A : Type) : Type :=
  | Ok (payload : A)
  | Failure (status : Z) (error : string).
Arguments Ok {A} payload.
Arguments Failure {A} status error.

(** ** [src/app/api/trips/route.ts] *)

Module TripsRoute.
Import JsDate Store.

Record Body : Type := mkBody {
  title : option string;
  destination : option string;
  startDate : option Z;
  endDate : option Z;
  budget : option Q;
  currency : option string;
  coverImage : option string
}.

(** The [while (currentDate <= end)] loop; [None] when [fuel] is used up
    before the test fails. *)
Fixpoint daysLoop (fuel : nat) (currentDate end_ index : Z)
  : option (list (Z * Z)) :=
  if bool_decide (currentDate ≤ end_) then
    match fuel with
    | O => None
    | S fuel' =>
        cons (currentDate, index)
          <$> daysLoop fuel' (addDay currentDate) end_ (index + 1)
    end
  else Some [].

(** A bound on the number of iterations. *)
Definition loopFuel (start end_ : Z) : nat :=
  Z.to_nat ((end_ - start) `div` MS_PER_DAY + 1).

(** Modelled from the spec: the schema file is not part of the sources;
    a Trip's currency defaults to EUR. *)
Definition defaultCurrency (c : option string) : string :=
  match c with Some s => s | None => "EUR" end.

Definition POST (body : Body)
  : Db → Db * Response (ident * Trip * list (ident * Day)) :=
  λ db,
    match truthy_opt_string (title body), startDate body, endDate body with
    | Some title, Some start, Some end_ =>
        match daysLoop (loopFuel start end_) start end_ 0 with
        | Some daysToCreate =>
            match
              trip_create
                {| trip_title := title;
                   trip_destination := destination body;
                   trip_startDate := start;
                   trip_endDate := end_;
                   trip_budget := truthy_number (budget body);
                   trip_currency := defaultCurrency (currency body);
                   trip_coverImage := coverImage body |}
                daysToCreate db
            with
            | (db', Some trip) => (db', Ok trip)
            | (db', None) => (db', Failure 500 "Failed to create trip")
            end
        | None => (db, Failure 500 "Failed to create trip")
        end
    | _, _, _ => (db, Failure 400 "Missing required fields")
    end.

End TripsRoute.

(** ** [src/app/api/trips/[id]/route.ts] *)

Module TripRoute.
Import JsDate Store.

Record Body : Type := mkBody {
  title : option string;
  destination : option string;
  startDate : option Z;
  endDate : option Z;
  budget : option Q;
  coverImage : field string
}.

(** [for (const day of currentTrip.days) existingDaysByDate[dateKey] = day] *)
Definition existingDaysByDate (currentDays : list (ident * Day))
  : gmap Z (ident * Day) :=
  foldl (λ m day, <[isoDate (day_date day.2) := day]> m) ∅ currentDays.

(** The [while (current <= newEnd)] loop; [None] when [fuel] is used up
    before the test fails. *)
Fixpoint datesLoop (fuel : nat) (current newEnd : Z) : option (list Z) :=
  if bool_decide (current ≤ newEnd) then
    match fuel with
    | O => None
    | S fuel' => cons current <$> datesLoop fuel' (addDay current) newEnd
    end
  else Some [].

Definition outsideRange (newStart newEnd : Z) (day : ident * Day) : bool :=
  bool_decide (day_date day.2 < newStart)
  || bool_decide (day_date day.2 > newEnd).

(** The body of the loop "Delete days that are outside new range". *)
Definition deleteOutside (newStart newEnd : Z) (day : ident * Day)
  : Prisma unit :=
  if outsideRange newStart newEnd day then day_delete day.1 else ret tt.

(** The body of the loop "Create new days that don't exist yet". *)
Definition createOrUpdate (id : ident) (byDate : gmap Z (ident * Day))
    (i : Z) (date : Z) : Prisma unit :=
  match byDate !! isoDate date with
  | None => _ <- day_create (mkDay id date i) ;; ret tt
  | Some day => day_update_index day.1 i
  end.

(** The body of [if (datesChanged) { ... }]. *)
Definition regenerateDays (id : ident) (currentDays : list (ident * Day))
    (newStart newEnd : Z) : Prisma unit :=
  let byDate := existingDaysByDate currentDays in
  match datesLoop (TripsRoute.loopFuel newStart newEnd) newStart newEnd with
  | None => throw
  | Some newDates =>
      forEach currentDays (deleteOutside newStart newEnd) ;;;
      forEachIndexed 0 newDates (createOrUpdate id byDate)
  end.

Definition datesChanged (body : Body) (currentTrip : Trip) : bool :=
  let newStart := default (trip_startDate currentTrip) (startDate body) in
  let newEnd := default (trip_endDate currentTrip) (endDate body) in
  (bool_decide (is_Some (startDate body))
     && negb (bool_decide (newStart = trip_startDate currentTrip)))
  || (bool_decide (is_Some (endDate body))
     && negb (bool_decide (newEnd = trip_endDate currentTrip))).

(** The [data] of [prisma.trip.update]. *)
Definition updateData (body : Body) (newStart newEnd : Z) (t : Trip)
  : Trip :=
  {| trip_title := or_string (title body) (trip_title t);
     trip_destination :=
       match truthy_opt_string (destination body) with
       | Some d => Some d
       | None => trip_destination t
       end;
     trip_startDate := newStart;
     trip_endDate := newEnd;
     trip_budget :=
       match truthy_number (budget body) with
       | Some b => Some b
       | None => trip_budget t
       end;
     trip_currency := trip_currency t;
     trip_coverImage :=
       match coverImage body with
       | Undefined => trip_coverImage t
       | Null => None
       | Value c => Some c
       end |}.

Definition PATCH (id : ident) (body : Body) : Db → Db * Response Trip :=
  λ db,
    match trips db !! id with
    | None => (db, Failure 404 "Trip not found")
    | Some currentTrip =>
        let currentDays := days_of_trip id db in
        let newStart :=
          default (trip_startDate currentTrip) (startDate body) in
        let newEnd := default (trip_endDate currentTrip) (endDate body) in
        let run :=
          updatedTrip <- trip_update id (updateData body newStart newEnd) ;;
          (if datesChanged body currentTrip
           then regenerateDays id currentDays newStart newEnd
           else ret tt) ;;;
          ret updatedTrip in
        match run db with
        | (db', Some updatedTrip) => (db', Ok updatedTrip)
        | (db', None) => (db', Failure 500 "Failed to update trip")
        end
    end.

End TripRoute.

(** ** [src/app/api/activities/route.ts] *)

Module ActivitiesRoute.
Import JsDate Store.

Record PostBody : Type := mkPostBody {
  dayId : option ident;
  type : option string;
  title : option string;
  description : option string;
  location : option string;
  startTime : option Z;
  endTime : option Z;
  cost : option Q;
  currency : option string;
  images : option json;
  details : option json
}.

Record PatchBody : Type := mkPatchBody {
  p_id : option ident;
  p_dayId : field ident;
  p_type : field string;
  p_title : field string;
  p_description : field string;
  p_location : field string;
  p_startTime : field Z;
  p_cost : field Q;
  p_currency : field string;
  p_images : field json
}.

Section Handlers.

(** The zone of the server and the runtime's [JSON.stringify]. *)
Variable tz : Z.
Variable JSON_stringify : json → string.

(** [x ? JSON.stringify(x) : null] *)
Definition stringifyTruthy (x : option json) : option string :=
  match x with
  | Some v => if truthy_json v then Some (JSON_stringify v) else None
  | None => None
  end.

(** The "Date Auto-Correction Logic": the day the activity is created
    under. *)
Definition correctedDayId (dayId : ident) (startTime : option Z)
    (db : Db) : ident :=
  match startTime with
  | Some startTime =>
      let activityDate := setHours0 tz startTime in
      match days db !! dayId with
      | Some currentDay =>
          let currentDayDate := setHours0 tz (day_date currentDay) in
          if bool_decide (activityDate ≠ currentDayDate) then
            match
              List.find
                (λ d : ident * Day,
                   bool_decide
                     (setHours0 tz (day_date d.2) = activityDate))
                (days_of_trip (day_tripId currentDay) db)
            with
            | Some correctDay => correctDay.1
            | None => dayId
            end
          else dayId
      | None => dayId
      end
  | None => dayId
  end.

Definition POST (body : PostBody)
  : Db → Db * Response (ident * Activity) :=
  λ db,
    match dayId body, title body with
    | Some dayId0, Some title =>
        let dayId := correctedDayId dayId0 (startTime body) db in
        match
          activity_create
            {| act_dayId := dayId;
               act_type := type body;
               act_title := title;
               act_description := description body;
               act_location := location body;
               act_startTime := startTime body;
               act_endTime := endTime body;
               act_cost := truthy_number (cost body);
               act_currency := currency body;
               act_images := stringifyTruthy (images body);
               act_details := stringifyTruthy (details body) |} db
        with
        | (db', Some activity) => (db', Ok activity)
        | (db', None) => (db', Failure 500 "Failed to create activity")
        end
    | _, _ => (db, Failure 500 "Failed to create activity")
    end.

(** A nullable column: [if (x !== undefined) updateData.x = x]. *)
Definition setNullable {A} (x : field A) (old : option A) : option A :=
  match x with
  | Undefined => old
  | Null => None
  | Value a => Some a
  end.

(** A required column refuses [null]. *)
Definition setRequired {A} (x : field A) (old : A) : option A :=
  match x with
  | Undefined => Some old
  | Null => None
  | Value a => Some a
  end.

(** [Array.isArray(images) ? JSON.stringify(images) : images] *)
Definition setImages (x : field json) (old : option string)
  : option (option string) :=
  match x with
  | Undefined => Some old
  | Null | Value JNull => Some None
  | Value (JArr items) => Some (Some (JSON_stringify (JArr items)))
  | Value (JStr s) => Some (Some s)
  | Value _ => None
  end.

(** [updateData], applied to the stored row. *)
Definition updateData (body : PatchBody) (a : Activity)
  : option Activity :=
  dayId ← setRequired (p_dayId body) (act_dayId a);
  title ← setRequired (p_title body) (act_title a);
  images ← setImages (p_images body) (act_images a);
  Some
    {| act_dayId := dayId;
       act_type := setNullable (p_type body) (act_type a);
       act_title := title;
       act_description :=
         setNullable (p_description body) (act_description a);
       act_location := setNullable (p_location body) (act_location a);
       act_startTime := setNullable (p_startTime body) (act_startTime a);
       act_endTime := act_endTime a;
       act_cost :=
         match p_cost body with
         | Undefined => act_cost a
         | Null => None
         | Value c => truthy_number (Some c)
         end;
       act_currency := setNullable (p_currency body) (act_currency a);
       act_images := images;
       act_details := act_details a |}.

Definition PATCH (body : PatchBody) : Db → Db * Response Activity :=
  λ db,
    match p_id body with
    | None => (db, Failure 400 "Activity ID required")
    | Some id =>
        match activity_update id (updateData body) db with
        | (db', Some activity) => (db', Ok activity)
        | (db', None) => (db', Failure 500 "Failed to update activity")
        end
    end.

End Handlers.

End ActivitiesRoute.

(** ** The currency helpers ([lib/currency]) *)

Module Currency.

Definition CACHE_DURATION : Z := 60 * 60 * 1000.

Record ExchangeRates : Type := mkExchangeRates {
  base : string;
  rates : gmap string Q;
  timestamp : Z
}.

(** What the helpers read and write outside their arguments: the
    module-level [cachedRates], and [localStorage] when there is a
    [window] ([None] on the server); an entry that is missing or is not
    valid JSON is [Some None]. *)
Record Runtime : Type := mkRuntime {
  cachedRates : option ExchangeRates;
  localStorage : option (option ExchangeRates)
}.

Definition fallbackEUR : gmap string Q :=
  <[ "EUR" := 1%Q ]> (
  <[ "USD" := (108 # 100)%Q ]> (
  <[ "GBP" := (86 # 100)%Q ]> (
  <[ "JPY" := (1625 # 10)%Q ]> (
  <[ "LKR" := 340%Q ]> (
  <[ "THB" := (385 # 10)%Q ]> (
  <[ "LAK" := 22500%Q ]> (
  <[ "PHP" := (615 # 10)%Q ]> ∅))))))).

(** [x || 1] on a rate *)
Definition or_one (x : option Q) : Q :=
  match x with
  | Some q => if Qnonzero q then q else 1%Q
  | None => 1%Q
  end.

Definition getFallbackRates (base : string) : gmap string Q :=
  if bool_decide (base = "EUR") then fallbackEUR
  else
    let euroRate := or_one (fallbackEUR !! base) in
    (λ rate, rate / euroRate)%Q <$> fallbackEUR.





Section Helpers.

(** [Date.now()], and the answer of the rate service ([None] when the
    request fails or is refused). *)
Variable now : Z.
Variable fetch : string → option (gmap string Q).

Definition fresh (baseCurrency : string) (c : ExchangeRates) : bool :=
  bool_decide (base c = baseCurrency)
  && bool_decide (now - timestamp c < CACHE_DURATION).

(** A cache entry that passes the test on its base and its age. *)
Definition usable (baseCurrency : string) (c : option ExchangeRates)
  : option ExchangeRates :=
  match c with
  | Some c => if fresh baseCurrency c then Some c else None
  | None => None
  end.

Definition getExchangeRates (baseCurrency : string) (rt : Runtime)
  : gmap string Q * Runtime :=
  match usable baseCurrency (cachedRates rt) with
  | Some c => (rates c, rt)
  | None =>
      match usable baseCurrency (mjoin (localStorage rt)) with
      | Some parsed =>
          (rates parsed,
           {| cachedRates := Some parsed;
              localStorage := localStorage rt |})
      | None =>
          match fetch baseCurrency with
          | Some data =>
              let r := mkExchangeRates baseCurrency data now in
              (data,
               {| cachedRates := Some r;
                  localStorage := (λ _, Some r) <$> localStorage rt |})
          | None => (getFallbackRates baseCurrency, rt)
          end
      end
  end.





End Helpers.

End Currency.

(** ** [src/components/BudgetTracker.tsx] *)

Module Budget.





End Budget.

(** ** The trip page: exports and the import of activities *)

Module TripPage.
Import Store.

(** The trip as the page holds it, as [GET /api/trips/:id] answered. *)
Record Activity : Type := mkActivity {
  id : ident;
  type : string;
  title : string;
  description : option string;
  startTime : option Z;
  endTime : option Z;
  cost : option Q;
  currency : option string;
  location : option string;
  images : option string
}.

Record Day : Type := mkDay {
  dayId : ident;
  date : Z;
  index : Z;
  note : option string;
  activities : list Activity
}.

Record Trip : Type := mkTrip {
  tripId : ident;
  tripTitle : string;
  destination : string;
  startDate : Z;
  endDate : Z;
  budget : option Q;
  tripCurrency : option string;
  coverImage : option string;
  days : list Day
}.

(** *** Sorting *)






(** *** The exports

    A formatter is represented by what it writes, in the order it writes
    it: the days it visits, each with its activities in the order they
    are written.  The text of each entry is not represented. *)







(** [exportData] of [exportJSON]. *)
Record ExportedActivity : Type := mkExportedActivity {
  e_title : string;
  e_type : string;
  e_description : option string;
  e_location : option string;
  e_startTime : option Z;
  e_cost : option Q;
  e_currency : option string
}.

Record ExportedDay : Type := mkExportedDay {
  e_date : Z;
  e_dayIndex : Z;
  e_activities : list ExportedActivity
}.

Record ExportData : Type := mkExportData {
  x_title : string;
  x_destination : string;
  x_startDate : Z;
  x_endDate : Z;
  x_budget : option Q;
  x_currency : option string;
  x_days : list ExportedDay
}.


(** *** The import of activities, JSON branch *)

(** An entry of an imported document, with the properties the import
    reads; a property that is missing or [null] is [None]. *)
Record ImportedActivity : Type := mkImportedActivity {
  i_title : option string;
  i_Activity : option string;
  i_type : option string;
  i_Type : option string;
  i_description : option string;
  i_Description : option string;
  i_Details : option string;
  i_location : option string;
  i_Location : option string;
  i_startTime : option Z;
  i_cost : option Q;
  i_Cost : option Q;
  i_currency : option string
}.

(** The shapes of a parsed document that the JSON branch tells apart: an
    array, or an object with [activities] and [days] (each day with its
    [activities]). *)
Inductive ImportedDocument : Type :=
  | DocArray (items : list ImportedActivity)
  | DocObject (activities : option (list ImportedActivity))
      (days : option (list (option (list ImportedActivity)))).

(** An exported activity as [JSON.parse] gives it back. *)
Definition reparseActivity (act : ExportedActivity) : ImportedActivity :=
  {| i_title := Some (e_title act);
     i_Activity := None;
     i_type := Some (e_type act);
     i_Type := None;
     i_description := e_description act;
     i_Description := None;
     i_Details := None;
     i_location := e_location act;
     i_Location := None;
     i_startTime := e_startTime act;
     i_cost := e_cost act;
     i_Cost := None;
     i_currency := e_currency act |}.

(** [JSON.parse(JSON.stringify(exportData))], read as the import reads
    it. *)
Definition reparse (data : ExportData) : ImportedDocument :=
  DocObject None
    (Some
       ((λ day, Some (reparseActivity <$> e_activities day))
        <$> x_days data)).


(** [x || y] on optional strings and numbers *)
Definition or_opt_string (x y : option string) : option string :=
  match truthy_opt_string x with
  | Some s => Some s
  | None => y
  end.

Definition or_number (x : option Q) (y : Q) : Q :=
  match truthy_number x with
  | Some q => q
  | None => y
  end.

(** The body of the request that creates one imported activity. *)
Definition importBody (dayId : ident) (act : ImportedActivity)
  : ActivitiesRoute.PostBody :=
  {| ActivitiesRoute.dayId := Some dayId;
     ActivitiesRoute.title :=
       Some (or_string (or_opt_string (i_title act) (i_Activity act))
               "Imported Activity");
     ActivitiesRoute.type :=
       Some (or_string (or_opt_string (i_type act) (i_Type act))
               "activity");
     ActivitiesRoute.description :=
       Some (or_string
               (or_opt_string (i_description act)
                  (or_opt_string (i_Description act) (i_Details act)))
               "");
     ActivitiesRoute.location :=
       Some (or_string (or_opt_string (i_location act) (i_Location act))
               "");
     ActivitiesRoute.startTime := None;
     ActivitiesRoute.endTime := None;
     ActivitiesRoute.cost :=
       Some (or_number (i_cost act) (or_number (i_Cost act) 0));
     ActivitiesRoute.currency := Some (or_string (i_currency act) "EUR");
     ActivitiesRoute.images := Some (JStr "[]");
     ActivitiesRoute.details := None |}.

Section ImportRequests.

Variable tz : Z.
Variable JSON_stringify : json → string.

(** [selectedDayId || trip.days[0]?.id] *)
Definition targetDay (selectedDayId : option ident) (trip : Trip)
  : option ident :=
  match selectedDayId with
  | Some d => Some d
  | None => dayId <$> head (days trip)
  end.

(** The loop "Create activities via API": the store after the requests
    and [importedCount]. *)
Fixpoint createActivities (selectedDayId : option ident) (trip : Trip)
    (activities : list ImportedActivity) (importedCount : nat) (db : Db)
  : Db * nat :=
  match activities with
  | [] => (db, importedCount)
  | act :: rest =>
      match targetDay selectedDayId trip with
      | None => createActivities selectedDayId trip rest importedCount db
      | Some dayId =>
          let (db', _) :=
            ActivitiesRoute.POST tz JSON_stringify
              (importBody dayId act) db in
          createActivities selectedDayId trip rest (S importedCount) db'
      end
  end.


End ImportRequests.

End TripPage.

(** ** The home page: the import of a trip ([src/app/page.tsx]) *)

Module HomePage.
Import Store.

(** A day of an imported document; [activities] is [None] when the
    property is missing. *)
Record ImportedDay : Type := mkImportedDay {
  d_activities : option (list TripPage.ImportedActivity)
}.

(** The parsed document, with the properties the JSON branch reads; a
    property that is missing, [null] or an empty string is [None]. *)
Record ImportedTrip : Type := mkImportedTrip {
  p_title : option string;
  p_destination : option string;
  p_startDate : option Z;
  p_endDate : option Z;
  p_budget : option Q;
  p_currency : option string;
  p_days : option (list ImportedDay);
  p_activities : option (list TripPage.ImportedActivity)
}.

(** [tripData], as the JSON branch fills it. *)
Record TripData : Type := mkTripData {
  title : string;
  destination : string;
  startDate : Z;
  endDate : Z;
  budget : Q;
  currency : string;
  days : list ImportedDay;
  activities : option (list TripPage.ImportedActivity)
}.


(** [JSON.parse(JSON.stringify(exportData))], read as the import reads
    it. *)
Definition reparse (data : TripPage.ExportData) : ImportedTrip :=
  {| p_title := Some (TripPage.x_title data);
     p_destination := Some (TripPage.x_destination data);
     p_startDate := Some (TripPage.x_startDate data);
     p_endDate := Some (TripPage.x_endDate data);
     p_budget := TripPage.x_budget data;
     p_currency := TripPage.x_currency data;
     p_days :=
       Some
         ((λ day,
             mkImportedDay
               (Some
                  (TripPage.reparseActivity
                     <$> TripPage.e_activities day)))
          <$> TripPage.x_days data);
     p_activities := None |}.

(** The body of the request that creates the trip; the dates of
    [tripData] are set, so their [||] keeps them. *)
Definition tripBody (tripData : TripData) : TripsRoute.Body :=
  {| TripsRoute.title := Some (title tripData);
     TripsRoute.destination :=
       Some (or_string (Some (destination tripData)) "Unknown");
     TripsRoute.startDate := Some (startDate tripData);
     TripsRoute.endDate := Some (endDate tripData);
     TripsRoute.budget :=
       Some (TripPage.or_number (Some (budget tripData)) 0);
     TripsRoute.currency :=
       Some (or_string (Some (currency tripData)) "EUR");
     TripsRoute.coverImage := None |}.

(** The body of the request that creates one imported activity. *)
Definition importBody (dayId : ident) (act : TripPage.ImportedActivity)
  : ActivitiesRoute.PostBody :=
  {| ActivitiesRoute.dayId := Some dayId;
     ActivitiesRoute.title :=
       Some (or_string (TripPage.i_title act) "Activity");
     ActivitiesRoute.type :=
       Some (or_string (TripPage.i_type act) "activity");
     ActivitiesRoute.description :=
       Some (or_string (TripPage.i_description act) "");
     ActivitiesRoute.location :=
       Some (or_string (TripPage.i_location act) "");
     ActivitiesRoute.startTime := TripPage.i_startTime act;
     ActivitiesRoute.endTime := None;
     ActivitiesRoute.cost :=
       Some (TripPage.or_number (TripPage.i_cost act) 0);
     ActivitiesRoute.currency :=
       Some (or_string (TripPage.i_currency act) "EUR");
     ActivitiesRoute.images := Some (JStr "[]");
     ActivitiesRoute.details := None |}.

Section ImportRequests.

Variable tz : Z.
Variable JSON_stringify : json → string.
Variable now : Z.


(** [for (const act of ...) { await fetch('/api/activities', ...);
    activitiesImported++ }] *)
Fixpoint createActivities (dayId : ident)
    (acts : list TripPage.ImportedActivity) (activitiesImported : nat)
    (db : Db) : Db * nat :=
  match acts with
  | [] => (db, activitiesImported)
  | act :: rest =>
      let (db', _) :=
        ActivitiesRoute.POST tz JSON_stringify (importBody dayId act) db
      in
      createActivities dayId rest (S activitiesImported) db'
  end.



End ImportRequests.

End HomePage.

(** ** The other handlers of the routes *)

(** The Prisma calls of these handlers. *)
Module StoreCalls.
Import Store.

(** [orderBy: { key: 'asc' }]: the rows in ascending order of [key];
    the rows with equal keys stay in the order of the table. *)
Definition orderBy {R} (key : R → Z) (rows : list (ident * R))
  : list (ident * R) :=
  @merge_sort _ (λ a b, key a.2 ≤ key b.2)
    (λ a b, decide (key a.2 ≤ key b.2)) rows.

(** The activity belongs to a day of trip [id]. *)
Definition in_trip (id : ident) (db : Db) (a : Activity) : bool :=
  match days db !! act_dayId a with
  | Some d => bool_decide (day_tripId d = id)
  | None => false
  end.

(** Modelled from the spec: the schema file is not part of the sources;
    deleting a Trip cascades to its Days and to their Activities.
    [prisma.trip.delete({ where: { id } })] *)
Definition trip_delete (id : ident) : Prisma unit :=
  λ db,
    match trips db !! id with
    | Some _ =>
        ({| trips := delete id (trips db);
            days := filter (λ r, day_tripId r.2 ≠ id) (days db);
            activities :=
              filter (λ r, in_trip id db r.2 = false) (activities db);
            next_id := next_id db |},
         Some tt)
    | None => (db, None)
    end.

(** [prisma.activity.delete({ where: { id } })] *)
Definition activity_delete (id : ident) : Prisma unit :=
  λ db,
    match activities db !! id with
    | Some _ =>
        ({| trips := trips db;
            days := days db;
            activities := delete id (activities db);
            next_id := next_id db |},
         Some tt)
    | None => (db, None)
    end.

End StoreCalls.

(** [GET] of [src/app/api/trips/route.ts] *)
Module TripsIndex.
Import Store StoreCalls.

(** A trip of the list, with [_count.days]. *)
Definition counted (db : Db) (r : ident * Trip) : ident * Trip * nat :=
  (r.1, r.2, length (days_of_trip r.1 db)).

Definition GET : Db → Response (list (ident * Trip * nat)) :=
  λ db,
    Ok (counted db <$> orderBy trip_startDate (map_to_list (trips db))).

End TripsIndex.

(** [GET] and [DELETE] of [src/app/api/trips/[id]/route.ts] *)
Module TripResource.
Import Store StoreCalls.

(** A day of the answer, with its activities.  The column [order] of an
    activity, which no request of the sources writes, is not
    represented: the activities of a day come in the order of the
    table. *)
Definition included (db : Db) (day : ident * Day)
  : ident * Day * list (ident * Activity) :=
  (day.1, day.2, activities_of_day day.1 db).

Definition GET (id : ident)
  : Db → Response (Trip * list (ident * Day * list (ident * Activity))) :=
  λ db,
    match trips db !! id with
    | None => Failure 404 "Trip not found"
    | Some trip =>
        Ok (trip, included db <$> orderBy day_date (days_of_trip id db))
    end.

Definition DELETE (id : ident) : Db → Db * Response unit :=
  λ db,
    match trip_delete id db with
    | (db', Some _) => (db', Ok tt)
    | (db', None) => (db', Failure 500 "Failed to delete trip")
    end.

End TripResource.

(** [DELETE] of [src/app/api/activities/route.ts] *)
Module ActivityResource.
Import Store StoreCalls.

(** [id] is the parameter of the query, [None] when it is missing or
    empty. *)
Definition DELETE (id : option ident) : Db → Db * Response unit :=
  λ db,
    match id with
    | None => (db, Failure 400 "ID required")
    | Some id =>
        match activity_delete id db with
        | (db', Some _) => (db', Ok tt)
        | (db', None) => (db', Failure 500 "Failed to delete activity")
        end
    end.

End ActivityResource.


(** ** The trip page: the forms, the timeline and the calendar *)

Module TripPageActions.
Import JsDate Store.

Definition MS_PER_HOUR : Z := 60 * 60 * 1000.
Definition MS_PER_MINUTE : Z := 60 * 1000.

(** [d.setHours(hours, minutes)] in the zone at offset [tz]: the seconds
    and the milliseconds of [t] are kept. *)
Definition setHours (tz hours minutes t : Z) : Z :=
  setHours0 tz t + hours * MS_PER_HOUR + minutes * MS_PER_MINUTE
  + (t + tz) `mod` MS_PER_MINUTE.

(** *** The timeline *)




(** *** The form of an activity *)

(** The state [form]; an empty [id], [dayId] or [cost] is [None],
    [time] holds the hours and the minutes of the field, [None] when
    it is empty. *)
Record Form : Type := mkForm {
  id : option ident;
  type : string;
  customType : string;
  title : string;
  description : string;
  dayId : option ident;
  time : option (Z * Z);
  cost : option Q;
  currency : string;
  location : string;
  images : string
}.

Section Handlers.

(** The zone of the browser and that of the server, the runtime's
    [JSON.stringify], and [s.split('|').map(s => s.trim())
    .filter(Boolean)]. *)
Variable tzBrowser : Z.
Variable tz : Z.
Variable JSON_stringify : json → string.
Variable splitImages : string → list string.

Definition finalType (form : Form) : string :=
  if bool_decide (type form = "custom") then customType form
  else type form.

Definition imageArray (form : Form) : list string :=
  if truthy_string (images form) then splitImages (images form) else [].

(** "Calculate startTime from selected Day and Time" *)
Definition startDateTime (trip : TripPage.Trip) (form : Form)
  : option Z :=
  match dayId form with
  | Some formDay =>
      match
        List.find (λ d, bool_decide (TripPage.dayId d = formDay))
          (TripPage.days trip)
      with
      | Some day =>
          match time form with
          | Some (hours, minutes) =>
              Some (setHours tzBrowser hours minutes (TripPage.date day))
          | None => Some (setHours0 tzBrowser (TripPage.date day))
          end
      | None => None
      end
  | None => None
  end.

(** [form.cost ? parseFloat(form.cost) : 0] *)
Definition formCost (form : Form) : Q := default 0%Q (cost form).

(** The body when the form creates an activity. *)
Definition createBody (trip : TripPage.Trip) (form : Form)
  : ActivitiesRoute.PostBody :=
  {| ActivitiesRoute.dayId := dayId form;
     ActivitiesRoute.type := Some (finalType form);
     ActivitiesRoute.title := Some (title form);
     ActivitiesRoute.description := Some (description form);
     ActivitiesRoute.location := Some (location form);
     ActivitiesRoute.startTime := startDateTime trip form;
     ActivitiesRoute.endTime := None;
     ActivitiesRoute.cost := Some (formCost form);
     ActivitiesRoute.currency := Some (currency form);
     ActivitiesRoute.images := Some (JArr (JStr <$> imageArray form));
     ActivitiesRoute.details := None |}.

(** The body when the form changes an activity; an empty [dayId] is
    refused by the store as [null] is. *)
Definition updateBody (trip : TripPage.Trip) (form : Form)
  : ActivitiesRoute.PatchBody :=
  {| ActivitiesRoute.p_id := id form;
     ActivitiesRoute.p_dayId :=
       match dayId form with Some d => Value d | None => Null end;
     ActivitiesRoute.p_type := Value (finalType form);
     ActivitiesRoute.p_title := Value (title form);
     ActivitiesRoute.p_description := Value (description form);
     ActivitiesRoute.p_location := Value (location form);
     ActivitiesRoute.p_startTime :=
       match startDateTime trip form with
       | Some t => Value t
       | None => Null
       end;
     ActivitiesRoute.p_cost := Value (formCost form);
     ActivitiesRoute.p_currency := Value (currency form);
     ActivitiesRoute.p_images := Value (JArr (JStr <$> imageArray form)) |}.

(** [handleCreateActivity]: the store after the request, whose answer
    is not read. *)
Definition handleCreateActivity (selectedDayId : option ident)
    (trip : TripPage.Trip) (form : Form) (db : Db) : Db :=
  match selectedDayId with
  | None => db
  | Some _ =>
      match id form with
      | Some _ =>
          (ActivitiesRoute.PATCH JSON_stringify (updateBody trip form)
             db).1
      | None =>
          (ActivitiesRoute.POST tz JSON_stringify (createBody trip form)
             db).1
      end
  end.

(** The body of the request of [handleDragEnd]. *)
Definition moveBody (activityId newDayId : ident)
  : ActivitiesRoute.PatchBody :=
  {| ActivitiesRoute.p_id := Some activityId;
     ActivitiesRoute.p_dayId := Value newDayId;
     ActivitiesRoute.p_type := Undefined;
     ActivitiesRoute.p_title := Undefined;
     ActivitiesRoute.p_description := Undefined;
     ActivitiesRoute.p_location := Undefined;
     ActivitiesRoute.p_startTime := Undefined;
     ActivitiesRoute.p_cost := Undefined;
     ActivitiesRoute.p_currency := Undefined;
     ActivitiesRoute.p_images := Undefined |}.

(** "Find the activity's current day" *)
Definition currentDayId (activityId : ident) (trip : TripPage.Trip)
  : option ident :=
  TripPage.dayId <$>
    List.find
      (λ day,
         bool_decide
           (is_Some
              (List.find
                 (λ a, bool_decide (TripPage.id a = activityId))
                 (TripPage.activities day))))
      (TripPage.days trip).

(** [handleDragEnd]; [over] is [None] when the activity is dropped
    outside the days. *)
Definition handleDragEnd (activityId : ident) (over : option ident)
    (trip : TripPage.Trip) (db : Db) : Db :=
  match over with
  | None => db
  | Some newDayId =>
      match currentDayId activityId trip with
      | Some current =>
          if bool_decide (newDayId ≠ current) then
            (ActivitiesRoute.PATCH JSON_stringify
               (moveBody activityId newDayId) db).1
          else db
      | None => db
      end
  end.

End Handlers.

(** *** The form of the trip *)

(** [openEditTrip]: the state [tripForm], as the request carries it.
    A date of the form is a calendar date, read by the route as midnight
    UTC. *)
Definition openEditTrip (trip : TripPage.Trip) : TripRoute.Body :=
  {| TripRoute.title := Some (TripPage.tripTitle trip);
     TripRoute.destination := Some (TripPage.destination trip);
     TripRoute.startDate :=
       Some (isoDate (TripPage.startDate trip) * MS_PER_DAY);
     TripRoute.endDate :=
       Some (isoDate (TripPage.endDate trip) * MS_PER_DAY);
     TripRoute.budget := truthy_number (TripPage.budget trip);
     TripRoute.coverImage :=
       Value (or_string (TripPage.coverImage trip) "") |}.

(** [handleEditTrip]: the store after the request. *)
Definition handleEditTrip (id : ident) (tripForm : TripRoute.Body)
    (db : Db) : Db :=
  (TripRoute.PATCH id tripForm db).1.

(** *** The route on the map *)




(** *** The calendar *)

(** [str.replace(/c/g, by)] for a character [c] *)
Fixpoint replaceAll (c : Ascii.ascii) (by_ : string) (str : string)
  : string :=
  match str with
  | EmptyString => EmptyString
  | String x rest =>
      if Ascii.eqb x c then by_ +:+ replaceAll c by_ rest
      else String x (replaceAll c by_ rest)
  end.

(** The characters [\], line feed, [;], [,] and [n]. *)
Definition backslash : Ascii.ascii := Ascii.ascii_of_nat 92.
Definition lineFeed : Ascii.ascii := Ascii.ascii_of_nat 10.
Definition semicolon : Ascii.ascii := Ascii.ascii_of_nat 59.
Definition comma : Ascii.ascii := Ascii.ascii_of_nat 44.
Definition letter_n : Ascii.ascii := Ascii.ascii_of_nat 110.

(** A backslash before [c]. *)
Definition escaped (c : Ascii.ascii) : string :=
  String backslash (String c EmptyString).

(** [str.replace(/\\/g, '\\\\').replace(/;/g, '\\;')
    .replace(/,/g, '\\,').replace(/\n/g, '\\n')] *)
Definition escapeICS (str : string) : string :=
  replaceAll lineFeed (escaped letter_n)
    (replaceAll comma (escaped comma)
       (replaceAll semicolon (escaped semicolon)
          (replaceAll backslash (escaped backslash) str))).

End TripPageActions.

(** ** The vocabulary of the properties *)

Section Vocabulary.
Import JsDate Store.


(** The trip's days are calendar dates, one per date. *)
Definition oneDayPerDate (id : ident) (db : Db) : Prop :=
  (∀ i d, days db !! i = Some d → day_tripId d = id →
          isCalendarDate (day_date d)) ∧
  (∀ i j d d', days db !! i = Some d → days db !! j = Some d' →
               day_tripId d = id → day_tripId d' = id →
               day_date d = day_date d' → i = j).

(** The trip has one day per date of the range from [s2] to [e2],
    numbered in date order. *)
Definition reconciled (id : ident) (s2 e2 : Z) (db : Db) : Prop :=
  (∀ j d, days db !! j = Some d → day_tripId d = id →
     isCalendarDate (day_date d) ∧
     ∃ k, 0 ≤ k < (e2 - s2) `div` MS_PER_DAY + 1 ∧
          day_date d = s2 + k * MS_PER_DAY ∧ day_index d = k) ∧
  (∀ k, 0 ≤ k < (e2 - s2) `div` MS_PER_DAY + 1 →
     ∃ j d, days db !! j = Some d ∧ day_tripId d = id ∧
            day_date d = s2 + k * MS_PER_DAY).

(** The activities of day [j] are the same in both stores. *)
Definition sameActivities (j : ident) (db db' : Db) : Prop :=
  ∀ i a, act_dayId a = j →
    (activities db' !! i = Some a ↔ activities db !! i = Some a).

(** No activity of the store refers to day [j]. *)
Definition noActivities (j : ident) (db : Db) : Prop :=
  ∀ i a, activities db !! i = Some a → act_dayId a ≠ j.

(** The index a day of trip [id] has once the dates before
    [s2 + k] days are handled. *)
Definition reindex (id : ident) (s2 k : Z) (d : Day) : Day :=
  if decide (day_tripId d = id ∧ day_date d < s2 + k * MS_PER_DAY)
  then mkDay id (day_date d) ((day_date d - s2) `div` MS_PER_DAY)
  else d.

(** The state of the store after [k] rounds of the loop that creates the
    days and updates their index; [db0] is the store when the trip was
    read and [dbd] the store after the deletions. *)
Record Inv (id : ident) (s2 : Z) (db0 dbd : Db) (k : Z) (db : Db)
  : Prop := mkInv {
  inv_trips : trips db = trips db0;
  inv_activities : activities db = activities dbd;
  inv_next : (next_id db0 ≤ next_id db)%nat;
  inv_bound : ∀ j, is_Some (days db !! j) → (j < next_id db)%nat;
  inv_old :
    ∀ j, (j < next_id db0)%nat →
      days db !! j = reindex id s2 k <$> days dbd !! j;
  inv_new :
    ∀ j d, (next_id db0 ≤ j)%nat → days db !! j = Some d →
      day_tripId d = id ∧
      ∃ k', 0 ≤ k' < k ∧ day_date d = s2 + k' * MS_PER_DAY ∧
            day_index d = k' ∧
            ∀ r, r ∈ days_of_trip id db0 → day_date r.2 ≠ day_date d;
  inv_cover :
    ∀ k', 0 ≤ k' < k →
      ∃ j d, days db !! j = Some d ∧ day_tripId d = id ∧
             day_date d = s2 + k' * MS_PER_DAY;
  inv_new_unique :
    ∀ j j' d d', (next_id db0 ≤ j)%nat → (next_id db0 ≤ j')%nat →
      days db !! j = Some d → days db !! j' = Some d' →
      day_date d = day_date d' → j = j'
}.

(** The integrity of a store, as a test. *)
Definition wfb (db : Db) : bool :=
  bool_decide (map_Forall (λ i _, (i < next_id db)%nat) (trips db))
  && bool_decide (map_Forall (λ i _, (i < next_id db)%nat) (days db))
  && bool_decide
       (map_Forall (λ i _, (i < next_id db)%nat) (activities db))
  && bool_decide
       (map_Forall (λ _ d, is_Some (trips db !! day_tripId d)) (days db))
  && bool_decide
       (map_Forall (λ _ a, is_Some (days db !! act_dayId a))
          (activities db)).

(** A property that is not supplied leaves the stored value as it is. *)
Definition unlessSupplied {A B} (x : field A) (old new : B) : Prop :=
  x = Undefined → new = old.









End Vocabulary.

Section CurrencyVocabulary.
Import Currency.

(** No usable cache and no answer from the rate service. *)
Definition fallbackActive (now : Z)
    (fetch : string → option (gmap string Q)) (base : string)
    (rt : Runtime) : Prop :=
  usable now base (cachedRates rt) = None ∧
  usable now base (mjoin (localStorage rt)) = None ∧
  fetch base = None.

End CurrencyVocabulary.

Section SortingVocabulary.
Import TripPage.





End SortingVocabulary.

(** ** Stores and requests used in the examples *)

Section Examples.
Import JsDate Store.

Definition hour : Z := 3600000.

(** Midnight UTC of the [d]-th of March 2024. *)
Definition march (d : Z) : Z := (19782 + d) * MS_PER_DAY.

Definition emptyDb : Db :=
  {| trips := ∅; days := ∅; activities := ∅; next_id := 0%nat |}.

(** A [JSON.stringify] for the examples: exact on strings that need no
    escape and on arrays of them. *)
Definition quote : string := String (Ascii.ascii_of_nat 34) "".

Fixpoint stringify (v : json) : string :=
  match v with
  | JStr s => quote +:+ s +:+ quote
  | JArr items =>
      "[" +:+ String.concat "," (List.map stringify items) +:+ "]"
  | _ => "null"
  end.

Definition tripBody (s e : Z) : TripsRoute.Body :=
  {| TripsRoute.title := Some "Lisbon";
     TripsRoute.destination := Some "Lisbon";
     TripsRoute.startDate := Some s;
     TripsRoute.endDate := Some e;
     TripsRoute.budget := Some 1000%Q;
     TripsRoute.currency := Some "EUR";
     TripsRoute.coverImage := None |}.

(** The form of the edit dialog, sent whole. *)
Definition editBody (s e : Z) : TripRoute.Body :=
  {| TripRoute.title := Some "Lisbon";
     TripRoute.destination := Some "Lisbon";
     TripRoute.startDate := Some s;
     TripRoute.endDate := Some e;
     TripRoute.budget := Some 1000%Q;
     TripRoute.coverImage := Value "" |}.

Definition activityBody (dayId : ident) (title : string)
    (startTime : option Z) : ActivitiesRoute.PostBody :=
  {| ActivitiesRoute.dayId := Some dayId;
     ActivitiesRoute.type := Some "activity";
     ActivitiesRoute.title := Some title;
     ActivitiesRoute.description := Some "";
     ActivitiesRoute.location := Some "";
     ActivitiesRoute.startTime := startTime;
     ActivitiesRoute.endTime := None;
     ActivitiesRoute.cost := Some 12%Q;
     ActivitiesRoute.currency := Some "EUR";
     ActivitiesRoute.images := Some (JArr []);
     ActivitiesRoute.details := None |}.

(** A trip from the 5th to the 7th of March: trip 0 with the days 1, 2
    and 3. *)
Definition lisbon : Db :=
  (TripsRoute.POST (tripBody (march 5) (march 7)) emptyDb).1.

(** The row of that trip. *)
Definition lisbonTrip : Trip :=
  {| trip_title := "Lisbon";
     trip_destination := Some "Lisbon";
     trip_startDate := march 5;
     trip_endDate := march 7;
     trip_budget := Some 1000%Q;
     trip_currency := "EUR";
     trip_coverImage := None |}.

(** The same, with an activity (4) at 10:00 on the 6th (day 2). *)
Definition lisbonWithMuseum : Db :=
  (ActivitiesRoute.POST 0 stringify
     (activityBody 2 "Museum" (Some (march 6 + 10 * hour))) lisbon).1.

(** A trip whose dates are at 23:00 UTC, from the 4th to the 6th of March
    (midnight of the 5th to the 7th in a zone one hour east), with an
    activity (4) on its last day (3). *)
Definition lateTrip : Db :=
  (ActivitiesRoute.POST 0 stringify (activityBody 3 "Dinner" None)
     (TripsRoute.POST
        (tripBody (march 4 + 23 * hour) (march 6 + 23 * hour))
        emptyDb).1).1.

(** An update that supplies a new start time and nothing else. *)
Definition retime (id : ident) (startTime : Z) : ActivitiesRoute.PatchBody :=
  {| ActivitiesRoute.p_id := Some id;
     ActivitiesRoute.p_dayId := Undefined;
     ActivitiesRoute.p_type := Undefined;
     ActivitiesRoute.p_title := Undefined;
     ActivitiesRoute.p_description := Undefined;
     ActivitiesRoute.p_location := Undefined;
     ActivitiesRoute.p_startTime := Value startTime;
     ActivitiesRoute.p_cost := Undefined;
     ActivitiesRoute.p_currency := Undefined;
     ActivitiesRoute.p_images := Undefined |}.

Definition noCache : Currency.Runtime :=
  {| Currency.cachedRates := None; Currency.localStorage := Some None |}.

(** The rate service does not answer. *)
Definition offline : string → option (gmap string Q) := λ _, None.

(** The rate service answers with a table in which [XXX] has the
    rate 0. *)
Definition zeroRate : string → option (gmap string Q) :=
  λ _, Some (<[ "XXX" := 0%Q ]> Currency.fallbackEUR).


Definition pageActivity (i : ident) (name : string) (t : option Z)
  : TripPage.Activity :=
  {| TripPage.id := i; TripPage.type := "activity";
     TripPage.title := name; TripPage.description := None;
     TripPage.startTime := t; TripPage.endTime := None;
     TripPage.cost := Some 12%Q; TripPage.currency := Some "EUR";
     TripPage.location := None; TripPage.images := None |}.

Definition pageDay (i : ident) (d index : Z)
    (l : list TripPage.Activity) : TripPage.Day :=
  {| TripPage.dayId := i; TripPage.date := march d;
     TripPage.index := index; TripPage.note := None;
     TripPage.activities := l |}.

Definition pageTrip (l : list TripPage.Day) : TripPage.Trip :=
  {| TripPage.tripId := 0%nat; TripPage.tripTitle := "Lisbon";
     TripPage.destination := "Lisbon";
     TripPage.startDate := march 5; TripPage.endDate := march 7;
     TripPage.budget := Some 1000%Q;
     TripPage.tripCurrency := Some "EUR";
     TripPage.coverImage := None; TripPage.days := l |}.

(** [lisbonWithMuseum] as the page holds it. *)
Definition lisbonPage : TripPage.Trip :=
  pageTrip
    [ pageDay 1 5 0 [];
      pageDay 2 6 1 [pageActivity 4 "Museum" (Some (march 6 + 10 * hour))];
      pageDay 3 7 2 [] ].




End Examples.

(** ** More vocabulary: the requests *)

Section RequestVocabulary.
Import JsDate Store.

(** What a sequence of writes on the days of trip [id] does to a store
    [db] on its way to [db']: the trips and the rows of the other trips
    stay, no activity is written, and a day that is added belongs to
    trip [id]. *)
Record confined (id : ident) (db db' : Db) : Prop := mkConfined {
  conf_wf : wf db';
  conf_trips : trips db' = trips db;
  conf_next : (next_id db ≤ next_id db')%nat;
  conf_old :
    ∀ j d', days db' !! j = Some d' → (j < next_id db)%nat →
      ∃ d, days db !! j = Some d ∧ day_tripId d = day_tripId d' ∧
           (day_tripId d ≠ id → d' = d);
  conf_new :
    ∀ j d', days db' !! j = Some d' → (next_id db ≤ j)%nat →
      day_tripId d' = id;
  conf_others :
    ∀ j d, days db !! j = Some d → day_tripId d ≠ id →
      days db' !! j = Some d;
  conf_activities :
    ∀ i a, activities db' !! i = Some a → activities db !! i = Some a;
  conf_other_activities :
    ∀ i a d, activities db !! i = Some a →
      days db !! act_dayId a = Some d → day_tripId d ≠ id →
      activities db' !! i = Some a
}.

(** The rows of the trips other than [id] are in [db'] as they are in
    [db], and [db'] has no activity that [db] has not. *)
Definition othersUntouched (id : ident) (db db' : Db) : Prop :=
  (∀ j, j ≠ id → trips db' !! j = trips db !! j) ∧
  (∀ j d, day_tripId d ≠ id →
     (days db' !! j = Some d ↔ days db !! j = Some d)) ∧
  (∀ i a, activities db' !! i = Some a → activities db !! i = Some a) ∧
  (∀ i a d, activities db !! i = Some a →
     days db !! act_dayId a = Some d → day_tripId d ≠ id →
     activities db' !! i = Some a).

End RequestVocabulary.


Section TotalsVocabulary.
Import Currency.



End TotalsVocabulary.


Section PageVocabulary.
Import JsDate Store TripPageActions.

(** The page holds the row [t] of a trip as the route answers it. *)
Definition showsTrip (trip : TripPage.Trip) (t : Trip) : Prop :=
  TripPage.tripTitle trip = trip_title t ∧
  TripPage.destination trip = or_string (trip_destination t) "" ∧
  TripPage.startDate trip = trip_startDate t ∧
  TripPage.endDate trip = trip_endDate t ∧
  TripPage.budget trip = trip_budget t ∧
  TripPage.coverImage trip = trip_coverImage t.

(** The page holds the day [i] of the store, with its date. *)
Definition showsDay (trip : TripPage.Trip) (i : ident) (d : Day) : Prop :=
  ∃ day,
    List.find (λ p, bool_decide (TripPage.dayId p = i)) (TripPage.days trip)
    = Some day ∧
    TripPage.date day = day_date d.

(** A time of the day, as the field for the time gives it. *)
Definition timeOfDay (time : option (Z * Z)) : Prop :=
  match time with
  | Some (hours, minutes) => 0 ≤ hours < 24 ∧ 0 ≤ minutes < 60
  | None => True
  end.

(** The time of the day, in the zone of the browser, of the start time
    that the form gives on a day at [date]. *)
Definition timeValue (tzBrowser : Z) (time : option (Z * Z)) (date : Z)
  : Z :=
  match time with
  | Some (hours, minutes) =>
      hours * MS_PER_HOUR + minutes * MS_PER_MINUTE
      + (date + tzBrowser) `mod` MS_PER_MINUTE
  | None => 0
  end.


(** The escape of one character. *)
Definition escapeChar (c : Ascii.ascii) : string :=
  if Ascii.eqb c backslash then escaped backslash
  else if Ascii.eqb c semicolon then escaped semicolon
  else if Ascii.eqb c comma then escaped comma
  else if Ascii.eqb c lineFeed then escaped letter_n
  else String c EmptyString.

(** The text that an escaped text stands for. *)
Fixpoint unescapeICS (str : string) : string :=
  match str with
  | EmptyString => EmptyString
  | String x EmptyString => String x EmptyString
  | String x (String y rest as tail) =>
      if Ascii.eqb x backslash then
        String (if Ascii.eqb y letter_n then lineFeed else y)
          (unescapeICS rest)
      else String x (unescapeICS tail)
  end.

(** The characters of a text. *)
Fixpoint characters (str : string) : list Ascii.ascii :=
  match str with
  | EmptyString => []
  | String x rest => x :: characters rest
  end.

(** Every escaped separator of the text follows a backslash. *)
Fixpoint guarded (l : list Ascii.ascii) : Prop :=
  match l with
  | [] => True
  | x :: rest =>
      if Ascii.eqb x backslash then
        match rest with
        | [] => False
        | _ :: rest' => guarded rest'
        end
      else x ≠ semicolon ∧ x ≠ comma ∧ x ≠ lineFeed ∧ guarded rest
  end.

End PageVocabulary.


(** ** More stores and requests used in the examples *)

Section MoreExamples.
Import JsDate Store.

(** [lisbonWithMuseum] and a second trip (5) from the 10th to the 12th
    of March, with the days 6, 7 and 8. *)
Definition twoTrips : Db :=
  (TripsRoute.POST (tripBody (march 10) (march 12)) lisbonWithMuseum).1.

(** The days of [lisbon], as its creation answers them. *)
Definition lisbonDays : list (ident * Day) :=
  [ (1%nat, mkDay 0 (march 5) 0);
    (2%nat, mkDay 0 (march 6) 1);
    (3%nat, mkDay 0 (march 7) 2) ].

(** The activity of [lisbonWithMuseum]. *)
Definition museum : Activity :=
  {| act_dayId := 2%nat;
     act_type := Some "activity";
     act_title := "Museum";
     act_description := Some "";
     act_location := Some "";
     act_startTime := Some (march 6 + 10 * hour);
     act_endTime := None;
     act_cost := Some 12%Q;
     act_currency := Some "EUR";
     act_images := Some "[]";
     act_details := None |}.


(** The form of a new activity at 10:00 on day 2. *)
Definition museumForm : TripPageActions.Form :=
  {| TripPageActions.id := None;
     TripPageActions.type := "activity";
     TripPageActions.customType := "";
     TripPageActions.title := "Museum";
     TripPageActions.description := "";
     TripPageActions.dayId := Some 2%nat;
     TripPageActions.time := Some (10, 0);
     TripPageActions.cost := Some 12%Q;
     TripPageActions.currency := "EUR";
     TripPageActions.location := "";
     TripPageActions.images := "" |}.

(** The split of the images of a form without images. *)
Definition noImages : string → list string := λ _, [].

End MoreExamples.

(** * Properties *)

Section TripCreation.
Import JsDate Store.


Lemma wfb_wf db : wfb db = true → wf db.
Proof.
  unfold wfb. rewrite !andb_true_iff, !bool_decide_eq_true.
  intros [[[[H1 H2] H3] H4] H5]. split.
  - intros i [t Ht]. by apply (H1 i t).
  - intros i [t Ht]. by apply (H2 i t).
  - intros i [t Ht]. by apply (H3 i t).
  - intros i d Hd. by apply (H4 i d).
  - intros i a Ha. by apply (H5 i a).
Qed.

(** ** Creating a trip *)

Lemma MS_PER_DAY_pos : 0 < MS_PER_DAY.
Proof. reflexivity. Qed.

Lemma dayCount_step (cur e : Z) :
  cur ≤ e → (e - addDay cur) `div` MS_PER_DAY + 1 = (e - cur) `div` MS_PER_DAY.
Proof.
  intros _. unfold addDay.
  replace (e - (cur + MS_PER_DAY)) with ((e - cur) + (-1) * MS_PER_DAY) by lia.
  rewrite Z.div_add by (unfold MS_PER_DAY; lia). lia.
Qed.

Lemma dayCount_nonneg (cur e : Z) : cur ≤ e → 0 ≤ (e - cur) `div` MS_PER_DAY.
Proof. intros. apply Z.div_pos; [lia | apply MS_PER_DAY_pos]. Qed.

Lemma dayCount_neg (cur e : Z) : e < cur → (e - cur) `div` MS_PER_DAY + 1 ≤ 0.
Proof.
  intros. assert ((e - cur) `div` MS_PER_DAY < 0); [|lia].
  apply Z.div_lt_upper_bound; [apply MS_PER_DAY_pos | lia].
Qed.

Lemma daysLoop_spec fuel cur e idx :
  (Z.to_nat ((e - cur) `div` MS_PER_DAY + 1) ≤ fuel)%nat →
  TripsRoute.daysLoop fuel cur e idx =
    Some ((λ k, (cur + k * MS_PER_DAY, idx + k))
            <$> seqZ 0 ((e - cur) `div` MS_PER_DAY + 1)).
Proof.
  revert cur idx. induction fuel as [|fuel IH]; intros cur idx Hfuel.
  - simpl. case_bool_decide as Hle.
    + pose proof (dayCount_nonneg _ _ Hle). exfalso. lia.
    + rewrite seqZ_nil; [done | apply dayCount_neg; lia].
  - simpl. case_bool_decide as Hle.
    + pose proof (dayCount_nonneg _ _ Hle) as Hn.
      rewrite IH by (rewrite dayCount_step by done; lia).
      rewrite dayCount_step by done. simpl. f_equal.
      rewrite (seqZ_cons 0 (_ + 1)) by lia. simpl.
      replace (Z.pred ((e - cur) `div` MS_PER_DAY + 1))
        with ((e - cur) `div` MS_PER_DAY) by lia.
      f_equal; [f_equal; lia|].
      rewrite <- (fmap_add_seqZ 1 0), <- list_fmap_compose.
      apply list_fmap_ext. intros _ k _. simpl. unfold addDay. f_equal; lia.
    + rewrite seqZ_nil; [done | apply dayCount_neg; lia].
Qed.

(** Rows written under fresh identifiers. *)
Lemma map_to_list_insert_rows {R} (rows : list (ident * R)) (m : gmap ident R) :
  NoDup rows.*1 →
  (∀ r, r ∈ rows → m !! r.1 = None) →
  map_to_list (foldl (λ m r, <[r.1 := r.2]> m) m rows) ≡ₚ rows ++ map_to_list m.
Proof.
  revert m. induction rows as [|[i r] rows IH]; intros m Hnd Hfresh; [done|].
  simpl in *. apply NoDup_cons in Hnd as [Hi Hnd].
  rewrite IH; [| done |].
  - rewrite map_to_list_insert by (apply (Hfresh (i, r)); left).
    by rewrite Permutation_middle.
  - intros [j r'] Hj. simpl. rewrite lookup_insert_ne.
    + apply (Hfresh (j, r')). by right.
    + intros ->. apply Hi. apply list_elem_of_fmap. by exists (j, r').
Qed.

Lemma filter_all {A} (P : A → Prop) `{!∀ x, Decision (P x)} (l : list A) :
  Forall P l → filter P l = l.
Proof.
  induction 1 as [|x l Hx _ IH]; [done|].
  rewrite filter_cons_True by done. by rewrite IH.
Qed.

Lemma filter_none {A} (P : A → Prop) `{!∀ x, Decision (P x)} (l : list A) :
  Forall (λ x, ¬ P x) l → filter P l = [].
Proof.
  induction 1 as [|x l Hx _ IH]; [done|].
  by rewrite filter_cons_False.
Qed.

Lemma rows_where_nil {R} (p : R → bool) (t : gmap ident R) :
  (∀ i r, t !! i = Some r → p r = false) → rows_where p t = [].
Proof.
  intros H. apply filter_none, Forall_forall.
  intros [i r] Hin%elem_of_map_to_list. simpl. rewrite (H i r Hin). done.
Qed.

Lemma created_rows_fst (id : ident) (ds : list (Z * Z)) :
  (imap (λ k (d : Z * Z), (S id + k, mkDay id d.1 d.2)%nat) ds).*1
  = seq (S id) (length ds).
Proof.
  revert id. induction ds as [|d ds IH]; intros id; [done|].
  simpl. f_equal; [lia|]. rewrite <- (IH (S id)).
  rewrite !fmap_imap. apply imap_ext. intros; simpl. lia.
Qed.

Lemma trip_create_days t ds db :
  wf db →
  ∃ db',
    trip_create t ds db =
      (db', Some (next_id db, t,
                  imap (λ k (d : Z * Z),
                          (S (next_id db) + k, mkDay (next_id db) d.1 d.2)%nat)
                    ds)) ∧
    trips db' !! next_id db = Some t ∧
    days_of_trip (next_id db) db' ≡ₚ
      imap (λ k (d : Z * Z),
              (S (next_id db) + k, mkDay (next_id db) d.1 d.2)%nat) ds.
Proof.
  intros Hwf. eexists. split; [reflexivity|].
  split; [apply lookup_insert_eq|].
  unfold days_of_trip, rows_where. cbn [days].
  rewrite map_to_list_insert_rows.
  - rewrite filter_app.
    fold (rows_where (λ d, bool_decide (day_tripId d = next_id db)) (days db)).
    rewrite rows_where_nil, app_nil_r.
    + rewrite filter_all; [done|]. apply Forall_forall.
      intros [i d] [k [x [Hx _]]]%elem_of_lookup_imap. simpl.
      inversion Hx; subst. simpl. by apply bool_decide_eq_true.
    + intros i d Hd. apply bool_decide_eq_false. intros Heq.
      destruct (wf_day_trip db Hwf i d Hd) as [t' Ht'].
      pose proof (wf_trips db Hwf (day_tripId d) (mk_is_Some _ _ Ht')). lia.
  - rewrite created_rows_fst. apply NoDup_seq.
  - intros [i d] Hin. simpl.
    assert (i ∈ seq (S (next_id db)) (length ds)) as Hi.
    { rewrite <- created_rows_fst. apply list_elem_of_fmap. by exists (i, d). }
    apply elem_of_seq in Hi. apply eq_None_not_Some. intros Hs.
    pose proof (wf_days db Hwf i Hs). lia.
Qed.



Lemma calendarDate_eq (t : Z) : isCalendarDate t → isoDate t * MS_PER_DAY = t.
Proof.
  unfold isCalendarDate, isoDate. intros H.
  pose proof (Z.div_mod t MS_PER_DAY). unfold MS_PER_DAY in *. lia.
Qed.


Lemma emptyDb_wf : wf emptyDb.
Proof. apply wfb_wf. reflexivity. Qed.


(** C10.  Creating a trip whose start date is after its end date succeeds:
    the validation only asks for the presence of the title and of the two
    dates, the loop that enumerates the days makes no round, and the trip
    is stored with no day; no error is answered. *)
Theorem POST_trip_inverted_range db body title s e :
  wf db →
  truthy_opt_string (TripsRoute.title body) = Some title →
  TripsRoute.startDate body = Some s →
  TripsRoute.endDate body = Some e →
  e < s →
  (∀ fuel index, TripsRoute.daysLoop fuel s e index = Some []) ∧
  ∃ db' trip,
    TripsRoute.POST body db = (db', Ok (next_id db, trip, [])) ∧
    trips db' !! next_id db = Some trip ∧
    trip_startDate trip = s ∧ trip_endDate trip = e ∧
    days_of_trip (next_id db) db' = [].
Proof.
  intros Hwf Htitle Hs He Hlt.
  assert (∀ fuel index, TripsRoute.daysLoop fuel s e index = Some []) as Hloop.
  { intros [|fuel] index; simpl; rewrite bool_decide_eq_false_2; auto with lia. }
  split; [done|]. unfold TripsRoute.POST. rewrite Htitle, Hs, He, Hloop.
  destruct (trip_create_days
              {| trip_title := title;
                 trip_destination := TripsRoute.destination body;
                 trip_startDate := s;
                 trip_endDate := e;
                 trip_budget := truthy_number (TripsRoute.budget body);
                 trip_currency :=
                   TripsRoute.defaultCurrency (TripsRoute.currency body);
                 trip_coverImage := TripsRoute.coverImage body |}
              [] db Hwf)
    as (db' & Hrun & Htrip & Hdays).
  rewrite Hrun. eexists db', _. split; [reflexivity|].
  split; [done|]. split; [done|]. split; [done|].
  by apply Permutation_nil_r.
Qed.

Lemma POST_trip_inverted_range_witness :
  wf emptyDb ∧ march 5 < march 7 ∧
  ∃ db' trip,
    TripsRoute.POST (tripBody (march 7) (march 5)) emptyDb
      = (db', Ok (0%nat, trip, [])) ∧
    trips db' !! 0%nat = Some trip ∧
    days_of_trip 0%nat db' = [].
Proof.
  split; [exact emptyDb_wf|]. split; [vm_compute; reflexivity|].
  destruct (POST_trip_inverted_range emptyDb (tripBody (march 7) (march 5))
              "Lisbon" (march 7) (march 5) emptyDb_wf eq_refl eq_refl eq_refl)
    as (_ & db' & trip & Hrun & Htrip & _ & _ & Hdays).
  - vm_compute; reflexivity.
  - exists db', trip. split; [exact Hrun|]. split; [exact Htrip | exact Hdays].
Defined.

End TripCreation.

Section Reconciliation.
Import JsDate Store.


(** ** Updating the range of a trip *)

Lemma elem_of_rows_where {R} (p : R → bool) (t : gmap ident R) i r :
  (i, r) ∈ rows_where p t ↔ t !! i = Some r ∧ p r = true.
Proof.
  unfold rows_where. rewrite list_elem_of_filter, elem_of_map_to_list.
  simpl. tauto.
Qed.

Lemma NoDup_rows_where {R} (p : R → bool) (t : gmap ident R) :
  NoDup (rows_where p t).*1.
Proof.
  eapply sublist_NoDup; [apply (NoDup_fst_map_to_list t)|].
  apply fmap_sublist. unfold rows_where. apply sublist_filter.
Qed.

Lemma elem_of_days_of_trip id db i d :
  (i, d) ∈ days_of_trip id db ↔ days db !! i = Some d ∧ day_tripId d = id.
Proof.
  unfold days_of_trip. rewrite elem_of_rows_where.
  by rewrite bool_decide_eq_true.
Qed.

(** *** The index of the existing days *)

Lemma existingDaysByDate_Some L key r :
  TripRoute.existingDaysByDate L !! key = Some r →
  r ∈ L ∧ isoDate (day_date r.2) = key.
Proof.
  unfold TripRoute.existingDaysByDate.
  induction L as [|x L IH] using rev_ind; [simpl; by rewrite lookup_empty|].
  rewrite foldl_snoc. destruct (decide (isoDate (day_date x.2) = key)) as [<-|Hne].
  - rewrite lookup_insert_eq. intros [= <-]. split; [|done].
    apply elem_of_app. right. by left.
  - rewrite lookup_insert_ne by done. intros [Hin Hk]%IH. split; [|done].
    apply elem_of_app. by left.
Qed.

Lemma existingDaysByDate_None L key :
  TripRoute.existingDaysByDate L !! key = None →
  ∀ r, r ∈ L → isoDate (day_date r.2) ≠ key.
Proof.
  unfold TripRoute.existingDaysByDate.
  induction L as [|x L IH] using rev_ind; [by inversion 2|].
  rewrite foldl_snoc. intros Hnone r Hin Hkey.
  destruct (decide (isoDate (day_date x.2) = key)) as [<-|Hne].
  - by rewrite lookup_insert_eq in Hnone.
  - rewrite lookup_insert_ne in Hnone by done.
    apply elem_of_app in Hin as [Hin|Hin].
    + by apply (IH Hnone r).
    + apply list_elem_of_singleton in Hin as ->. done.
Qed.

(** *** The enumeration of the new dates *)

Lemma datesLoop_spec fuel cur e :
  (Z.to_nat ((e - cur) `div` MS_PER_DAY + 1) ≤ fuel)%nat →
  TripRoute.datesLoop fuel cur e =
    Some ((λ k, cur + k * MS_PER_DAY)
            <$> seqZ 0 ((e - cur) `div` MS_PER_DAY + 1)).
Proof.
  revert cur. induction fuel as [|fuel IH]; intros cur Hfuel.
  - simpl. case_bool_decide as Hle.
    + pose proof (dayCount_nonneg _ _ Hle). exfalso. lia.
    + rewrite seqZ_nil; [done | apply dayCount_neg; lia].
  - simpl. case_bool_decide as Hle.
    + pose proof (dayCount_nonneg _ _ Hle) as Hn.
      rewrite IH by (rewrite dayCount_step by done; lia).
      rewrite dayCount_step by done. simpl. f_equal.
      rewrite (seqZ_cons 0 (_ + 1)) by lia. simpl.
      replace (Z.pred ((e - cur) `div` MS_PER_DAY + 1))
        with ((e - cur) `div` MS_PER_DAY) by lia.
      f_equal; [lia|].
      rewrite <- (fmap_add_seqZ 1 0), <- list_fmap_compose.
      apply list_fmap_ext. intros _ k _. simpl. unfold addDay. lia.
    + rewrite seqZ_nil; [done | apply dayCount_neg; lia].
Qed.

(** *** The deletions *)

Lemma delete_phase newStart newEnd L db :
  NoDup L.*1 →
  (∀ i d, (i, d) ∈ L → days db !! i = Some d) →
  ∃ db',
    forEach L (TripRoute.deleteOutside newStart newEnd) db = (db', Some tt) ∧
    trips db' = trips db ∧ next_id db' = next_id db ∧
    (∀ j d, days db' !! j = Some d ↔
       days db !! j = Some d ∧
       ¬ ((j, d) ∈ L ∧ TripRoute.outsideRange newStart newEnd (j, d) = true)) ∧
    (∀ j a, activities db' !! j = Some a ↔
       activities db !! j = Some a ∧
       ¬ (∃ d, (act_dayId a, d) ∈ L ∧
               TripRoute.outsideRange newStart newEnd (act_dayId a, d) = true)).
Proof.
  revert db. induction L as [|[i d] L IH]; intros db Hnd Hin.
  - exists db. split; [done|]. split; [done|]. split; [done|].
    split; intros; split; try tauto.
    + intros H; split; [done|]. intros [H' _]. inversion H'.
    + intros H; split; [done|]. intros (? & H' & _). inversion H'.
  - simpl in Hnd. apply NoDup_cons in Hnd as [Hi Hnd].
    assert (days db !! i = Some d) as Hd by (apply Hin; left).
    assert (∀ j d', (j, d') ∈ L → j ≠ i) as Hne.
    { intros j d' Hj ->. apply Hi, list_elem_of_fmap. by exists (i, d'). }
    cbn [forEach]. unfold bind at 1, TripRoute.deleteOutside at 1.
    destruct (TripRoute.outsideRange newStart newEnd (i, d)) eqn:Hout.
    + unfold day_delete at 1. cbn [fst]. rewrite Hd.
      match goal with |- context [forEach L _ ?db0] => set (db1 := db0) end.
      destruct (IH db1 Hnd) as (db' & Hrun & Htrips & Hnext & Hdays & Hacts).
      { intros j d' Hj. subst db1. cbn [days].
        rewrite lookup_delete_ne by (symmetry; eauto). apply Hin. by right. }
      exists db'. split; [done|]. split; [done|]. split; [done|].
      subst db1. cbn [days activities] in *. split.
      * intros j d'. rewrite Hdays. rewrite lookup_delete_Some.
        rewrite elem_of_cons. split.
        -- intros [[Hji Hj] Hn]. split; [done|]. intros [[Heq|HjL] Ho].
           ++ inversion Heq; subst. done.
           ++ apply Hn. done.
        -- intros [Hj Hn]. split; [split; [|done]|].
           ++ intros <-. apply Hn. rewrite Hd in Hj. inversion Hj; subst.
              split; [by left | done].
           ++ intros [HjL Ho]. apply Hn. split; [by right | done].
      * intros j a. rewrite Hacts. rewrite map_lookup_filter_Some. simpl.
        split.
        -- intros [[Hj Hai] Hn]. split; [done|]. intros (d' & Hd' & Ho).
           apply elem_of_cons in Hd' as [Heq|Hd'].
           ++ inversion Heq; subst. done.
           ++ apply Hn. eauto.
        -- intros [Hj Hn]. split; [split; [done|]|].
           ++ intros Heq. apply Hn. exists d. rewrite Heq. split; [by left|done].
           ++ intros (d' & Hd' & Ho). apply Hn. exists d'. split; [by right|done].
    + unfold ret at 1.
      destruct (IH db Hnd) as (db' & Hrun & Htrips & Hnext & Hdays & Hacts).
      { intros j d' Hj. apply Hin. by right. }
      exists db'. split; [done|]. split; [done|]. split; [done|]. split.
      * intros j d'. rewrite Hdays. rewrite elem_of_cons. split.
        -- intros [Hj Hn]. split; [done|]. intros [[Heq|HjL] Ho].
           ++ inversion Heq; subst. congruence.
           ++ apply Hn. done.
        -- intros [Hj Hn]. split; [done|]. intros [HjL Ho]. apply Hn.
           split; [by right|done].
      * intros j a. rewrite Hacts. split.
        -- intros [Hj Hn]. split; [done|]. intros (d' & Hd' & Ho).
           apply elem_of_cons in Hd' as [Heq|Hd'].
           ++ inversion Heq; subst. congruence.
           ++ apply Hn. eauto.
        -- intros [Hj Hn]. split; [done|]. intros (d' & Hd' & Ho). apply Hn.
           exists d'. split; [by right|done].
Qed.


(** *** Arithmetic of calendar dates *)

Lemma calendarDate_multiple t : isCalendarDate t ↔ ∃ q, t = q * MS_PER_DAY.
Proof.
  unfold isCalendarDate. split.
  - intros H. exists (t `div` MS_PER_DAY).
    pose proof (Z.div_mod t MS_PER_DAY). unfold MS_PER_DAY in *. lia.
  - intros [q ->]. apply Z.mod_mul. unfold MS_PER_DAY. lia.
Qed.

Lemma calendarDate_add_days s k :
  isCalendarDate s → isCalendarDate (s + k * MS_PER_DAY).
Proof.
  rewrite !calendarDate_multiple. intros [q ->]. exists (q + k). lia.
Qed.

Lemma calendarDate_offset s a :
  isCalendarDate s → isCalendarDate a →
  a = s + ((a - s) `div` MS_PER_DAY) * MS_PER_DAY.
Proof.
  rewrite !calendarDate_multiple. intros [q ->] [p ->].
  replace (p * MS_PER_DAY - q * MS_PER_DAY) with ((p - q) * MS_PER_DAY) by lia.
  rewrite Z.div_mul by (unfold MS_PER_DAY; lia). lia.
Qed.

Lemma calendarDate_same_day a b :
  isCalendarDate a → isCalendarDate b → isoDate a = isoDate b → a = b.
Proof.
  intros Ha Hb Hiso.
  rewrite <- (calendarDate_eq a Ha), <- (calendarDate_eq b Hb). by rewrite Hiso.
Qed.

Lemma days_between s a e :
  s ≤ a ≤ e → 0 ≤ (a - s) `div` MS_PER_DAY < (e - s) `div` MS_PER_DAY + 1.
Proof.
  intros [Hs He]. split.
  - apply Z.div_pos; [lia | apply MS_PER_DAY_pos].
  - assert ((a - s) `div` MS_PER_DAY ≤ (e - s) `div` MS_PER_DAY); [|lia].
    apply Z.div_le_mono; [apply MS_PER_DAY_pos | lia].
Qed.

Lemma offset_in_range s e k :
  0 ≤ k < (e - s) `div` MS_PER_DAY + 1 → s ≤ s + k * MS_PER_DAY ≤ e.
Proof.
  intros [H0 Hk].
  assert (k * MS_PER_DAY ≤ e - s); [|unfold MS_PER_DAY in *; lia].
  assert (0 ≤ e - s).
  { destruct (decide (0 ≤ e - s)); [done|].
    pose proof (dayCount_neg s e). lia. }
  pose proof (Z.mul_div_le (e - s) MS_PER_DAY MS_PER_DAY_pos).
  unfold MS_PER_DAY in *. lia.
Qed.

Lemma offset_div s k : (s + k * MS_PER_DAY - s) `div` MS_PER_DAY = k.
Proof.
  replace (s + k * MS_PER_DAY - s) with (k * MS_PER_DAY) by lia.
  apply Z.div_mul. unfold MS_PER_DAY. lia.
Qed.

Lemma offset_lt_succ s a k :
  isCalendarDate s → isCalendarDate a →
  a < s + (k + 1) * MS_PER_DAY → a < s + k * MS_PER_DAY ∨ a = s + k * MS_PER_DAY.
Proof.
  rewrite !calendarDate_multiple. intros [q ->] [p ->].
  unfold MS_PER_DAY. lia.
Qed.


(** *** The creations and the updates of the index *)

Section Regenerate.

Variables (id : ident) (s2 e2 : Z).
(** The store when the trip was read, and after the deletions. *)
Variables (db0 dbd : Db).

Let L := days_of_trip id db0.
Let n := (e2 - s2) `div` MS_PER_DAY + 1.
Let byDate := TripRoute.existingDaysByDate L.

Hypothesis Hwf : wf db0.
Hypothesis Htrip : is_Some (trips db0 !! id).
Hypothesis Hs2 : isCalendarDate s2.
Hypothesis Haligned : ∀ r, r ∈ L → isCalendarDate (day_date r.2).
Hypothesis Hunique :
  ∀ r r', r ∈ L → r' ∈ L → day_date r.2 = day_date r'.2 → r.1 = r'.1.
Hypothesis Hdel_days :
  ∀ j d, days dbd !! j = Some d ↔
    days db0 !! j = Some d ∧
    ¬ ((j, d) ∈ L ∧ TripRoute.outsideRange s2 e2 (j, d) = true).

Lemma dbd_in_L j d :
  days dbd !! j = Some d → day_tripId d = id →
  (j, d) ∈ L ∧ s2 ≤ day_date d ≤ e2.
Proof.
  intros Hd Hid. apply Hdel_days in Hd as [Hj Hn].
  assert ((j, d) ∈ L) as HL by (by apply elem_of_days_of_trip).
  split; [done|].
  destruct (TripRoute.outsideRange s2 e2 (j, d)) eqn:Hout; [by destruct Hn|].
  unfold TripRoute.outsideRange in Hout. simpl in Hout.
  apply orb_false_iff in Hout as [H1 H2].
  apply bool_decide_eq_false in H1, H2. lia.
Qed.

Lemma L_in_dbd r :
  r ∈ L → s2 ≤ day_date r.2 ≤ e2 → days dbd !! r.1 = Some r.2.
Proof.
  destruct r as [j d]. intros HL Hrange. simpl in *. apply Hdel_days.
  split; [by apply elem_of_days_of_trip in HL as [? _]|].
  intros [_ Hout]. unfold TripRoute.outsideRange in Hout. simpl in Hout.
  apply orb_true_iff in Hout as [H|H]; apply bool_decide_eq_true in H; lia.
Qed.

Lemma L_bound r : r ∈ L → (r.1 < next_id db0)%nat.
Proof.
  destruct r as [j d]. intros [Hj _]%elem_of_days_of_trip. simpl.
  apply (wf_days db0 Hwf j). rewrite Hj. by eexists.
Qed.

Lemma dbd_bound j : is_Some (days dbd !! j) → (j < next_id db0)%nat.
Proof.
  intros [d Hd]. apply Hdel_days in Hd as [Hj _].
  apply (wf_days db0 Hwf j). rewrite Hj. by eexists.
Qed.

Lemma reindex_other k d : day_tripId d ≠ id → reindex id s2 k d = d.
Proof. intros. unfold reindex. case_decide as Hc; [by destruct Hc | done]. Qed.

Lemma Inv_start :
  trips dbd = trips db0 → next_id dbd = next_id db0 → Inv id s2 db0 dbd 0 dbd.
Proof.
  intros Ht Hn. split.
  - done.
  - done.
  - lia.
  - intros j Hj. rewrite Hn. by apply dbd_bound.
  - intros j _. destruct (days dbd !! j) as [d|] eqn:Hd; [|done]. simpl.
    f_equal. unfold reindex. case_decide as Hc; [|done].
    destruct Hc as [Hid Hlt]. destruct (dbd_in_L j d Hd Hid). lia.
  - intros j d Hj Hd. pose proof (dbd_bound j (mk_is_Some _ _ Hd)). lia.
  - intros k' ?. lia.
  - intros j j' d d' Hj _ Hd. pose proof (dbd_bound j (mk_is_Some _ _ Hd)). lia.
Qed.

Lemma Inv_step k db :
  Inv id s2 db0 dbd k db → 0 ≤ k < n →
  ∃ db',
    TripRoute.createOrUpdate id byDate k (s2 + k * MS_PER_DAY) db = (db', Some tt) ∧
    Inv id s2 db0 dbd (k + 1) db'.
Proof.
  intros HI Hk. unfold TripRoute.createOrUpdate.
  pose proof MS_PER_DAY_pos as Hpos.
  pose proof (offset_in_range s2 e2 k Hk) as Hrange.
  pose proof (calendarDate_add_days s2 k Hs2) as Hcal.
  destruct (byDate !! isoDate (s2 + k * MS_PER_DAY)) as [[i d]|] eqn:Hby.
  - (* an existing day has this date *)
    apply existingDaysByDate_Some in Hby as [HL Hiso]. simpl in Hiso.
    assert (day_date d = s2 + k * MS_PER_DAY) as Hdate.
    { apply calendarDate_same_day; [apply (Haligned _ HL) | done | done]. }
    assert (day_tripId d = id) as Hid.
    { by apply elem_of_days_of_trip in HL as [_ ?]. }
    pose proof (L_bound _ HL) as Hi. simpl in Hi.
    assert (days dbd !! i = Some d) as Hdbd.
    { apply (L_in_dbd (i, d)); [done | simpl; lia]. }
    assert (days db !! i = Some d) as Hdb.
    { rewrite (inv_old _ _ _ _ _ _ HI) by done. rewrite Hdbd. simpl. f_equal.
      unfold reindex. case_decide as Hc; [|done]. lia. }
    unfold day_update_index. simpl. rewrite Hdb.
    eexists. split; [reflexivity|]. split; cbn [trips days activities next_id].
    + apply (inv_trips _ _ _ _ _ _ HI).
    + apply (inv_activities _ _ _ _ _ _ HI).
    + apply (inv_next _ _ _ _ _ _ HI).
    + intros j Hj. apply (inv_bound _ _ _ _ _ _ HI).
      destruct (decide (i = j)) as [<-|Hne]; [by rewrite Hdb|].
      by rewrite lookup_insert_ne in Hj.
    + intros j Hj. destruct (decide (i = j)) as [<-|Hne].
      * rewrite lookup_insert_eq, Hdbd. simpl. f_equal.
        unfold reindex. rewrite decide_True by (split; [done|lia]).
        rewrite Hid, Hdate, offset_div. done.
      * rewrite lookup_insert_ne by done. rewrite (inv_old _ _ _ _ _ _ HI) by done.
        destruct (days dbd !! j) as [d'|] eqn:Hd'; [|done]. simpl. f_equal.
        unfold reindex.
        destruct (decide (day_tripId d' = id)) as [Hid'|Hid'].
        -- destruct (dbd_in_L j d' Hd' Hid') as [HL' _].
           assert (day_date d' ≠ s2 + k * MS_PER_DAY) as Hdd.
           { intros Heq. apply Hne.
             apply (Hunique (i, d) (j, d') HL HL'). simpl. congruence. }
           pose proof (offset_lt_succ s2 (day_date d') k Hs2
                         (Haligned _ HL')) as Hsucc. simpl in Hsucc.
           repeat case_decide; try done; exfalso; intuition lia.
        -- repeat case_decide; try done; exfalso; intuition.
    + intros j d' Hj Hd'. rewrite lookup_insert_ne in Hd' by lia.
      destruct (inv_new _ _ _ _ _ _ HI j d' Hj Hd') as (? & k' & ? & ? & ? & ?).
      split; [done|]. exists k'. repeat split; try done; lia.
    + intros k' Hk'. destruct (decide (k' = k)) as [->|Hne].
      * exists i, (mkDay (day_tripId d) (day_date d) k).
        rewrite lookup_insert_eq. done.
      * destruct (inv_cover _ _ _ _ _ _ HI k') as (j & d' & Hd' & Hid' & Hdate');
          [lia|].
        exists j, d'. split; [|done]. rewrite lookup_insert_ne; [done|].
        intros <-. rewrite Hdb in Hd'. inversion Hd'; subst d'.
        assert (k' = k); [|done].
        rewrite Hdate in Hdate'. unfold MS_PER_DAY in Hdate'. lia.
    + intros j j' d1 d2 Hj Hj' H1 H2. rewrite lookup_insert_ne in H1 by lia.
      rewrite lookup_insert_ne in H2 by lia.
      by apply (inv_new_unique _ _ _ _ _ _ HI).
  - (* no existing day has this date *)
    pose proof (existingDaysByDate_None _ _ Hby) as Hnone.
    assert (∀ r, r ∈ L → day_date r.2 ≠ s2 + k * MS_PER_DAY) as Hfresh.
    { intros r Hr Heq. apply (Hnone r Hr). by rewrite Heq. }
    unfold bind, day_create, ret. simpl.
    destruct Htrip as [t Ht]. rewrite <- (inv_trips _ _ _ _ _ _ HI) in Ht.
    rewrite Ht.
    pose proof (inv_next _ _ _ _ _ _ HI) as Hnext.
    eexists. split; [reflexivity|]. split; cbn [trips days activities next_id].
    + apply (inv_trips _ _ _ _ _ _ HI).
    + apply (inv_activities _ _ _ _ _ _ HI).
    + lia.
    + intros j Hj. destruct (decide (next_id db = j)) as [<-|Hne]; [lia|].
      rewrite lookup_insert_ne in Hj by done.
      pose proof (inv_bound _ _ _ _ _ _ HI j Hj). lia.
    + intros j Hj. rewrite lookup_insert_ne by lia.
      rewrite (inv_old _ _ _ _ _ _ HI) by done.
      destruct (days dbd !! j) as [d'|] eqn:Hd'; [|done]. simpl. f_equal.
      unfold reindex.
      destruct (decide (day_tripId d' = id)) as [Hid'|Hid'].
      * destruct (dbd_in_L j d' Hd' Hid') as [HL' _].
        pose proof (Hfresh _ HL') as Hdd. simpl in Hdd.
        pose proof (offset_lt_succ s2 (day_date d') k Hs2
                      (Haligned _ HL')) as Hsucc. simpl in Hsucc.
        repeat case_decide; try done; exfalso; intuition lia.
      * repeat case_decide; try done; exfalso; intuition.
    + intros j d' Hj Hd'. destruct (decide (next_id db = j)) as [<-|Hne].
      * rewrite lookup_insert_eq in Hd'. inversion Hd'; subst d'. simpl.
        split; [done|]. exists k. repeat split; try done; lia.
      * rewrite lookup_insert_ne in Hd' by done.
        destruct (inv_new _ _ _ _ _ _ HI j d' Hj Hd') as (? & k' & ? & ? & ? & ?).
        split; [done|]. exists k'. repeat split; try done; lia.
    + intros k' Hk'. destruct (decide (k' = k)) as [->|Hne].
      * eexists _, _. rewrite lookup_insert_eq. done.
      * destruct (inv_cover _ _ _ _ _ _ HI k') as (j & d' & Hd' & Hid' & Hdate');
          [lia|].
        exists j, d'. split; [|done]. rewrite lookup_insert_ne; [done|].
        intros <-. pose proof (inv_bound _ _ _ _ _ _ HI _ (mk_is_Some _ _ Hd')). lia.
    + intros j j' d1 d2 Hj Hj' H1 H2 Hdd.
      destruct (decide (next_id db = j)) as [<-|Hne];
        destruct (decide (next_id db = j')) as [<-|Hne']; [done|..].
      * rewrite lookup_insert_eq in H1. inversion H1; subst d1.
        rewrite lookup_insert_ne in H2 by done.
        destruct (inv_new _ _ _ _ _ _ HI j' d2 Hj' H2) as (_ & k' & ? & Hd2 & _).
        simpl in Hdd. rewrite Hd2 in Hdd. unfold MS_PER_DAY in Hdd. lia.
      * rewrite lookup_insert_eq in H2. inversion H2; subst d2.
        rewrite lookup_insert_ne in H1 by done.
        destruct (inv_new _ _ _ _ _ _ HI j d1 Hj H1) as (_ & k' & ? & Hd1 & _).
        simpl in Hdd. rewrite Hd1 in Hdd. unfold MS_PER_DAY in Hdd. lia.
      * rewrite lookup_insert_ne in H1 by done.
        rewrite lookup_insert_ne in H2 by done.
        by apply (inv_new_unique _ _ _ _ _ _ HI j j' d1 d2).
Qed.

Lemma Inv_loop (m : nat) k db :
  Inv id s2 db0 dbd k db → 0 ≤ k → k + Z.of_nat m ≤ Z.max 0 n →
  ∃ db',
    forEachIndexed k ((λ k', s2 + k' * MS_PER_DAY) <$> seqZ k (Z.of_nat m))
      (TripRoute.createOrUpdate id byDate) db = (db', Some tt) ∧
    Inv id s2 db0 dbd (k + Z.of_nat m) db'.
Proof.
  revert k db. induction m as [|m IH]; intros k db HI Hk Hm.
  - exists db. split; [done|]. by replace (k + Z.of_nat 0) with k by lia.
  - rewrite seqZ_cons by lia. cbn [fmap list_fmap forEachIndexed].
    destruct (Inv_step k db HI) as (db1 & Hrun1 & HI1); [lia|].
    unfold bind at 1. rewrite Hrun1.
    replace (Z.pred (Z.of_nat (S m))) with (Z.of_nat m) by lia.
    destruct (IH (k + 1) db1 HI1) as (db' & Hrun & HI'); [lia | lia|].
    exists db'. split; [done|].
    by replace (k + Z.of_nat (S m)) with (k + 1 + Z.of_nat m) by lia.
Qed.

(** What the invariant gives once all the new dates are handled. *)
Section Post.

Variable db' : Db.
Hypothesis HI : Inv id s2 db0 dbd (Z.max 0 n) db'.

Lemma post_kept j d :
  days db0 !! j = Some d → day_tripId d = id →
  s2 ≤ day_date d ≤ e2 →
  days db' !! j
    = Some (mkDay id (day_date d) ((day_date d - s2) `div` MS_PER_DAY)).
Proof.
  intros Hj Hid Hrange.
  assert ((j, d) ∈ L) as HL by (by apply elem_of_days_of_trip).
  rewrite (inv_old _ _ _ _ _ _ HI) by (apply (L_bound _ HL)).
  pose proof (L_in_dbd _ HL Hrange) as Hd. simpl in Hd.
  rewrite Hd. simpl. f_equal. unfold reindex.
  rewrite decide_True; [done|]. split; [done|].
  pose proof (days_between s2 (day_date d) e2 Hrange) as Hb.
  pose proof (calendarDate_offset s2 (day_date d) Hs2 (Haligned _ HL)) as Ho.
  simpl in Ho. pose proof MS_PER_DAY_pos. fold n in Hb. nia.
Qed.

Lemma post_deleted j d :
  days db0 !! j = Some d → day_tripId d = id →
  ¬ (s2 ≤ day_date d ≤ e2) →
  days db' !! j = None.
Proof.
  intros Hj Hid Hrange.
  assert ((j, d) ∈ L) as HL by (by apply elem_of_days_of_trip).
  rewrite (inv_old _ _ _ _ _ _ HI) by (apply (L_bound _ HL)).
  destruct (days dbd !! j) as [d'|] eqn:Hd'; [|done].
  apply Hdel_days in Hd' as [Hd' Hn]. rewrite Hj in Hd'.
  inversion Hd'; subst d'. exfalso. apply Hn. split; [done|].
  unfold TripRoute.outsideRange. simpl.
  apply orb_true_iff.
  destruct (decide (day_date d < s2)); [left | right];
    apply bool_decide_eq_true; lia.
Qed.

Lemma post_other j d :
  days db0 !! j = Some d → day_tripId d ≠ id → days db' !! j = Some d.
Proof.
  intros Hj Hid.
  rewrite (inv_old _ _ _ _ _ _ HI)
    by (apply (wf_days db0 Hwf j); rewrite Hj; by eexists).
  assert (days dbd !! j = Some d) as ->.
  { apply Hdel_days. split; [done|]. intros [HL _].
    by apply elem_of_days_of_trip in HL as [_ ?]. }
  simpl. by rewrite reindex_other.
Qed.

Lemma post_trip_day j d :
  days db' !! j = Some d → day_tripId d = id →
  isCalendarDate (day_date d) ∧
  ∃ k, 0 ≤ k < n ∧ day_date d = s2 + k * MS_PER_DAY ∧ day_index d = k.
Proof.
  intros Hj Hid. destruct (decide (j < next_id db0)%nat) as [Hlt|Hge].
  - rewrite (inv_old _ _ _ _ _ _ HI) in Hj by done.
    destruct (days dbd !! j) as [d0|] eqn:Hd0; [|done].
    simpl in Hj. inversion Hj; subst d. clear Hj.
    assert (day_tripId d0 = id) as Hid0.
    { revert Hid. unfold reindex. case_decide as Hc; [by destruct Hc|done]. }
    destruct (dbd_in_L j d0 Hd0 Hid0) as [HL Hrange].
    pose proof (days_between s2 (day_date d0) e2 Hrange) as Hb.
    pose proof (calendarDate_offset s2 (day_date d0) Hs2 (Haligned _ HL))
      as Ho. simpl in Ho. fold n in Hb.
    unfold reindex. rewrite decide_True.
    + simpl. split; [apply (Haligned _ HL)|].
      exists ((day_date d0 - s2) `div` MS_PER_DAY). done.
    + split; [done|]. pose proof MS_PER_DAY_pos. nia.
  - destruct (inv_new _ _ _ _ _ _ HI j d) as (_ & k & Hk & Hd & Hi & _);
      [lia | done |].
    split; [rewrite Hd; by apply calendarDate_add_days|].
    exists k. split; [lia | done].
Qed.

Lemma post_cover k :
  0 ≤ k < n →
  ∃ j d, days db' !! j = Some d ∧ day_tripId d = id ∧
         day_date d = s2 + k * MS_PER_DAY.
Proof. intros Hk. apply (inv_cover _ _ _ _ _ _ HI). lia. Qed.

Lemma post_created j d :
  days db0 !! j = None → days db' !! j = Some d →
  day_tripId d = id ∧
  ∀ j0 d0, days db0 !! j0 = Some d0 → day_tripId d0 = id →
           day_date d0 ≠ day_date d.
Proof.
  intros Hj0 Hj. destruct (decide (j < next_id db0)%nat) as [Hlt|Hge].
  - rewrite (inv_old _ _ _ _ _ _ HI) in Hj by done.
    destruct (days dbd !! j) as [d0|] eqn:Hd0; [|done].
    apply Hdel_days in Hd0 as [Hd0 _]. congruence.
  - destruct (inv_new _ _ _ _ _ _ HI j d) as (Hid & k & _ & _ & _ & Hfresh);
      [lia | done |].
    split; [done|]. intros j0 d0 Hd0 Hid0.
    apply (Hfresh (j0, d0)). by apply elem_of_days_of_trip.
Qed.

Lemma post_unique j j' d d' :
  days db' !! j = Some d → days db' !! j' = Some d' →
  day_tripId d = id → day_tripId d' = id →
  day_date d = day_date d' → j = j'.
Proof.
  assert (∀ j d, (j < next_id db0)%nat → days db' !! j = Some d →
            day_tripId d = id →
            ∃ d0, (j, d0) ∈ L ∧ day_date d0 = day_date d) as Hold.
  { clear j j' d d'. intros j d Hlt Hj Hid.
    rewrite (inv_old _ _ _ _ _ _ HI) in Hj by done.
    destruct (days dbd !! j) as [d0|] eqn:Hd0; [|done].
    simpl in Hj. inversion Hj; subst d. clear Hj.
    assert (day_tripId d0 = id) as Hid0.
    { revert Hid. unfold reindex. case_decide as Hc; [by destruct Hc|done]. }
    destruct (dbd_in_L j d0 Hd0 Hid0) as [HL _].
    exists d0. split; [done|]. unfold reindex. by case_decide. }
  intros Hj Hj' Hid Hid' Hdd.
  destruct (decide (j < next_id db0)%nat) as [Hlt|Hge];
    destruct (decide (j' < next_id db0)%nat) as [Hlt'|Hge'].
  - destruct (Hold j d Hlt Hj Hid) as (d0 & HL & Hd0).
    destruct (Hold j' d' Hlt' Hj' Hid') as (d0' & HL' & Hd0').
    apply (Hunique _ _ HL HL'). simpl. congruence.
  - destruct (Hold j d Hlt Hj Hid) as (d0 & HL & Hd0).
    destruct (inv_new _ _ _ _ _ _ HI j' d') as (_ & k & _ & _ & _ & Hfresh);
      [lia | done |].
    exfalso. apply (Hfresh _ HL). simpl. congruence.
  - destruct (Hold j' d' Hlt' Hj' Hid') as (d0 & HL & Hd0).
    destruct (inv_new _ _ _ _ _ _ HI j d) as (_ & k & _ & _ & _ & Hfresh);
      [lia | done |].
    exfalso. apply (Hfresh _ HL). simpl. congruence.
  - apply (inv_new_unique _ _ _ _ _ _ HI j j' d d'); [lia | lia | done..].
Qed.

End Post.

End Regenerate.


Lemma seqZ_of_to_nat m n : seqZ m (Z.of_nat (Z.to_nat n)) = seqZ m n.
Proof. unfold seqZ. by rewrite Nat2Z.id. Qed.

Lemma trip_update_run id f db t :
  trips db !! id = Some t →
  trip_update id f db =
    ({| trips := <[id := f t]> (trips db); days := days db;
        activities := activities db; next_id := next_id db |}, Some (f t)).
Proof. intros H. unfold trip_update. by rewrite H. Qed.

Lemma wf_trip_update id t db :
  wf db → is_Some (trips db !! id) →
  wf {| trips := <[id := t]> (trips db); days := days db;
        activities := activities db; next_id := next_id db |}.
Proof.
  intros Hwf Hid. split; cbn [trips days activities next_id].
  - intros i Hi. destruct (decide (id = i)) as [<-|Hne].
    + by apply (wf_trips db Hwf).
    + rewrite lookup_insert_ne in Hi by done. by apply (wf_trips db Hwf).
  - apply (wf_days db Hwf).
  - apply (wf_activities db Hwf).
  - intros i d Hd. destruct (decide (id = day_tripId d)) as [<-|Hne].
    + rewrite lookup_insert_eq. by eexists.
    + rewrite lookup_insert_ne by done. by apply (wf_day_trip db Hwf i).
  - apply (wf_activity_day db Hwf).
Qed.

Lemma regenerateDays_run id s2 e2 db0 :
  wf db0 → is_Some (trips db0 !! id) → isCalendarDate s2 →
  oneDayPerDate id db0 →
  ∃ dbd db',
    TripRoute.regenerateDays id (days_of_trip id db0) s2 e2 db0
      = (db', Some tt) ∧
    (∀ j d, days dbd !! j = Some d ↔
       days db0 !! j = Some d ∧
       ¬ ((j, d) ∈ days_of_trip id db0 ∧
          TripRoute.outsideRange s2 e2 (j, d) = true)) ∧
    (∀ j a, activities dbd !! j = Some a ↔
       activities db0 !! j = Some a ∧
       ¬ (∃ d, (act_dayId a, d) ∈ days_of_trip id db0 ∧
               TripRoute.outsideRange s2 e2 (act_dayId a, d) = true)) ∧
    Inv id s2 db0 dbd (Z.max 0 ((e2 - s2) `div` MS_PER_DAY + 1)) db'.
Proof.
  intros Hwf Htrip Hs2 [Hal Hun]. unfold TripRoute.regenerateDays.
  rewrite datesLoop_spec by (unfold TripsRoute.loopFuel; lia).
  destruct (delete_phase s2 e2 (days_of_trip id db0) db0)
    as (dbd & Hrun & Htrips & Hnext & Hdays & Hacts).
  { apply NoDup_rows_where. }
  { intros i d Hin. by apply elem_of_days_of_trip in Hin as [? _]. }
  assert (∀ r, r ∈ days_of_trip id db0 → isCalendarDate (day_date r.2)) as Hal'.
  { intros [i d] [? ?]%elem_of_days_of_trip. by apply (Hal i). }
  assert (∀ r r', r ∈ days_of_trip id db0 → r' ∈ days_of_trip id db0 →
            day_date r.2 = day_date r'.2 → r.1 = r'.1) as Hun'.
  { intros [i d] [j d'] [? ?]%elem_of_days_of_trip [? ?]%elem_of_days_of_trip.
    simpl. by apply Hun. }
  pose proof (Inv_start id s2 e2 db0 dbd Hwf Hdays Htrips Hnext) as HI0.
  destruct (Inv_loop id s2 e2 db0 dbd Hwf Htrip Hs2 Hal' Hun' Hdays
              (Z.to_nat ((e2 - s2) `div` MS_PER_DAY + 1)) 0 dbd HI0)
    as (db' & Hloop & HI); [lia | lia |].
  rewrite seqZ_of_to_nat in Hloop.
  exists dbd, db'. unfold bind. rewrite Hrun, Hloop.
  split; [done|]. split; [done|]. split; [done|].
  by replace (Z.max 0 ((e2 - s2) `div` MS_PER_DAY + 1))
    with (0 + Z.of_nat (Z.to_nat ((e2 - s2) `div` MS_PER_DAY + 1))) by lia.
Qed.

(** *** A store that is already reconciled is left as it is *)

Lemma forEach_unchanged {A} (l : list A) (f : A → Prisma unit) db :
  (∀ x, x ∈ l → f x db = (db, Some tt)) → forEach l f db = (db, Some tt).
Proof.
  induction l as [|x l IH]; intros H; [done|].
  cbn [forEach]. unfold bind. rewrite H by left.
  apply IH. intros y Hy. apply H. by right.
Qed.

Lemma forEachIndexed_unchanged {A} (l : list A) (f : Z → A → Prisma unit)
    i db :
  (∀ k x, l !! k = Some x → f (i + Z.of_nat k) x db = (db, Some tt)) →
  forEachIndexed i l f db = (db, Some tt).
Proof.
  revert i. induction l as [|x l IH]; intros i H; [done|].
  cbn [forEachIndexed]. unfold bind.
  pose proof (H 0%nat x eq_refl) as H0.
  replace (i + Z.of_nat 0) with i in H0 by lia. rewrite H0.
  apply IH. intros k y Hk.
  replace (i + 1 + Z.of_nat k) with (i + Z.of_nat (S k)) by lia. by apply H.
Qed.

Lemma day_update_index_same i k db d :
  days db !! i = Some d → day_index d = k →
  day_update_index i k db = (db, Some tt).
Proof.
  intros Hd Hk. unfold day_update_index. rewrite Hd. f_equal.
  destruct db as [ts ds acts nx], d as [t dt ix]. simpl in *. subst ix.
  by rewrite insert_id.
Qed.

Lemma regenerateDays_reconciled id s2 e2 db :
  isCalendarDate s2 → reconciled id s2 e2 db →
  TripRoute.regenerateDays id (days_of_trip id db) s2 e2 db = (db, Some tt).
Proof.
  intros Hs2 [Hdays Hcover]. unfold TripRoute.regenerateDays.
  rewrite datesLoop_spec by (unfold TripsRoute.loopFuel; lia).
  unfold bind. rewrite forEach_unchanged.
  - apply forEachIndexed_unchanged. intros k x Hx.
    apply list_lookup_fmap_Some in Hx as (k' & -> & Hk').
    apply lookup_seqZ in Hk' as [-> Hk]. rewrite !Z.add_0_l.
    unfold TripRoute.createOrUpdate.
    destruct (Hcover (Z.of_nat k)) as (j & d & Hd & Hid & Hdate); [lia|].
    destruct (TripRoute.existingDaysByDate (days_of_trip id db)
                !! isoDate (s2 + Z.of_nat k * MS_PER_DAY))
      as [[i d']|] eqn:Hby.
    + apply existingDaysByDate_Some in Hby as [Hin Hiso].
      apply elem_of_days_of_trip in Hin as [Hd' Hid']. simpl in *.
      destruct (Hdays i d' Hd' Hid') as (Hcal & k' & Hk' & Hdate' & Hindex).
      apply (day_update_index_same i _ db d' Hd').
      assert (day_date d' = s2 + Z.of_nat k * MS_PER_DAY) as Heq.
      { apply calendarDate_same_day;
          [done | by apply calendarDate_add_days | done]. }
      rewrite Hdate' in Heq. pose proof MS_PER_DAY_pos. nia.
    + exfalso. apply (existingDaysByDate_None _ _ Hby (j, d)).
      * by apply elem_of_days_of_trip.
      * simpl. by rewrite Hdate.
  - intros [j d] [Hd Hid]%elem_of_days_of_trip.
    unfold TripRoute.deleteOutside.
    destruct (Hdays j d Hd Hid) as (_ & k & Hk & Hdate & _).
    pose proof (offset_in_range s2 e2 k Hk) as Hrange.
    unfold TripRoute.outsideRange. simpl.
    rewrite !bool_decide_eq_false_2 by lia. done.
Qed.

Lemma regenerateDays_post id s2 e2 db0 :
  wf db0 → is_Some (trips db0 !! id) → isCalendarDate s2 →
  oneDayPerDate id db0 →
  ∃ db',
    TripRoute.regenerateDays id (days_of_trip id db0) s2 e2 db0
      = (db', Some tt) ∧
    trips db' = trips db0 ∧
    (∀ j d, days db0 !! j = Some d → day_tripId d = id →
       s2 ≤ day_date d ≤ e2 →
       days db' !! j
         = Some (mkDay id (day_date d)
                   ((day_date d - s2) `div` MS_PER_DAY)) ∧
       sameActivities j db0 db') ∧
    (∀ j d, days db0 !! j = Some d → day_tripId d = id →
       ¬ (s2 ≤ day_date d ≤ e2) →
       days db' !! j = None ∧ noActivities j db') ∧
    (∀ j d, days db0 !! j = Some d → day_tripId d ≠ id →
       days db' !! j = Some d ∧ sameActivities j db0 db') ∧
    (∀ j d, days db0 !! j = None → days db' !! j = Some d →
       day_tripId d = id ∧
       ∀ j0 d0, days db0 !! j0 = Some d0 → day_tripId d0 = id →
                day_date d0 ≠ day_date d) ∧
    reconciled id s2 e2 db' ∧
    oneDayPerDate id db'.
Proof.
  intros Hwf Htrip Hs2 Hone.
  destruct (regenerateDays_run id s2 e2 db0 Hwf Htrip Hs2 Hone)
    as (dbd & db' & Hrun & Hdays & Hacts & HI).
  destruct Hone as [Hal Hun].
  assert (∀ r, r ∈ days_of_trip id db0 → isCalendarDate (day_date r.2)) as Hal'.
  { intros [i d] [? ?]%elem_of_days_of_trip. by apply (Hal i). }
  assert (∀ r r', r ∈ days_of_trip id db0 → r' ∈ days_of_trip id db0 →
            day_date r.2 = day_date r'.2 → r.1 = r'.1) as Hun'.
  { intros [i d] [j d'] [? ?]%elem_of_days_of_trip [? ?]%elem_of_days_of_trip.
    simpl. by apply Hun. }
  assert (∀ j d, days db0 !! j = Some d →
            ¬ ((j, d) ∈ days_of_trip id db0 ∧
               TripRoute.outsideRange s2 e2 (j, d) = true) →
            sameActivities j db0 db') as Hsame.
  { intros j d Hd Hn i a Hj. rewrite (inv_activities _ _ _ _ _ _ HI), Hacts.
    split; [tauto|]. intros Ha. split; [done|]. intros (d' & Hin & Hout).
    rewrite Hj in Hin, Hout.
    assert (d' = d) as ->; [|by apply Hn].
    apply elem_of_days_of_trip in Hin as [Hd' _]. congruence. }
  exists db'. split; [done|]. split; [apply (inv_trips _ _ _ _ _ _ HI)|].
  split; [|split; [|split; [|split; [|split; [|split]]]]].
  - intros j d Hd Hid Hrange. split.
    + by apply (post_kept id s2 e2 db0 dbd Hwf Hs2 Hal' Hdays db' HI).
    + apply (Hsame j d Hd). intros [_ Hout].
      unfold TripRoute.outsideRange in Hout. simpl in Hout.
      apply orb_true_iff in Hout as [H|H]; apply bool_decide_eq_true in H; lia.
  - intros j d Hd Hid Hrange. split.
    + by apply (post_deleted id s2 e2 db0 dbd Hwf Hdays db' HI j d).
    + intros i a Ha Hj. rewrite (inv_activities _ _ _ _ _ _ HI) in Ha.
      apply Hacts in Ha as [_ Hn]. apply Hn. exists d. rewrite Hj.
      split; [by apply elem_of_days_of_trip|].
      unfold TripRoute.outsideRange. simpl. apply orb_true_iff.
      destruct (decide (day_date d < s2)); [left | right];
        apply bool_decide_eq_true; lia.
  - intros j d Hd Hid. split.
    + by apply (post_other id s2 e2 db0 dbd Hwf Hdays db' HI).
    + apply (Hsame j d Hd). intros [Hin _].
      by apply elem_of_days_of_trip in Hin as [_ ?].
  - apply (post_created id s2 e2 db0 dbd Hdays db' HI).
  - split.
    + intros j d Hd Hid.
      by apply (post_trip_day id s2 e2 db0 dbd Hs2 Hal' Hdays db' HI j).
    + apply (post_cover id s2 e2 db0 dbd db' HI).
  - intros i d Hd Hid.
    by destruct (post_trip_day id s2 e2 db0 dbd Hs2 Hal' Hdays db' HI i d).
  - apply (post_unique id s2 e2 db0 dbd Hun' Hdays db' HI).
Qed.

Lemma reconciled_days id s2 e2 db :
  reconciled id s2 e2 db → oneDayPerDate id db →
  (λ r : ident * Day, (day_date r.2, day_index r.2)) <$> days_of_trip id db
  ≡ₚ (λ k, (s2 + k * MS_PER_DAY, k))
       <$> seqZ 0 ((e2 - s2) `div` MS_PER_DAY + 1).
Proof.
  intros [Hdays Hcover] [_ Hun]. apply NoDup_Permutation.
  - apply NoDup_fmap_2_strong.
    + intros [i d] [j d'] [Hd Hid]%elem_of_days_of_trip
        [Hd' Hid']%elem_of_days_of_trip Heq. simpl in Heq.
      inversion Heq as [[Hdate Hindex]].
      assert (i = j) as -> by (by apply (Hun i j d d')).
      congruence.
    + eapply NoDup_fmap_1. apply NoDup_rows_where.
  - apply NoDup_fmap_2_strong; [|apply NoDup_seqZ].
    intros x y _ _ Heq. by inversion Heq.
  - intros [date index]. rewrite !list_elem_of_fmap. split.
    + intros ([j d] & Heq & [Hd Hid]%elem_of_days_of_trip).
      simpl in Heq. injection Heq as Hdt Hix.
      destruct (Hdays j d Hd Hid) as (_ & k & Hk & Hdate & Hindex).
      exists k. split; [congruence|]. apply elem_of_seqZ. lia.
    + intros (k & Heq & Hk%elem_of_seqZ). injection Heq as -> ->.
      destruct (Hcover k) as (j & d & Hd & Hid & Hdate); [lia|].
      exists (j, d). split; [|by apply elem_of_days_of_trip].
      simpl. destruct (Hdays j d Hd Hid) as (_ & k' & Hk' & Hdate' & Hindex).
      f_equal; [done|]. rewrite Hindex. rewrite Hdate in Hdate'.
      pose proof MS_PER_DAY_pos. nia.
Qed.


Lemma or_string_idem x d : or_string x (or_string x d) = or_string x d.
Proof. unfold or_string. destruct x as [s|]; [|done]. by destruct (truthy_string s). Qed.

Lemma updateData_idem body s e t :
  TripRoute.updateData body s e (TripRoute.updateData body s e t)
  = TripRoute.updateData body s e t.
Proof.
  unfold TripRoute.updateData. simpl. f_equal.
  - apply or_string_idem.
  - by destruct (truthy_opt_string _).
  - by destruct (truthy_number _).
  - by destruct (TripRoute.coverImage body).
Qed.

Lemma datesChanged_after body s e t :
  s = default (trip_startDate t) (TripRoute.startDate body) →
  e = default (trip_endDate t) (TripRoute.endDate body) →
  TripRoute.datesChanged body (TripRoute.updateData body s e t) = false.
Proof.
  intros -> ->. unfold TripRoute.datesChanged. simpl.
  apply orb_false_iff. split; apply andb_false_iff; right;
    apply negb_false_iff, bool_decide_eq_true.
  - by destruct (TripRoute.startDate body).
  - by destruct (TripRoute.endDate body).
Qed.

Lemma PATCH_same_dates id body db t :
  trips db !! id = Some t →
  TripRoute.datesChanged body t = false →
  TripRoute.updateData body
    (default (trip_startDate t) (TripRoute.startDate body))
    (default (trip_endDate t) (TripRoute.endDate body)) t = t →
  TripRoute.PATCH id body db = (db, Ok t).
Proof.
  intros Ht Hsame Hupd. unfold TripRoute.PATCH. rewrite Ht. cbv zeta.
  unfold bind. rewrite (trip_update_run _ _ _ _ Ht), Hsame, Hupd.
  unfold ret. f_equal.
  destruct db as [ts ds acts nx]. simpl in *. f_equal. by apply insert_id.
Qed.

(** When the new start date is a calendar date and the trip has one day per
    date, each a calendar date, an update of the range keeps the days of
    the dates that stay, with their activities, deletes the others,
    creates the days of the dates that were missing, numbers all of them in
    date order, and a second run changes nothing. *)
Theorem PATCH_reconciles_calendar_dates db id body currentTrip :
  let s2 := default (trip_startDate currentTrip) (TripRoute.startDate body) in
  let e2 := default (trip_endDate currentTrip) (TripRoute.endDate body) in
  wf db →
  trips db !! id = Some currentTrip →
  oneDayPerDate id db →
  isCalendarDate s2 →
  TripRoute.datesChanged body currentTrip = true →
  ∃ db' updatedTrip,
    TripRoute.PATCH id body db = (db', Ok updatedTrip) ∧
    trips db' !! id = Some updatedTrip ∧
    trip_startDate updatedTrip = s2 ∧ trip_endDate updatedTrip = e2 ∧
    (∀ j d, days db !! j = Some d → day_tripId d = id →
       s2 ≤ day_date d ≤ e2 →
       days db' !! j
         = Some (mkDay id (day_date d)
                   ((day_date d - s2) `div` MS_PER_DAY)) ∧
       sameActivities j db db') ∧
    (∀ j d, days db !! j = Some d → day_tripId d = id →
       ¬ (s2 ≤ day_date d ≤ e2) →
       days db' !! j = None ∧ noActivities j db') ∧
    (∀ j d, days db !! j = Some d → day_tripId d ≠ id →
       days db' !! j = Some d ∧ sameActivities j db db') ∧
    (∀ j d, days db !! j = None → days db' !! j = Some d →
       day_tripId d = id ∧
       ∀ j0 d0, days db !! j0 = Some d0 → day_tripId d0 = id →
                day_date d0 ≠ day_date d) ∧
    (λ r : ident * Day, (day_date r.2, day_index r.2))
      <$> days_of_trip id db'
    ≡ₚ (λ k, (s2 + k * MS_PER_DAY, k))
         <$> seqZ 0 ((e2 - s2) `div` MS_PER_DAY + 1) ∧
    TripRoute.regenerateDays id (days_of_trip id db') s2 e2 db'
      = (db', Some tt) ∧
    TripRoute.PATCH id body db' = (db', Ok updatedTrip).
Proof.
  intros s2 e2 Hwf Htrip Hone Hs2 Hchanged.
  set (db1 := {| trips := <[id := TripRoute.updateData body s2 e2 currentTrip]>
                            (trips db);
                 days := days db; activities := activities db;
                 next_id := next_id db |}).
  destruct (regenerateDays_post id s2 e2 db1) as
    (db' & Hrun & Htrips & Hkept & Hdel & Hother & Hnew & Hrec & Hone');
    [by apply wf_trip_update | by (simpl; rewrite lookup_insert_eq)
    | done | done |].
  assert (trips db' !! id = Some (TripRoute.updateData body s2 e2 currentTrip))
    as Hstored.
  { rewrite Htrips. simpl. apply lookup_insert_eq. }
  exists db', (TripRoute.updateData body s2 e2 currentTrip).
  assert (TripRoute.regenerateDays id (days_of_trip id db') s2 e2 db'
          = (db', Some tt)) as Hagain by (by apply regenerateDays_reconciled).
  split; [|split; [done|split; [done|split; [done|
    split; [done|split; [done|split; [done|split; [done|
    split; [by apply reconciled_days|split; [done|]]]]]]]]]].
  - unfold TripRoute.PATCH. rewrite Htrip. fold s2 e2. unfold bind.
    rewrite (trip_update_run _ _ _ _ Htrip). rewrite Hchanged.
    change (days_of_trip id db) with (days_of_trip id db1).
    fold db1. rewrite Hrun. done.
  - assert (default s2 (TripRoute.startDate body) = s2) as Hs.
    { subst s2. by destruct (TripRoute.startDate body). }
    assert (default e2 (TripRoute.endDate body) = e2) as He.
    { subst e2. by destruct (TripRoute.endDate body). }
    apply PATCH_same_dates; [done | by apply datesChanged_after |].
    cbn [TripRoute.updateData trip_startDate trip_endDate].
    rewrite Hs, He. apply updateData_idem.
Qed.


Lemma datesLoop_inverted fuel s e : e < s → TripRoute.datesLoop fuel s e = Some [].
Proof. intros. destruct fuel; simpl; by rewrite bool_decide_eq_false_2 by lia. Qed.

Lemma outsideRange_inverted s e day :
  e < s → TripRoute.outsideRange s e day = true.
Proof.
  intros. unfold TripRoute.outsideRange. apply orb_true_iff.
  destruct (decide (day_date day.2 < s)); [left | right];
    apply bool_decide_eq_true; lia.
Qed.

(** C6.  For every update of the range of a trip in which the new start
    date is after the new end date, the reconciliation enumerates no date
    and deletes all the days the trip had, with their activities; the
    update is accepted: the answer is the updated trip, stored with the
    inverted range, and no error. *)
Theorem PATCH_inverted_range db id body currentTrip :
  let s2 := default (trip_startDate currentTrip) (TripRoute.startDate body) in
  let e2 := default (trip_endDate currentTrip) (TripRoute.endDate body) in
  trips db !! id = Some currentTrip →
  TripRoute.datesChanged body currentTrip = true →
  e2 < s2 →
  (∀ fuel, TripRoute.datesLoop fuel s2 e2 = Some []) ∧
  ∃ db' updatedTrip,
    TripRoute.PATCH id body db = (db', Ok updatedTrip) ∧
    trips db' !! id = Some updatedTrip ∧
    trip_startDate updatedTrip = s2 ∧ trip_endDate updatedTrip = e2 ∧
    days_of_trip id db' = [] ∧
    (∀ j d, days db !! j = Some d → day_tripId d = id →
       days db' !! j = None ∧ noActivities j db') ∧
    (∀ j d, days db !! j = Some d → day_tripId d ≠ id →
       days db' !! j = Some d ∧ sameActivities j db db').
Proof.
  intros s2 e2 Htrip Hchanged Hlt.
  split; [intros; by apply datesLoop_inverted|].
  set (db1 := {| trips := <[id := TripRoute.updateData body s2 e2 currentTrip]>
                            (trips db);
                 days := days db; activities := activities db;
                 next_id := next_id db |}).
  destruct (delete_phase s2 e2 (days_of_trip id db1) db1)
    as (db' & Hrun & Htrips & Hnext & Hdays & Hacts).
  { apply NoDup_rows_where. }
  { intros i d Hin. by apply elem_of_days_of_trip in Hin as [? _]. }
  exists db', (TripRoute.updateData body s2 e2 currentTrip).
  split; [|split; [|split; [done|split; [done|split; [|split]]]]].
  - unfold TripRoute.PATCH. rewrite Htrip. fold s2 e2. unfold bind.
    rewrite (trip_update_run _ _ _ _ Htrip), Hchanged.
    unfold TripRoute.regenerateDays. rewrite datesLoop_inverted by done.
    unfold bind. change (days_of_trip id db) with (days_of_trip id db1).
    fold db1. rewrite Hrun. done.
  - rewrite Htrips. simpl. apply lookup_insert_eq.
  - apply rows_where_nil. intros i d Hd. apply bool_decide_eq_false.
    intros Hid. apply Hdays in Hd as [Hd Hn]. apply Hn.
    split; [apply elem_of_days_of_trip; by split
           | by apply outsideRange_inverted].
  - intros j d Hd Hid. split.
    + apply eq_None_not_Some. intros [d' Hd']. apply Hdays in Hd' as [Hd' Hn].
      assert (d' = d) as -> by (simpl in Hd'; congruence).
      apply Hn. split; [apply elem_of_days_of_trip; by split
                       | by apply outsideRange_inverted].
    + intros i a Ha Hj. apply Hacts in Ha as [_ Hn]. apply Hn. exists d.
      rewrite Hj. split; [apply elem_of_days_of_trip; by split
                         | by apply outsideRange_inverted].
  - intros j d Hd Hid. split.
    + apply Hdays. split; [done|]. intros [Hin _].
      by apply elem_of_days_of_trip in Hin as [_ ?].
    + intros i a Hj. rewrite Hacts. split; [tauto|]. intros Ha.
      split; [done|]. intros (d' & Hin & _). rewrite Hj in Hin.
      apply elem_of_days_of_trip in Hin as [Hd' Hid']. simpl in Hd'. congruence.
Qed.

(** The rows of a table that is given in full. *)
Ltac rows H :=
  apply elem_of_map_to_list in H; vm_compute in H;
  repeat (apply elem_of_cons in H as [H|H]; [injection H as -> ->|]);
  [..|by apply elem_of_nil in H].

Lemma lisbonWithMuseum_wf : wf lisbonWithMuseum.
Proof. apply wfb_wf. reflexivity. Qed.

Lemma lisbonWithMuseum_days : oneDayPerDate 0 lisbonWithMuseum.
Proof.
  split.
  - intros i d Hd _. rows Hd; reflexivity.
  - intros i j d d' Hd Hd' _ _ Hdate.
    rows Hd; rows Hd'; (reflexivity || discriminate Hdate).
Qed.

Lemma PATCH_inverted_range_witness :
  trips lisbonWithMuseum !! 0%nat = Some lisbonTrip ∧
  TripRoute.datesChanged (editBody (march 9) (march 5)) lisbonTrip = true ∧
  march 5 < march 9 ∧
  ∃ db' updatedTrip,
    TripRoute.PATCH 0 (editBody (march 9) (march 5)) lisbonWithMuseum
      = (db', Ok updatedTrip) ∧
    trip_startDate updatedTrip = march 9 ∧
    trip_endDate updatedTrip = march 5 ∧
    days_of_trip 0 db' = [].
Proof.
  split; [reflexivity|]. split; [reflexivity|]. split; [reflexivity|].
  destruct (PATCH_inverted_range lisbonWithMuseum 0
              (editBody (march 9) (march 5)) lisbonTrip)
    as (_ & db' & updatedTrip & Hrun & _ & Hs & He & Hdays & _);
    [reflexivity | reflexivity | reflexivity |].
  exists db', updatedTrip. split; [exact Hrun|].
  split; [exact Hs|]. split; [exact He | exact Hdays].
Defined.

(** The range of [lisbonWithMuseum] moved one day later: the day of the 5th
    is deleted, those of the 6th and of the 7th are kept and numbered 0
    and 1, the museum stays on the 6th. *)
Example PATCH_reconciles_shifted_range :
  ∃ db' updatedTrip,
    TripRoute.PATCH 0 (editBody (march 6) (march 8)) lisbonWithMuseum
      = (db', Ok updatedTrip) ∧
    days db' !! 1%nat = None ∧
    days db' !! 2%nat = Some (mkDay 0 (march 6) 0) ∧
    sameActivities 2 lisbonWithMuseum db' ∧
    days db' !! 3%nat = Some (mkDay 0 (march 7) 1).
Proof.
  destruct (PATCH_reconciles_calendar_dates lisbonWithMuseum 0
              (editBody (march 6) (march 8)) lisbonTrip
              lisbonWithMuseum_wf eq_refl lisbonWithMuseum_days
              eq_refl eq_refl)
    as (db' & updatedTrip & Hrun & _ & _ & _ & Hkept & Hdel & _).
  exists db', updatedTrip. split; [exact Hrun|].
  split; [|split; [|split]].
  - apply (Hdel 1%nat (mkDay 0 (march 5) 0)); [reflexivity | reflexivity |].
    vm_compute. intros [H _]. by apply H.
  - apply (Hkept 2%nat (mkDay 0 (march 6) 1)); [reflexivity | reflexivity |].
    vm_compute. split; discriminate.
  - apply (Hkept 2%nat (mkDay 0 (march 6) 1)); [reflexivity | reflexivity |].
    vm_compute. split; discriminate.
  - apply (Hkept 3%nat (mkDay 0 (march 7) 2)); [reflexivity | reflexivity |].
    vm_compute. split; discriminate.
Qed.

(** C1.  The update of a range at an input the route can receive: the days
    of [lateTrip] are at 23:00 UTC (a text import from a browser one hour
    east of UTC creates such a trip), and the edit dialog sends the same
    calendar dates, from the 4th to the 6th of March, at midnight UTC.  The
    day of the 6th lies in both ranges by its calendar date, and the claim
    has it kept with its activity; the code deletes it, because its instant
    is after the new end, and then fails on the update of its index: the
    answer is an error, the day and its activity are lost. *)
Theorem PATCH_trip_loses_day_in_range :
  days lateTrip !! 3%nat = Some (mkDay 0 (march 6 + 23 * hour) 2) ∧
  isoDate (march 6 + 23 * hour) = isoDate (march 6) ∧
  act_dayId <$> activities lateTrip !! 4%nat = Some 3%nat ∧
  ∃ db',
    TripRoute.PATCH 0 (editBody (march 4) (march 6)) lateTrip
      = (db', Failure 500 "Failed to update trip") ∧
    days db' !! 3%nat = None ∧
    activities db' !! 4%nat = None.
Proof.
  split; [reflexivity|]. split; [reflexivity|]. split; [reflexivity|].
  eexists. split; [vm_compute; reflexivity|]. split; reflexivity.
Qed.


End Reconciliation.

Section ActivityRequests.
Import JsDate Store.


(** ** Creating and updating an activity *)

Lemma correctedDayId_exists tz dayId0 st db :
  is_Some (days db !! dayId0) →
  is_Some (days db !! ActivitiesRoute.correctedDayId tz dayId0 st db).
Proof.
  intros Hday. unfold ActivitiesRoute.correctedDayId.
  destruct st as [st|]; [|done].
  destruct (days db !! dayId0) as [currentDay|] eqn:Hcur; [|done].
  case_bool_decide; [|by rewrite Hcur].
  destruct (List.find _ _) as [[i d]|] eqn:Hfind; [|by rewrite Hcur].
  apply find_some in Hfind as [Hin _].
  apply list_elem_of_In, elem_of_days_of_trip in Hin as [Hd _].
  simpl. by rewrite Hd.
Qed.

(** C3.  For every activity created with a start time whose calendar date
    (in the zone of the server) differs from that of the day it is created
    under: if the trip of that day has a day with the calendar date of the
    activity, the activity is attached to such a day; if it has none, the
    activity is attached to the day that was specified.  The witness is
    the example of the claim: a start time at 10:00 on the 5th of March
    under the day of the 6th, in a trip that has a day on the 5th, with the
    server in UTC. *)
Theorem POST_activity_assignment tz JSON_stringify db body dayId0 title st
    currentDay :
  ActivitiesRoute.dayId body = Some dayId0 →
  ActivitiesRoute.title body = Some title →
  ActivitiesRoute.startTime body = Some st →
  days db !! dayId0 = Some currentDay →
  setHours0 tz st ≠ setHours0 tz (day_date currentDay) →
  ∃ db' activity,
    ActivitiesRoute.POST tz JSON_stringify body db
      = (db', Ok (next_id db, activity)) ∧
    activities db' !! next_id db = Some activity ∧
    act_title activity = title ∧ act_startTime activity = Some st ∧
    ((∃ i d, days db !! i = Some d ∧
             day_tripId d = day_tripId currentDay ∧
             setHours0 tz (day_date d) = setHours0 tz st) →
     ∃ d, days db !! act_dayId activity = Some d ∧
          day_tripId d = day_tripId currentDay ∧
          setHours0 tz (day_date d) = setHours0 tz st) ∧
    ((∀ i d, days db !! i = Some d →
             day_tripId d = day_tripId currentDay →
             setHours0 tz (day_date d) ≠ setHours0 tz st) →
     act_dayId activity = dayId0).
Proof.
  intros HdayId Htitle Hst Hcur Hdiff.
  unfold ActivitiesRoute.POST. rewrite HdayId, Htitle, Hst.
  pose proof (correctedDayId_exists tz dayId0 (Some st) db
                (mk_is_Some _ _ Hcur)) as [d' Hd'].
  unfold activity_create. cbn [act_dayId]. rewrite Hd'.
  eexists _, _. split; [reflexivity|].
  split; [apply lookup_insert_eq|]. split; [done|]. split; [done|].
  cbn [act_dayId]. clear d' Hd'.
  unfold ActivitiesRoute.correctedDayId. rewrite Hcur.
  rewrite bool_decide_eq_true_2 by done.
  destruct (List.find _ _) as [[i d]|] eqn:Hfind.
  - apply find_some in Hfind as [Hin Hdate].
    apply list_elem_of_In, elem_of_days_of_trip in Hin as [Hd Hid].
    apply bool_decide_eq_true in Hdate. simpl in *. split.
    + intros _. by exists d.
    + intros Hnone. exfalso. by apply (Hnone i d).
  - split; [|done]. intros (i & d & Hd & Hid & Hdate). exfalso.
    pose proof (find_none _ _ Hfind (i, d)) as Hn. simpl in Hn.
    rewrite bool_decide_eq_true_2 in Hn by done.
    assert (true = false); [|done]. apply Hn.
    apply list_elem_of_In. by apply elem_of_days_of_trip.
Qed.

Lemma POST_activity_assignment_witness :
  days lisbon !! 2%nat = Some (mkDay 0 (march 6) 1) ∧
  days lisbon !! 1%nat = Some (mkDay 0 (march 5) 0) ∧
  setHours0 0 (march 5 + 10 * hour) ≠ setHours0 0 (march 6) ∧
  ∃ db' activity,
    ActivitiesRoute.POST 0 stringify
      (activityBody 2 "Museum" (Some (march 5 + 10 * hour))) lisbon
      = (db', Ok (4%nat, activity)) ∧
    act_dayId activity = 1%nat.
Proof.
  split; [reflexivity|]. split; [reflexivity|].
  split; [vm_compute; discriminate|].
  destruct (POST_activity_assignment 0 stringify lisbon
              (activityBody 2 "Museum" (Some (march 5 + 10 * hour)))
              2%nat "Museum" (march 5 + 10 * hour) (mkDay 0 (march 6) 1)
              eq_refl eq_refl eq_refl eq_refl)
    as (db' & activity & Hrun & _); [vm_compute; discriminate|].
  exists db', activity. split; [exact Hrun|].
  vm_compute in Hrun. injection Hrun as _ <-. reflexivity.
Defined.



(** C7.  For every update of an activity that supplies a new start time
    and no day, the assignment rule does not run: the activity keeps its
    day, whatever the calendar date of the new start time; the start time
    is stored, and every property that the update does not supply keeps
    its value (the update changes nothing when the store refuses it). *)
Theorem PATCH_activity_keeps_day JSON_stringify db body id a st :
  wf db →
  ActivitiesRoute.p_id body = Some id →
  activities db !! id = Some a →
  ActivitiesRoute.p_dayId body = Undefined →
  ActivitiesRoute.p_startTime body = Value st →
  ∃ db' response a',
    ActivitiesRoute.PATCH JSON_stringify body db = (db', response) ∧
    trips db' = trips db ∧ days db' = days db ∧
    (∀ i, i ≠ id → activities db' !! i = activities db !! i) ∧
    activities db' !! id = Some a' ∧
    act_dayId a' = act_dayId a ∧
    (response = Failure 500 "Failed to update activity" ∧ a' = a ∨
     response = Ok a' ∧
     act_startTime a' = Some st ∧
     act_endTime a' = act_endTime a ∧
     act_details a' = act_details a ∧
     unlessSupplied (ActivitiesRoute.p_type body) (act_type a) (act_type a') ∧
     unlessSupplied (ActivitiesRoute.p_title body)
       (act_title a) (act_title a') ∧
     unlessSupplied (ActivitiesRoute.p_description body)
       (act_description a) (act_description a') ∧
     unlessSupplied (ActivitiesRoute.p_location body)
       (act_location a) (act_location a') ∧
     unlessSupplied (ActivitiesRoute.p_cost body) (act_cost a) (act_cost a') ∧
     unlessSupplied (ActivitiesRoute.p_currency body)
       (act_currency a) (act_currency a') ∧
     unlessSupplied (ActivitiesRoute.p_images body)
       (act_images a) (act_images a')) ∧
    (ActivitiesRoute.p_title body ≠ Null →
     is_Some (ActivitiesRoute.setImages JSON_stringify
                (ActivitiesRoute.p_images body) (act_images a)) →
     response = Ok a').
Proof.
  intros Hwf Hid Ha HdayId Hst.
  unfold ActivitiesRoute.PATCH, activity_update. rewrite Hid, Ha.
  destruct (wf_activity_day db Hwf id a Ha) as [day Hday].
  unfold ActivitiesRoute.updateData. rewrite HdayId, Hst.
  cbn [ActivitiesRoute.setRequired mbind option_bind].
  destruct (ActivitiesRoute.setRequired (ActivitiesRoute.p_title body)
              (act_title a)) as [title|] eqn:Htitle;
    cbn [mbind option_bind].
  2: { exists db, (Failure 500 "Failed to update activity"), a.
       repeat (split; [done|]). split; [by left|].
       intros Hn. destruct (ActivitiesRoute.p_title body); done. }
  destruct (ActivitiesRoute.setImages JSON_stringify
              (ActivitiesRoute.p_images body) (act_images a))
    as [images|] eqn:Himages; cbn [mbind option_bind].
  2: { exists db, (Failure 500 "Failed to update activity"), a.
       repeat (split; [done|]). split; [by left|].
       intros _ [? ?]. done. }
  cbn [act_dayId]. rewrite Hday.
  eexists _, _, _. split; [reflexivity|]. cbn [trips days activities].
  split; [done|]. split; [done|].
  split; [intros i Hi; by rewrite lookup_insert_ne|].
  split; [apply lookup_insert_eq|]. split; [done|]. split; [|done].
  right. split; [done|]. cbn.
  repeat split; try done; intros Hu; rewrite Hu in *; simpl in *; congruence.
Qed.

Lemma PATCH_activity_keeps_day_witness :
  wf lisbonWithMuseum ∧
  act_dayId <$> activities lisbonWithMuseum !! 4%nat = Some 2%nat ∧
  isoDate (march 5 + 10 * hour) ≠ isoDate (march 6) ∧
  ∃ db' activity,
    ActivitiesRoute.PATCH stringify (retime 4 (march 5 + 10 * hour))
      lisbonWithMuseum = (db', Ok activity) ∧
    activities db' !! 4%nat = Some activity ∧
    act_startTime activity = Some (march 5 + 10 * hour) ∧
    act_dayId activity = 2%nat.
Proof.
  assert (wf lisbonWithMuseum) as Hwf by (apply wfb_wf; reflexivity).
  split; [exact Hwf|]. split; [reflexivity|].
  split; [vm_compute; discriminate|].
  destruct (activities lisbonWithMuseum !! 4%nat) as [a|] eqn:Ha;
    [|vm_compute in Ha; discriminate Ha].
  destruct (PATCH_activity_keeps_day stringify lisbonWithMuseum
              (retime 4 (march 5 + 10 * hour)) 4%nat a (march 5 + 10 * hour)
              Hwf eq_refl Ha eq_refl eq_refl)
    as (db' & response & a' & Hrun & _ & _ & _ & Hstored & Hday & Hcases & Hok).
  assert (response = Ok a') as -> by (apply Hok; [discriminate | by eexists]).
  destruct Hcases as [[Hfail _]|(_ & Hst & _)]; [discriminate Hfail|].
  exists db', a'. split; [exact Hrun|]. split; [exact Hstored|].
  split; [exact Hst|]. rewrite Hday.
  vm_compute in Ha. injection Ha as <-. reflexivity.
Defined.

End ActivityRequests.

Section CurrencyFacts.
Import Currency.


(** ** Converting amounts *)

Lemma getExchangeRates_fallback now fetch base rt :
  fallbackActive now fetch base rt →
  getExchangeRates now fetch base rt = (getFallbackRates base, rt).
Proof.
  intros (Hm & Hs & Hf). unfold getExchangeRates. by rewrite Hm, Hs, Hf.
Qed.







End CurrencyFacts.

Section BudgetFacts.
Import Budget.


(** ** The budget tracker *)









End BudgetFacts.

Section Exports.
Import TripPage.


(** ** The exports *)
















End Exports.

Section ImportOfActivities.
Import Store.


(** ** Importing an exported trip on the trip page *)










(** ** Importing an exported trip on the home page *)









Lemma created_rows_lookup (id : ident) (s n : Z) (k : nat) :
  (k < Z.to_nat n)%nat →
  imap (λ k (d : Z * Z), (S id + k, mkDay id d.1 d.2)%nat)
    ((λ k, (s + k * JsDate.MS_PER_DAY, 0 + k)) <$> seqZ 0 n) !! k
  = Some ((S id + k)%nat,
          mkDay id (s + Z.of_nat k * JsDate.MS_PER_DAY) (Z.of_nat k)).
Proof.
  intros Hk. rewrite list_lookup_imap, list_lookup_fmap.
  rewrite lookup_seqZ_lt by lia. simpl. do 3 f_equal; lia.
Qed.









End ImportOfActivities.

Section ActivityRequestsMore.
Import JsDate Store StoreCalls.

(** ** Requests on activities: errors and removal *)

Lemma activity_delete_run i a db :
  activities db !! i = Some a →
  activity_delete i db
  = ({| trips := trips db; days := days db;
        activities := delete i (activities db);
        next_id := next_id db |}, Some tt).
Proof. intros H. unfold activity_delete. by rewrite H. Qed.

Lemma Db_eq (db db' : Db) :
  trips db' = trips db → days db' = days db →
  activities db' = activities db → next_id db' = next_id db → db' = db.
Proof. destruct db, db'. simpl. by intros -> -> -> ->. Qed.

(** X1.  Removing an activity: without an id the answer is 400; with the
    id of no activity it is 500; in both cases nothing changes.  With the
    id of an activity, that activity and no other row is removed, and a
    second removal of the same id is refused with 500 and changes
    nothing. *)
Theorem DELETE_activity_removes_one db :
  ActivityResource.DELETE None db = (db, Failure 400 "ID required") ∧
  (∀ i, activities db !! i = None →
     ActivityResource.DELETE (Some i) db
     = (db, Failure 500 "Failed to delete activity")) ∧
  (∀ i a, activities db !! i = Some a →
     ∃ db',
       ActivityResource.DELETE (Some i) db = (db', Ok tt) ∧
       trips db' = trips db ∧ days db' = days db ∧
       next_id db' = next_id db ∧
       activities db' !! i = None ∧
       (∀ j, j ≠ i → activities db' !! j = activities db !! j) ∧
       ActivityResource.DELETE (Some i) db'
       = (db', Failure 500 "Failed to delete activity")).
Proof.
  split; [done|]. split.
  - intros i Hi. unfold ActivityResource.DELETE, activity_delete.
    by rewrite Hi.
  - intros i a Ha. unfold ActivityResource.DELETE.
    rewrite (activity_delete_run i a db Ha). eexists. split; [done|].
    cbn [trips days activities next_id].
    split; [done|]. split; [done|]. split; [done|].
    split; [apply lookup_delete_eq|].
    split; [intros j Hj; by apply lookup_delete_ne|].
    unfold activity_delete. cbn [activities]. by rewrite lookup_delete_eq.
Qed.

(** X2.  Creating an activity and removing it again gives back the store
    of before, the counter of identifiers apart. *)
Theorem POST_then_DELETE_activity tz JSON_stringify body db db1 i activity :
  wf db →
  ActivitiesRoute.POST tz JSON_stringify body db = (db1, Ok (i, activity)) →
  ∃ db2,
    ActivityResource.DELETE (Some i) db1 = (db2, Ok tt) ∧
    trips db2 = trips db ∧ days db2 = days db ∧
    activities db2 = activities db ∧
    next_id db2 = S (next_id db).
Proof.
  intros Hwf Hpost. unfold ActivitiesRoute.POST in Hpost.
  destruct (ActivitiesRoute.dayId body) as [dayId0|]; [|done].
  destruct (ActivitiesRoute.title body) as [title|]; [|done].
  unfold activity_create in Hpost. cbn [act_dayId] in Hpost.
  destruct (days db !! _) as [d|]; [|done].
  injection Hpost as <- <- <-.
  unfold ActivityResource.DELETE, activity_delete. cbn [activities].
  rewrite lookup_insert_eq. eexists. split; [done|].
  cbn [trips days activities next_id].
  split; [done|]. split; [done|]. split; [|done].
  rewrite delete_insert_eq. apply delete_id.
  apply eq_None_not_Some. intros Hs.
  pose proof (wf_activities db Hwf _ Hs). lia.
Qed.

Lemma POST_then_DELETE_activity_witness :
  wf lisbon ∧
  ActivitiesRoute.POST 0 stringify
    (activityBody 2 "Museum" (Some (march 6 + 10 * hour))) lisbon
  = (lisbonWithMuseum, Ok (4%nat, museum)) ∧
  ∃ db2,
    ActivityResource.DELETE (Some 4%nat) lisbonWithMuseum = (db2, Ok tt) ∧
    trips db2 = trips lisbon ∧ days db2 = days lisbon ∧
    activities db2 = activities lisbon ∧
    next_id db2 = S (next_id lisbon).
Proof.
  assert (wf lisbon) as Hwf by (apply wfb_wf; reflexivity).
  assert (ActivitiesRoute.POST 0 stringify
            (activityBody 2 "Museum" (Some (march 6 + 10 * hour))) lisbon
          = (lisbonWithMuseum, Ok (4%nat, museum))) as Hpost
    by (vm_compute; reflexivity).
  split; [exact Hwf|]. split; [exact Hpost|].
  exact (POST_then_DELETE_activity 0 stringify _ lisbon _ _ _ Hwf Hpost).
Defined.

(** X3.  The creation of an activity never leaves the trip of the day it
    was asked for: when it succeeds, the activity is stored under a day
    that exists and belongs to the same trip as the requested day, and
    under the requested day itself when the request has no start time;
    when the requested day does not exist, the answer is 500. *)
Theorem POST_activity_stays_in_trip tz JSON_stringify body db :
  (∀ db' i activity,
     ActivitiesRoute.POST tz JSON_stringify body db
     = (db', Ok (i, activity)) →
     i = next_id db ∧
     activities db' !! i = Some activity ∧
     ∃ dayId0 d0 d,
       ActivitiesRoute.dayId body = Some dayId0 ∧
       days db !! dayId0 = Some d0 ∧
       days db' !! act_dayId activity = Some d ∧
       day_tripId d = day_tripId d0 ∧
       (ActivitiesRoute.startTime body = None →
        act_dayId activity = dayId0)) ∧
  (∀ dayId0,
     ActivitiesRoute.dayId body = Some dayId0 →
     days db !! dayId0 = None →
     ActivitiesRoute.POST tz JSON_stringify body db
     = (db, Failure 500 "Failed to create activity")).
Proof.
  split.
  - intros db' i activity. unfold ActivitiesRoute.POST.
    destruct (ActivitiesRoute.dayId body) as [dayId0|]; [|done].
    destruct (ActivitiesRoute.title body) as [title|]; [|done].
    unfold activity_create. cbn [act_dayId].
    destruct (days db !! ActivitiesRoute.correctedDayId _ _ _ _)
      as [d|] eqn:Hd; [|done].
    intros [= <- <- <-]. split; [done|].
    cbn [activities days act_dayId].
    split; [apply lookup_insert_eq|].
    unfold ActivitiesRoute.correctedDayId in Hd |- *.
    destruct (ActivitiesRoute.startTime body) as [st|].
    + destruct (days db !! dayId0) as [d0|] eqn:Hd0; [|congruence].
      exists dayId0, d0. case_bool_decide.
      * destruct (List.find _ _) as [[j dj]|] eqn:Hfind.
        -- apply find_some in Hfind as [Hin _].
           apply list_elem_of_In, elem_of_days_of_trip in Hin as [Hj Hid].
           simpl in *. exists dj. by rewrite Hj.
        -- exists d0. by rewrite Hd0.
      * exists d0. by rewrite Hd0.
    + exists dayId0, d, d. done.
  - intros dayId0 HdayId Hnone. unfold ActivitiesRoute.POST.
    rewrite HdayId.
    destruct (ActivitiesRoute.title body) as [title|]; [|done].
    assert (ActivitiesRoute.correctedDayId tz dayId0
              (ActivitiesRoute.startTime body) db = dayId0) as ->.
    { unfold ActivitiesRoute.correctedDayId.
      destruct (ActivitiesRoute.startTime body); [|done].
      by rewrite Hnone. }
    unfold activity_create. cbn [act_dayId]. by rewrite Hnone.
Qed.

End ActivityRequestsMore.

Section TripRequestsMore.
Import JsDate Store StoreCalls.

(** ** Requests on trips: removal, listing and reading *)

Lemma in_rows_insert {R} (rows : list (ident * R)) (m : gmap ident R) i r :
  NoDup rows.*1 →
  (∀ x, x ∈ rows → m !! x.1 = None) →
  foldl (λ m x, <[x.1 := x.2]> m) m rows !! i = Some r
  ↔ (i, r) ∈ rows ∨ m !! i = Some r.
Proof.
  intros Hnd Hfresh. rewrite <- elem_of_map_to_list.
  rewrite (map_to_list_insert_rows rows m Hnd Hfresh).
  by rewrite elem_of_app, elem_of_map_to_list.
Qed.

Lemma trip_create_wf t ds db db' r :
  wf db → trip_create t ds db = (db', r) → wf db'.
Proof.
  intros Hwf Hrun. unfold trip_create in Hrun. injection Hrun as <- _.
  set (id := next_id db).
  set (rows := imap (λ k (d : Z * Z), (S id + k, mkDay id d.1 d.2)%nat) ds).
  assert (NoDup rows.*1) as Hnd
    by (subst rows; rewrite created_rows_fst; apply NoDup_seq).
  assert (∀ x, x ∈ rows → (S id ≤ x.1 < S id + length ds)%nat) as Hids.
  { intros x Hx.
    assert (x.1 ∈ seq (S id) (length ds)) as Hin.
    { subst rows. rewrite <- created_rows_fst. apply list_elem_of_fmap.
      by exists x. }
    apply elem_of_seq in Hin. lia. }
  assert (∀ x, x ∈ rows → days db !! x.1 = None) as Hfresh.
  { intros x Hx. apply eq_None_not_Some. intros Hs.
    pose proof (wf_days db Hwf _ Hs). pose proof (Hids x Hx). subst id. lia. }
  assert (∀ x, x ∈ rows → day_tripId x.2 = id) as Htrip.
  { intros x [k [d [-> _]]]%elem_of_lookup_imap. done. }
  split; cbn [trips days activities next_id]; fold id rows.
  - intros i [t' Hi]. destruct (decide (id = i)) as [<-|Hne]; [lia|].
    rewrite lookup_insert_ne in Hi by done.
    pose proof (wf_trips db Hwf i (mk_is_Some _ _ Hi)). subst id. lia.
  - intros i [d Hi]. apply in_rows_insert in Hi as [Hi|Hi]; [| |done..].
    + pose proof (Hids _ Hi). simpl in *. lia.
    + pose proof (wf_days db Hwf i (mk_is_Some _ _ Hi)). subst id. lia.
  - intros i Hi. pose proof (wf_activities db Hwf i Hi). subst id. lia.
  - intros i d Hi. apply in_rows_insert in Hi as [Hi|Hi]; [| |done..].
    + pose proof (Htrip _ Hi) as Hd. simpl in Hd. rewrite Hd.
      rewrite lookup_insert_eq. by eexists.
    + destruct (wf_day_trip db Hwf i d Hi) as [t' Ht'].
      rewrite lookup_insert_ne; [by eexists|].
      intros Heq. pose proof (wf_trips db Hwf _ (mk_is_Some _ _ Ht')).
      subst id. lia.
  - intros i a Hi. destruct (wf_activity_day db Hwf i a Hi) as [d Hd].
    exists d. apply in_rows_insert; [done..|]. by right.
Qed.

Lemma trip_delete_run id t db :
  trips db !! id = Some t →
  trip_delete id db
  = ({| trips := delete id (trips db);
        days := filter (λ r, day_tripId r.2 ≠ id) (days db);
        activities :=
          filter (λ r, in_trip id db r.2 = false) (activities db);
        next_id := next_id db |}, Some tt).
Proof. intros H. unfold trip_delete. by rewrite H. Qed.

Lemma in_trip_false id db a :
  in_trip id db a = false
  ↔ ∀ d, days db !! act_dayId a = Some d → day_tripId d ≠ id.
Proof.
  unfold in_trip. destruct (days db !! act_dayId a) as [d|].
  - rewrite bool_decide_eq_false. split; [by intros H d' [= <-]|].
    intros H. by apply H.
  - split; [done|]. done.
Qed.

Lemma trip_delete_wf id db db' r :
  wf db → trip_delete id db = (db', r) → wf db'.
Proof.
  intros Hwf. unfold trip_delete.
  destruct (trips db !! id) as [t|] eqn:Ht; [|by intros [= <- _]].
  intros [= <- _]. split; cbn [trips days activities next_id].
  - intros i [t' Hi]. apply lookup_delete_Some in Hi as [_ Hi].
    by apply (wf_trips db Hwf).
  - intros i [d Hi]. apply map_lookup_filter_Some in Hi as [Hi _].
    by apply (wf_days db Hwf).
  - intros i [a Hi]. apply map_lookup_filter_Some in Hi as [Hi _].
    by apply (wf_activities db Hwf).
  - intros i d Hi. apply map_lookup_filter_Some in Hi as [Hi Hne].
    simpl in Hne. rewrite lookup_delete_ne by done.
    by apply (wf_day_trip db Hwf i).
  - intros i a Hi. apply map_lookup_filter_Some in Hi as [Hi Hne].
    simpl in Hne. destruct (wf_activity_day db Hwf i a Hi) as [d Hd].
    exists d. apply map_lookup_filter_Some. split; [done|]. simpl.
    by apply (proj1 (in_trip_false id db a) Hne).
Qed.

(** X4.  Removing a trip removes the trip, its days and the activities of
    its days, and nothing else: the other trips, their days and their
    activities stay as they are, the integrity of the store is kept, the
    trip can no longer be read (404) and a second removal is refused
    (500) without any change. *)
Theorem DELETE_trip_cascades id t db :
  wf db →
  trips db !! id = Some t →
  ∃ db',
    TripResource.DELETE id db = (db', Ok tt) ∧
    wf db' ∧
    trips db' !! id = None ∧
    (∀ j, j ≠ id → trips db' !! j = trips db !! j) ∧
    (∀ j d, days db' !! j = Some d
            ↔ days db !! j = Some d ∧ day_tripId d ≠ id) ∧
    (∀ i a, activities db' !! i = Some a
            ↔ activities db !! i = Some a ∧
              ∀ d, days db !! act_dayId a = Some d → day_tripId d ≠ id) ∧
    TripResource.GET id db' = Failure 404 "Trip not found" ∧
    TripResource.DELETE id db' = (db', Failure 500 "Failed to delete trip").
Proof.
  intros Hwf Ht. unfold TripResource.DELETE at 1.
  rewrite (trip_delete_run id t db Ht).
  eexists. split; [done|].
  assert (∀ j d,
            filter (λ r : ident * Day, day_tripId r.2 ≠ id) (days db) !! j
              = Some d
            ↔ days db !! j = Some d ∧ day_tripId d ≠ id) as Hdays
    by (intros j d; apply map_lookup_filter_Some).
  assert (∀ i a,
            filter (λ r : ident * Activity, in_trip id db r.2 = false)
              (activities db) !! i = Some a
            ↔ activities db !! i = Some a ∧
              ∀ d, days db !! act_dayId a = Some d → day_tripId d ≠ id)
    as Hacts.
  { intros i a. rewrite map_lookup_filter_Some. simpl.
    by rewrite in_trip_false. }
  cbn [trips days activities next_id].
  split; [by apply (trip_delete_wf id db _ (Some tt)), (trip_delete_run id t)|].
  split; [apply lookup_delete_eq|]. split;
    [intros j Hj; by apply lookup_delete_ne|]. split; [done|].
  split; [done|].
  unfold TripResource.GET, TripResource.DELETE, trip_delete.
  cbn [trips]. by rewrite lookup_delete_eq.
Qed.

Lemma DELETE_trip_cascades_witness :
  wf lisbonWithMuseum ∧
  trips lisbonWithMuseum !! 0%nat = Some lisbonTrip ∧
  ∃ db',
    TripResource.DELETE 0%nat lisbonWithMuseum = (db', Ok tt) ∧
    wf db' ∧
    days db' !! 2%nat = None ∧ activities db' !! 4%nat = None ∧
    TripResource.GET 0%nat db' = Failure 404 "Trip not found".
Proof.
  assert (wf lisbonWithMuseum) as Hwf by (apply wfb_wf; reflexivity).
  assert (trips lisbonWithMuseum !! 0%nat = Some lisbonTrip) as Htrip
    by reflexivity.
  split; [exact Hwf|]. split; [exact Htrip|].
  destruct (DELETE_trip_cascades 0%nat lisbonTrip lisbonWithMuseum Hwf Htrip)
    as (db' & Hrun & Hwf' & _ & _ & Hdays & Hacts & Hget & _).
  exists db'. split; [exact Hrun|]. split; [exact Hwf'|].
  split; [|split; [|exact Hget]].
  - destruct (days db' !! 2%nat) as [d|] eqn:Hd; [|reflexivity].
    apply Hdays in Hd as [Hd Hne]. vm_compute in Hd.
    injection Hd as <-. by destruct Hne.
  - destruct (activities db' !! 4%nat) as [a|] eqn:Ha; [|reflexivity].
    apply Hacts in Ha as [Ha Hne]. vm_compute in Ha. injection Ha as <-.
    by destruct (Hne (mkDay 0 (march 6) 1) eq_refl).
Defined.

(** X5.  A request that is answered with an error has changed nothing in
    the store, for every handler but the update of a trip: the creation
    and the removal of a trip, and the creation, the update and the
    removal of an activity are each one write.  The update of a trip
    that does not exist is answered with 404 and changes nothing. *)
Theorem failed_request_changes_nothing tz JSON_stringify db db' status
    error :
  (∀ body, TripsRoute.POST body db = (db', Failure status error) →
           db' = db) ∧
  (∀ id, TripResource.DELETE id db = (db', Failure status error) →
         db' = db) ∧
  (∀ body,
     ActivitiesRoute.POST tz JSON_stringify body db
     = (db', Failure status error) → db' = db) ∧
  (∀ body,
     ActivitiesRoute.PATCH JSON_stringify body db
     = (db', Failure status error) → db' = db) ∧
  (∀ id, ActivityResource.DELETE id db = (db', Failure status error) →
         db' = db) ∧
  (∀ id body, trips db !! id = None →
     TripRoute.PATCH id body db = (db, Failure 404 "Trip not found")).
Proof.
  split; [|split; [|split; [|split; [|split]]]].
  - intros body. unfold TripsRoute.POST.
    destruct (truthy_opt_string _) as [title|]; [|congruence].
    destruct (TripsRoute.startDate body) as [s|]; [|congruence].
    destruct (TripsRoute.endDate body) as [e|]; [|congruence].
    destruct (TripsRoute.daysLoop _ _ _ _); [done | congruence].
  - intros id. unfold TripResource.DELETE, trip_delete.
    destruct (trips db !! id); [done | congruence].
  - intros body. unfold ActivitiesRoute.POST.
    destruct (ActivitiesRoute.dayId body) as [dayId0|]; [|congruence].
    destruct (ActivitiesRoute.title body) as [title|]; [|congruence].
    unfold activity_create. cbn [act_dayId].
    destruct (days db !! _) as [d|]; [done | congruence].
  - intros body. unfold ActivitiesRoute.PATCH.
    destruct (ActivitiesRoute.p_id body) as [id|]; [|congruence].
    unfold activity_update.
    destruct (activities db !! id) as [a|]; [|congruence].
    destruct (ActivitiesRoute.updateData _ _ _) as [a'|]; [|congruence].
    destruct (days db !! _) as [d|]; [done | congruence].
  - intros [id|]; unfold ActivityResource.DELETE; [|congruence].
    unfold activity_delete.
    destruct (activities db !! id) as [a|]; [done | congruence].
  - intros id body Hid. unfold TripRoute.PATCH. by rewrite Hid.
Qed.

End TripRequestsMore.

Section Integrity.
Import JsDate Store StoreCalls.

(** ** The integrity of the store and the isolation of the trips *)

Lemma activity_create_wf a db db' r :
  wf db → activity_create a db = (db', r) → wf db'.
Proof.
  intros Hwf. unfold activity_create.
  destruct (days db !! act_dayId a) as [d|] eqn:Hd; [|by intros [= <- _]].
  intros [= <- _]. split; cbn [trips days activities next_id].
  - intros i Hi. pose proof (wf_trips db Hwf i Hi). lia.
  - intros i Hi. pose proof (wf_days db Hwf i Hi). lia.
  - intros i [a' Hi]. destruct (decide (next_id db = i)) as [<-|Hne]; [lia|].
    rewrite lookup_insert_ne in Hi by done.
    pose proof (wf_activities db Hwf i (mk_is_Some _ _ Hi)). lia.
  - apply (wf_day_trip db Hwf).
  - intros i a' Hi. destruct (decide (next_id db = i)) as [<-|Hne].
    + rewrite lookup_insert_eq in Hi. injection Hi as <-. by eexists.
    + rewrite lookup_insert_ne in Hi by done.
      by apply (wf_activity_day db Hwf i).
Qed.

Lemma activity_update_wf i f db db' r :
  wf db → activity_update i f db = (db', r) → wf db'.
Proof.
  intros Hwf. unfold activity_update.
  destruct (activities db !! i) as [a|] eqn:Ha; [|by intros [= <- _]].
  destruct (f a) as [a'|]; [|by intros [= <- _]].
  destruct (days db !! act_dayId a') as [d|] eqn:Hd; [|by intros [= <- _]].
  intros [= <- _]. split; cbn [trips days activities next_id].
  - apply (wf_trips db Hwf).
  - apply (wf_days db Hwf).
  - intros j [a'' Hj]. destruct (decide (i = j)) as [<-|Hne].
    + by apply (wf_activities db Hwf i).
    + rewrite lookup_insert_ne in Hj by done.
      by apply (wf_activities db Hwf j).
  - apply (wf_day_trip db Hwf).
  - intros j a'' Hj. destruct (decide (i = j)) as [<-|Hne].
    + rewrite lookup_insert_eq in Hj. injection Hj as <-. by eexists.
    + rewrite lookup_insert_ne in Hj by done.
      by apply (wf_activity_day db Hwf j).
Qed.

Lemma activity_delete_wf i db db' r :
  wf db → activity_delete i db = (db', r) → wf db'.
Proof.
  intros Hwf. unfold activity_delete.
  destruct (activities db !! i) as [a|] eqn:Ha; [|by intros [= <- _]].
  intros [= <- _]. split; cbn [trips days activities next_id].
  - apply (wf_trips db Hwf).
  - apply (wf_days db Hwf).
  - intros j [a' Hj]. apply lookup_delete_Some in Hj as [_ Hj].
    by apply (wf_activities db Hwf j).
  - apply (wf_day_trip db Hwf).
  - intros j a' Hj. apply lookup_delete_Some in Hj as [_ Hj].
    by apply (wf_activity_day db Hwf j).
Qed.

Lemma confined_refl id db : wf db → confined id db db.
Proof.
  intros Hwf. split; try done.
  - intros j d' Hj _. exists d'. done.
  - intros j d' Hj Hge. pose proof (wf_days db Hwf j (mk_is_Some _ _ Hj)). lia.
Qed.

Lemma confined_trans id db db1 db2 :
  wf db → confined id db db1 → confined id db1 db2 → confined id db db2.
Proof.
  intros Hwf H1 H2. split.
  - apply (conf_wf _ _ _ H2).
  - rewrite (conf_trips _ _ _ H2). apply (conf_trips _ _ _ H1).
  - pose proof (conf_next _ _ _ H1). pose proof (conf_next _ _ _ H2). lia.
  - intros j d2 Hj Hlt.
    destruct (conf_old _ _ _ H2 j d2 Hj) as (d1 & Hd1 & Hid1 & Heq1).
    { pose proof (conf_next _ _ _ H1). lia. }
    destruct (conf_old _ _ _ H1 j d1 Hd1 Hlt) as (d & Hd & Hid & Heq).
    exists d. split; [done|]. split; [congruence|].
    intros Hne. rewrite Heq1 by congruence. by apply Heq.
  - intros j d2 Hj Hge.
    destruct (decide (j < next_id db1)%nat) as [Hlt|Hge1].
    + destruct (conf_old _ _ _ H2 j d2 Hj Hlt) as (d1 & Hd1 & Hid1 & _).
      rewrite <- Hid1. by apply (conf_new _ _ _ H1 j d1).
    + apply (conf_new _ _ _ H2 j d2 Hj). lia.
  - intros j d Hd Hne. apply (conf_others _ _ _ H2); [|done].
    by apply (conf_others _ _ _ H1).
  - intros i a Hi. apply (conf_activities _ _ _ H1).
    by apply (conf_activities _ _ _ H2).
  - intros i a d Hi Hd Hne.
    apply (conf_other_activities _ _ _ H2 i a d); [|by apply (conf_others _ _ _ H1)|done].
    by apply (conf_other_activities _ _ _ H1 i a d).
Qed.

(** A day of the trip, as the store has it or had it. *)
Lemma day_delete_confined id j db :
  wf db →
  (∀ d, days db !! j = Some d → day_tripId d = id) →
  confined id db (day_delete j db).1.
Proof.
  intros Hwf Hj. unfold day_delete.
  destruct (days db !! j) as [dj|] eqn:Hdj; [|by apply confined_refl].
  specialize (Hj dj eq_refl). cbn [fst].
  split; cbn [trips days activities next_id]; try done.
  - split; cbn [trips days activities next_id].
    + apply (wf_trips db Hwf).
    + intros i [d Hi]. apply lookup_delete_Some in Hi as [_ Hi].
      by apply (wf_days db Hwf i).
    + intros i [a Hi]. apply map_lookup_filter_Some in Hi as [Hi _].
      by apply (wf_activities db Hwf i).
    + intros i d Hi. apply lookup_delete_Some in Hi as [_ Hi].
      by apply (wf_day_trip db Hwf i).
    + intros i a Hi. apply map_lookup_filter_Some in Hi as [Hi Hne].
      simpl in Hne. rewrite lookup_delete_ne by done.
      by apply (wf_activity_day db Hwf i).
  - intros i d' Hi _. apply lookup_delete_Some in Hi as [_ Hi].
    exists d'. done.
  - intros i d' Hi Hge. apply lookup_delete_Some in Hi as [_ Hi].
    pose proof (wf_days db Hwf i (mk_is_Some _ _ Hi)). lia.
  - intros i d Hi Hne. rewrite lookup_delete_ne; [done|].
    intros <-. congruence.
  - intros i a Hi. by apply map_lookup_filter_Some in Hi as [Hi _].
  - intros i a d Hi Hd Hne. apply map_lookup_filter_Some. split; [done|].
    simpl. intros Heq. rewrite Heq in Hd. congruence.
Qed.

Lemma day_create_confined id date index db :
  wf db → confined id db (day_create (mkDay id date index) db).1.
Proof.
  intros Hwf. unfold day_create. cbn [day_tripId].
  destruct (trips db !! id) as [t|] eqn:Ht; [|by apply confined_refl].
  cbn [fst]. split; cbn [trips days activities next_id]; try done.
  - split; cbn [trips days activities next_id].
    + intros i Hi. pose proof (wf_trips db Hwf i Hi). lia.
    + intros i [d Hi]. destruct (decide (next_id db = i)) as [<-|Hne]; [lia|].
      rewrite lookup_insert_ne in Hi by done.
      pose proof (wf_days db Hwf i (mk_is_Some _ _ Hi)). lia.
    + intros i Hi. pose proof (wf_activities db Hwf i Hi). lia.
    + intros i d Hi. destruct (decide (next_id db = i)) as [<-|Hne].
      * rewrite lookup_insert_eq in Hi. injection Hi as <-. by eexists.
      * rewrite lookup_insert_ne in Hi by done.
        by apply (wf_day_trip db Hwf i).
    + intros i a Hi. destruct (wf_activity_day db Hwf i a Hi) as [d Hd].
      exists d. rewrite lookup_insert_ne; [done|]. intros Heq.
      pose proof (wf_days db Hwf _ (mk_is_Some _ _ Hd)). lia.
  - lia.
  - intros i d' Hi Hlt. rewrite lookup_insert_ne in Hi by lia. by exists d'.
  - intros i d' Hi Hge. destruct (decide (next_id db = i)) as [<-|Hne].
    + rewrite lookup_insert_eq in Hi. by injection Hi as <-.
    + rewrite lookup_insert_ne in Hi by done.
      pose proof (wf_days db Hwf i (mk_is_Some _ _ Hi)). lia.
  - intros i d Hi Hne. rewrite lookup_insert_ne; [done|]. intros <-.
    pose proof (wf_days db Hwf _ (mk_is_Some _ _ Hi)). lia.
Qed.

Lemma day_update_index_confined id j index db :
  wf db →
  (∀ d, days db !! j = Some d → day_tripId d = id) →
  confined id db (day_update_index j index db).1.
Proof.
  intros Hwf Hj. unfold day_update_index.
  destruct (days db !! j) as [dj|] eqn:Hdj; [|by apply confined_refl].
  specialize (Hj dj eq_refl). cbn [fst].
  split; cbn [trips days activities next_id]; try done.
  - split; cbn [trips days activities next_id].
    + apply (wf_trips db Hwf).
    + intros i [d Hi]. destruct (decide (j = i)) as [<-|Hne].
      * by apply (wf_days db Hwf j).
      * rewrite lookup_insert_ne in Hi by done. by apply (wf_days db Hwf i).
    + apply (wf_activities db Hwf).
    + intros i d Hi. destruct (decide (j = i)) as [<-|Hne].
      * rewrite lookup_insert_eq in Hi. injection Hi as <-. simpl.
        by apply (wf_day_trip db Hwf j).
      * rewrite lookup_insert_ne in Hi by done.
        by apply (wf_day_trip db Hwf i).
    + intros i a Hi. destruct (wf_activity_day db Hwf i a Hi) as [d Hd].
      destruct (decide (j = act_dayId a)) as [<-|Hne].
      * rewrite lookup_insert_eq. by eexists.
      * rewrite lookup_insert_ne by done. by eexists.
  - intros i d' Hi _. destruct (decide (j = i)) as [<-|Hne].
    + rewrite lookup_insert_eq in Hi. injection Hi as <-.
      exists dj. split; [done|]. split; [done|]. simpl. congruence.
    + rewrite lookup_insert_ne in Hi by done. by exists d'.
  - intros i d' Hi Hge. destruct (decide (j = i)) as [<-|Hne].
    + pose proof (wf_days db Hwf j (mk_is_Some _ _ Hdj)). lia.
    + rewrite lookup_insert_ne in Hi by done.
      pose proof (wf_days db Hwf i (mk_is_Some _ _ Hi)). lia.
  - intros i d Hi Hne. rewrite lookup_insert_ne; [done|].
    intros <-. congruence.
Qed.

(** A loop whose rounds are confined is confined, whether it ends or
    throws. *)
Lemma forEach_confined {A} id db0 (l : list A) (f : A → Prisma unit) db :
  wf db0 →
  (∀ x db, x ∈ l → confined id db0 db → confined id db (f x db).1) →
  confined id db0 db → confined id db0 (forEach l f db).1.
Proof.
  intros Hwf0. revert db. induction l as [|x l IH]; intros db Hf H; [done|].
  cbn [forEach]. unfold bind.
  pose proof (Hf x db ltac:(left) H) as Hx.
  destruct (f x db) as [db1 [[]|]] eqn:Hrun; cbn [fst] in *.
  - apply IH; [intros y db' Hy; apply Hf; by right|].
    by apply (confined_trans id db0 db db1).
  - by apply (confined_trans id db0 db db1).
Qed.

Lemma forEachIndexed_confined {A} id db0 (l : list A)
    (f : Z → A → Prisma unit) i db :
  wf db0 →
  (∀ k x db, x ∈ l → confined id db0 db → confined id db (f k x db).1) →
  confined id db0 db → confined id db0 (forEachIndexed i l f db).1.
Proof.
  intros Hwf0. revert i db.
  induction l as [|x l IH]; intros i db Hf H; [done|].
  cbn [forEachIndexed]. unfold bind.
  pose proof (Hf i x db ltac:(left) H) as Hx.
  destruct (f i x db) as [db1 [[]|]] eqn:Hrun; cbn [fst] in *.
  - apply IH; [intros k y db' Hy; apply Hf; by right|].
    by apply (confined_trans id db0 db db1).
  - by apply (confined_trans id db0 db db1).
Qed.

(** A day that the trip had when it was read is, as long as it exists, a
    day of the trip. *)
Lemma confined_trip_day id db0 db j d0 :
  wf db0 → confined id db0 db → (j, d0) ∈ days_of_trip id db0 →
  ∀ d, days db !! j = Some d → day_tripId d = id.
Proof.
  intros Hwf0 H Hin d Hd. apply elem_of_days_of_trip in Hin as [Hd0 Hid0].
  destruct (conf_old _ _ _ H j d Hd) as (d0' & Hd0' & Hid & _).
  { by apply (wf_days db0 Hwf0 j). }
  congruence.
Qed.

Lemma regenerateDays_confined id newStart newEnd db0 :
  wf db0 →
  confined id db0
    (TripRoute.regenerateDays id (days_of_trip id db0) newStart newEnd db0).1.
Proof.
  intros Hwf0. unfold TripRoute.regenerateDays.
  destruct (TripRoute.datesLoop _ _ _) as [newDates|];
    [|by apply confined_refl].
  unfold bind.
  assert (confined id db0
            (forEach (days_of_trip id db0)
               (TripRoute.deleteOutside newStart newEnd) db0).1) as Hdel.
  { apply forEach_confined; [done| |by apply confined_refl].
    intros [j d0] db Hin H. unfold TripRoute.deleteOutside.
    destruct (TripRoute.outsideRange _ _ _);
      [|apply confined_refl, (conf_wf _ _ _ H)].
    apply day_delete_confined; [apply (conf_wf _ _ _ H)|].
    by apply (confined_trip_day id db0 db j d0). }
  destruct (forEach _ _ db0) as [db1 [[]|]]; cbn [fst] in *; [|done].
  apply forEachIndexed_confined; [done| |done].
  intros k date db _ H. unfold TripRoute.createOrUpdate.
  destruct (TripRoute.existingDaysByDate _ !! _) as [[j d0]|] eqn:Hkey.
  - apply existingDaysByDate_Some in Hkey as [Hin _].
    apply day_update_index_confined; [apply (conf_wf _ _ _ H)|].
    by apply (confined_trip_day id db0 db j d0).
  - unfold bind.
    pose proof (day_create_confined id date k db (conf_wf _ _ _ H)) as Hc.
    by destruct (day_create _ db) as [db' [j|]].
Qed.

Lemma confined_othersUntouched id db db' :
  wf db → confined id db db' → othersUntouched id db db'.
Proof.
  intros Hwf H. split; [|split; [|split]].
  - intros j _. by rewrite (conf_trips _ _ _ H).
  - intros j d Hne. split; [|intros Hd; by apply (conf_others _ _ _ H)].
    intros Hd. destruct (decide (j < next_id db)%nat) as [Hlt|Hge].
    + destruct (conf_old _ _ _ H j d Hd Hlt) as (d0 & Hd0 & Hid & Heq).
      rewrite Heq by congruence. done.
    + destruct Hne. apply (conf_new _ _ _ H j d Hd). lia.
  - apply (conf_activities _ _ _ H).
  - apply (conf_other_activities _ _ _ H).
Qed.

(** X6.  An update of a trip is confined to that trip, whatever it is
    asked and however it ends, an error in the middle of the
    regeneration of the days included: the integrity of the store is
    kept, the other trips, their days and the activities of their days
    stay as they are, and no activity is created or changed. *)
Theorem PATCH_trip_is_confined id body db :
  wf db →
  wf (TripRoute.PATCH id body db).1 ∧
  othersUntouched id db (TripRoute.PATCH id body db).1.
Proof.
  intros Hwf. unfold TripRoute.PATCH.
  destruct (trips db !! id) as [currentTrip|] eqn:Htrip.
  2: { split; [done|]. apply confined_othersUntouched; [done|].
       by apply confined_refl. }
  cbv zeta. unfold bind.
  rewrite (trip_update_run _ _ _ _ Htrip).
  set (db1 := {| trips := _; days := days db; activities := activities db;
                 next_id := next_id db |}).
  assert (wf db1) as Hwf1 by (by apply wf_trip_update).
  set (m := if TripRoute.datesChanged body currentTrip then _ else _).
  assert (confined id db1 (m db1).1) as Hconf.
  { subst m. destruct (TripRoute.datesChanged body currentTrip);
      [|by apply confined_refl].
    change (days_of_trip id db) with (days_of_trip id db1).
    by apply regenerateDays_confined. }
  assert (∀ j, j ≠ id → trips db1 !! j = trips db !! j) as Hother
    by (intros j Hj; subst db1; cbn [trips]; by apply lookup_insert_ne).
  destruct (m db1) as [db2 [[]|]]; cbn [fst] in *.
  all: split; [apply (conf_wf _ _ _ Hconf)|].
  all: destruct (confined_othersUntouched id db1 db2 Hwf1 Hconf)
         as (Ht & Hd & Ha & Hoa).
  all: split; [|split; [|split]]; try done.
  all: intros j Hj; rewrite Ht by done; by apply Hother.
Qed.

Lemma PATCH_trip_is_confined_witness :
  wf twoTrips ∧
  wf (TripRoute.PATCH 0%nat (editBody (march 6) (march 8)) twoTrips).1 ∧
  othersUntouched 0%nat twoTrips
    (TripRoute.PATCH 0%nat (editBody (march 6) (march 8)) twoTrips).1.
Proof.
  assert (wf twoTrips) as Hwf by (apply wfb_wf; reflexivity).
  split; [exact Hwf|].
  exact (PATCH_trip_is_confined 0%nat (editBody (march 6) (march 8))
           twoTrips Hwf).
Defined.

End Integrity.

Section IntegrityOfRequests.
Import JsDate Store StoreCalls.

(** X7.  Every request other than the update of a trip keeps the
    integrity of the store, whatever it is asked and whatever it answers:
    the identifiers in use stay below the counter, every day belongs to a
    stored trip and every activity to a stored day. *)
Theorem requests_keep_integrity tz JSON_stringify db :
  wf db →
  (∀ body, wf (TripsRoute.POST body db).1) ∧
  (∀ id, wf (TripResource.DELETE id db).1) ∧
  (∀ body, wf (ActivitiesRoute.POST tz JSON_stringify body db).1) ∧
  (∀ body, wf (ActivitiesRoute.PATCH JSON_stringify body db).1) ∧
  (∀ id, wf (ActivityResource.DELETE id db).1).
Proof.
  intros Hwf. split; [|split; [|split; [|split]]].
  - intros body. unfold TripsRoute.POST.
    destruct (truthy_opt_string _) as [title|]; [|done].
    destruct (TripsRoute.startDate body) as [s|]; [|done].
    destruct (TripsRoute.endDate body) as [e|]; [|done].
    destruct (TripsRoute.daysLoop _ _ _ _) as [ds|]; [|done].
    destruct (trip_create _ ds db) as [db' r] eqn:Hrun.
    pose proof (trip_create_wf _ _ _ _ _ Hwf Hrun). by destruct r.
  - intros id. unfold TripResource.DELETE.
    destruct (trip_delete id db) as [db' r] eqn:Hrun.
    pose proof (trip_delete_wf _ _ _ _ Hwf Hrun). by destruct r.
  - intros body. unfold ActivitiesRoute.POST.
    destruct (ActivitiesRoute.dayId body) as [dayId0|]; [|done].
    destruct (ActivitiesRoute.title body) as [title|]; [|done].
    destruct (activity_create _ db) as [db' r] eqn:Hrun.
    pose proof (activity_create_wf _ _ _ _ Hwf Hrun). by destruct r.
  - intros body. unfold ActivitiesRoute.PATCH.
    destruct (ActivitiesRoute.p_id body) as [id|]; [|done].
    destruct (activity_update id _ db) as [db' r] eqn:Hrun.
    pose proof (activity_update_wf _ _ _ _ _ Hwf Hrun). by destruct r.
  - intros [id|]; unfold ActivityResource.DELETE; [|done].
    destruct (activity_delete id db) as [db' r] eqn:Hrun.
    pose proof (activity_delete_wf _ _ _ _ Hwf Hrun). by destruct r.
Qed.

Lemma requests_keep_integrity_witness :
  wf lisbonWithMuseum ∧
  wf (TripResource.DELETE 0%nat lisbonWithMuseum).1 ∧
  wf (ActivitiesRoute.PATCH stringify (retime 4 (march 7 + 10 * hour))
        lisbonWithMuseum).1 ∧
  wf (ActivityResource.DELETE (Some 4%nat) lisbonWithMuseum).1.
Proof.
  assert (wf lisbonWithMuseum) as Hwf by (apply wfb_wf; reflexivity).
  split; [exact Hwf|].
  destruct (requests_keep_integrity 0 stringify lisbonWithMuseum Hwf)
    as (_ & Htrip & _ & Hpatch & Hdelete).
  split; [apply Htrip|]. split; [apply Hpatch | apply Hdelete].
Defined.

Lemma PATCH_trip_row id body db t :
  wf db → trips db !! id = Some t →
  trips (TripRoute.PATCH id body db).1 !! id
  = Some (TripRoute.updateData body
            (default (trip_startDate t) (TripRoute.startDate body))
            (default (trip_endDate t) (TripRoute.endDate body)) t).
Proof.
  intros Hwf Htrip. unfold TripRoute.PATCH. rewrite Htrip. cbv zeta.
  unfold bind. rewrite (trip_update_run _ _ _ _ Htrip).
  set (db1 := {| trips := _; days := days db; activities := activities db;
                 next_id := next_id db |}).
  assert (wf db1) as Hwf1 by (by apply wf_trip_update).
  set (m := if TripRoute.datesChanged body t then _ else _).
  assert (confined id db1 (m db1).1) as Hconf.
  { subst m. destruct (TripRoute.datesChanged body t);
      [|by apply confined_refl].
    change (days_of_trip id db) with (days_of_trip id db1).
    by apply regenerateDays_confined. }
  destruct (m db1) as [db2 [[]|]]; unfold ret; cbn [fst] in *;
    rewrite (conf_trips _ _ _ Hconf); subst db1; cbn [trips];
    apply lookup_insert_eq.
Qed.



End IntegrityOfRequests.

Section Reading.
Import JsDate Store StoreCalls.

(** ** Reading the trips *)

Lemma StronglySorted_lookup {A} (R : relation A) (l : list A) :
  (∀ i j x y, (i < j)%nat → l !! i = Some x → l !! j = Some y → R x y) →
  StronglySorted R l.
Proof.
  induction l as [|x l IH]; intros H; constructor.
  - apply IH. intros i j a b Hij Ha Hb. by apply (H (S i) (S j)); [lia|..].
  - apply Forall_forall. intros y [j Hj]%list_elem_of_lookup.
    by apply (H 0%nat (S j)); [lia|..].
Qed.

(** Two lists in order that hold the same elements are one list, when no
    two elements are in order both ways. *)
Lemma StronglySorted_Permutation_eq {A} (R : relation A) (l1 l2 : list A) :
  StronglySorted R l1 → StronglySorted R l2 → l1 ≡ₚ l2 →
  (∀ x y, x ∈ l1 → y ∈ l1 → R x y → R y x → x = y) →
  l1 = l2.
Proof.
  intros H1. revert l2. induction H1 as [|x l1 Hs1 IH Hx]; intros l2 H2 Hp Ha.
  - by apply Permutation_nil_l in Hp.
  - destruct l2 as [|y l2]; [by apply Permutation_nil_r in Hp|].
    apply StronglySorted_inv in H2 as [H2 Hy].
    assert (x = y) as <-.
    { assert (x ∈ y :: l2) as [->|Hin]%elem_of_cons
        by (rewrite <- Hp; left); [done|].
      assert (y ∈ x :: l1) as [->|Hyin]%elem_of_cons
        by (rewrite Hp; left); [done|].
      rewrite Forall_forall in Hx, Hy.
      symmetry. apply Ha; [by right | by left | by apply Hy | by apply Hx]. }
    f_equal. apply IH; [done|by apply (inj (cons x))|].
    intros a b Ha' Hb'. apply Ha; by right.
Qed.

Lemma orderBy_sorted {R} (key : R → Z) (rows l : list (ident * R)) :
  l ≡ₚ rows →
  (∀ i j x y, (i < j)%nat → rows !! i = Some x → rows !! j = Some y →
     key x.2 < key y.2) →
  orderBy key l = rows.
Proof.
  intros Hp Hrows. unfold orderBy.
  set (rel := λ a b : ident * R, key a.2 ≤ key b.2).
  assert (Transitive rel) by (intros a b c; unfold rel; lia).
  assert (Total rel) by (intros a b; unfold rel; lia).
  symmetry. apply (StronglySorted_Permutation_eq rel).
  - apply StronglySorted_lookup. intros i j x y Hij Hx Hy.
    pose proof (Hrows i j x y Hij Hx Hy). unfold rel. lia.
  - apply (StronglySorted_merge_sort rel).
  - by rewrite (merge_sort_Permutation rel), Hp.
  - intros x y [i Hi]%list_elem_of_lookup [j Hj]%list_elem_of_lookup Hxy Hyx.
    unfold rel in *.
    destruct (decide (i = j)) as [->|Hne]; [congruence|].
    destruct (decide (i < j)%nat).
    + pose proof (Hrows i j x y ltac:(done) Hi Hj). lia.
    + pose proof (Hrows j i y x ltac:(lia) Hj Hi). lia.
Qed.

(** X9.  Reading a trip that was just created answers what the creation
    answered: the row of the trip and its days in the order of their
    dates, which is that of their indices, none with an activity.
    Reading a trip that does not exist answers 404. *)
Theorem GET_trip_after_POST body db db' id trip ds :
  wf db →
  TripsRoute.POST body db = (db', Ok (id, trip, ds)) →
  TripResource.GET id db'
  = Ok (trip, (λ day : ident * Day, (day.1, day.2, [])) <$> ds) ∧
  day_index <$> ds.*2 = seqZ 0 (Z.of_nat (length ds)) ∧
  (∀ j, trips db' !! j = None →
        TripResource.GET j db' = Failure 404 "Trip not found").
Proof.
  intros Hwf Hpost.
  assert (∀ j, trips db' !! j = None →
            TripResource.GET j db' = Failure 404 "Trip not found") as H404
    by (intros j Hj; unfold TripResource.GET; by rewrite Hj).
  unfold TripsRoute.POST in Hpost.
  destruct (truthy_opt_string _) as [title|]; [|done].
  destruct (TripsRoute.startDate body) as [s|]; [|done].
  destruct (TripsRoute.endDate body) as [e|]; [|done].
  rewrite daysLoop_spec in Hpost by (unfold TripsRoute.loopFuel; lia).
  set (n := (e - s) `div` MS_PER_DAY + 1) in *.
  match type of Hpost with
  | context [trip_create ?t ?l db] =>
      destruct (trip_create_days t l db Hwf) as (db1 & Hrun & Htrip & Hdays);
      rewrite Hrun in Hpost
  end.
  injection Hpost as <- <- <- <-.
  set (rows := imap _ _) in *.
  assert (length rows = Z.to_nat n) as Hlen
    by (subst rows; by rewrite length_imap, length_fmap, length_seqZ).
  assert (∀ k x, rows !! k = Some x →
            x = ((S (next_id db) + k)%nat,
                 mkDay (next_id db) (s + Z.of_nat k * MS_PER_DAY)
                   (Z.of_nat k))) as Hrows.
  { intros k x Hk. pose proof (lookup_lt_Some _ _ _ Hk) as Hlt.
    rewrite Hlen in Hlt. subst rows.
    rewrite created_rows_lookup in Hk by done. congruence. }
  split; [|split; [|done]].
  - unfold TripResource.GET. rewrite Htrip. do 2 f_equal.
    rewrite (orderBy_sorted day_date rows); [| done |].
    + apply list_fmap_ext. intros k [j d] Hk. unfold TripResource.included.
      f_equal. cbn [fst]. unfold activities_of_day.
      apply rows_where_nil. intros i a Ha. apply bool_decide_eq_false.
      intros Heq.
      assert (activities db !! i = Some a) as Ha0.
      { unfold trip_create in Hrun. injection Hrun as <-. done. }
      destruct (wf_activity_day db Hwf i a Ha0) as [d0 Hd0].
      pose proof (wf_days db Hwf _ (mk_is_Some _ _ Hd0)) as Hb.
      pose proof (Hrows k _ Hk) as Hx. injection Hx as -> _. lia.
    + intros i j x y Hij Hx Hy.
      rewrite (Hrows i x Hx), (Hrows j y Hy). cbn [snd day_date].
      pose proof MS_PER_DAY_pos. nia.
  - apply list_eq. intros k. rewrite !list_lookup_fmap.
    destruct (rows !! k) as [x|] eqn:Hk.
    + pose proof (lookup_lt_Some _ _ _ Hk) as Hlt.
      rewrite (Hrows k x Hk). cbn [fmap option_fmap option_map snd day_index].
      rewrite lookup_seqZ_lt by lia. f_equal; lia.
    + apply lookup_ge_None in Hk. symmetry. apply lookup_ge_None.
      rewrite length_seqZ. lia.
Qed.

Lemma GET_trip_after_POST_witness :
  wf emptyDb ∧
  TripsRoute.POST (tripBody (march 5) (march 7)) emptyDb
  = (lisbon, Ok (0%nat, lisbonTrip, lisbonDays)) ∧
  TripResource.GET 0%nat lisbon
  = Ok (lisbonTrip,
        [ (1%nat, mkDay 0 (march 5) 0, []);
          (2%nat, mkDay 0 (march 6) 1, []);
          (3%nat, mkDay 0 (march 7) 2, []) ]) ∧
  TripResource.GET 7%nat lisbon = Failure 404 "Trip not found".
Proof.
  assert (TripsRoute.POST (tripBody (march 5) (march 7)) emptyDb
          = (lisbon, Ok (0%nat, lisbonTrip, lisbonDays))) as Hpost
    by (vm_compute; reflexivity).
  split; [exact emptyDb_wf|]. split; [exact Hpost|].
  destruct (GET_trip_after_POST _ _ _ _ _ _ emptyDb_wf Hpost)
    as (Hget & _ & H404).
  split; [exact Hget | apply H404; reflexivity].
Defined.

Lemma orderBy_Permutation {R} (key : R → Z) (rows : list (ident * R)) :
  orderBy key rows ≡ₚ rows.
Proof. unfold orderBy. apply merge_sort_Permutation. Qed.

Lemma elem_of_orderBy {R} (key : R → Z) (rows : list (ident * R)) x :
  x ∈ orderBy key rows ↔ x ∈ rows.
Proof. by rewrite orderBy_Permutation. Qed.

(** X10.  The list of the trips has every trip of the store once, each
    with the number of its days, in ascending order of start date. *)
Theorem GET_trips_lists_every_trip db :
  ∃ l,
    TripsIndex.GET db = Ok l ∧
    NoDup (l.*1.*1) ∧
    (∀ id t n, (id, t, n) ∈ l
               ↔ trips db !! id = Some t ∧
                 n = length (days_of_trip id db)) ∧
    StronglySorted
      (λ a b : ident * Trip * nat,
         trip_startDate a.1.2 ≤ trip_startDate b.1.2) l.
Proof.
  eexists. split; [reflexivity|].
  set (rel := λ a b : ident * Trip, trip_startDate a.2 ≤ trip_startDate b.2).
  assert (Transitive rel) by (intros a b c; unfold rel; lia).
  assert (Total rel) by (intros a b; unfold rel; lia).
  split; [|split].
  - rewrite <- !list_fmap_compose.
    assert (fst ∘ fst ∘ TripsIndex.counted db = fst) as -> by done.
    rewrite orderBy_Permutation. apply NoDup_fst_map_to_list.
  - intros id t n. rewrite list_elem_of_fmap. split.
    + intros ([i t'] & Heq & Hin). injection Heq as -> -> ->.
      apply elem_of_orderBy, elem_of_map_to_list in Hin. done.
    + intros [Ht ->]. exists (id, t). split; [done|].
      by apply elem_of_orderBy, elem_of_map_to_list.
  - apply (StronglySorted_fmap _ rel); [by intros a b|].
    apply (StronglySorted_merge_sort rel).
Qed.

End Reading.

Section CurrencyMore.
Import Currency.

(** ** The rate tables and the cache *)






End CurrencyMore.

Section CurrencyCache.
Import Currency.





(** X13.  The cache of the rates.  After the service has answered, the
    table it gave is used for every request for the same base currency
    that comes less than an hour later, without the service being asked;
    an hour later the table is no longer used: the service is asked
    again, and when it fails the fallback rates are used, not the table
    that was stored.  The fallback rates themselves are never stored. *)
Theorem getExchangeRates_cache now fetch baseCurrency rt data :
  usable now baseCurrency (cachedRates rt) = None →
  usable now baseCurrency (mjoin (localStorage rt)) = None →
  fetch baseCurrency = Some data →
  ∃ rt',
    getExchangeRates now fetch baseCurrency rt = (data, rt') ∧
    (∀ now' fetch',
       now' - now < CACHE_DURATION →
       getExchangeRates now' fetch' baseCurrency rt' = (data, rt')) ∧
    (∀ now' fetch',
       CACHE_DURATION ≤ now' - now → fetch' baseCurrency = None →
       getExchangeRates now' fetch' baseCurrency rt'
       = (getFallbackRates baseCurrency, rt')) ∧
    (∀ now' fetch' rt0,
       fallbackActive now' fetch' baseCurrency rt0 →
       getExchangeRates now' fetch' baseCurrency rt0
       = (getFallbackRates baseCurrency, rt0)).
Proof.
  intros Hmem Hstore Hfetch. unfold getExchangeRates at 1.
  rewrite Hmem, Hstore, Hfetch. eexists. split; [reflexivity|].
  split; [|split].
  - intros now' fetch' Hage. unfold getExchangeRates, usable, fresh.
    cbn [cachedRates Currency.base timestamp rates].
    rewrite bool_decide_eq_true_2 by done.
    by rewrite bool_decide_eq_true_2 by done.
  - intros now' fetch' Hage Hfail. unfold getExchangeRates, usable, fresh.
    cbn [cachedRates localStorage Currency.base timestamp rates].
    rewrite bool_decide_eq_true_2 by done.
    rewrite (bool_decide_eq_false_2 (now' - now < CACHE_DURATION)) by lia.
    cbn [andb]. destruct (localStorage rt) as [stored|]; cbn.
    + rewrite bool_decide_eq_true_2 by done.
      rewrite (bool_decide_eq_false_2 (now' - now < CACHE_DURATION)) by lia.
      cbn. by rewrite Hfail.
    + by rewrite Hfail.
  - intros now' fetch' rt0. apply getExchangeRates_fallback.
Qed.

Lemma getExchangeRates_cache_witness :
  usable 0 "EUR" (cachedRates noCache) = None ∧
  usable 0 "EUR" (mjoin (localStorage noCache)) = None ∧
  zeroRate "EUR" = Some (<[ "XXX" := 0%Q ]> fallbackEUR) ∧
  ∃ rt',
    getExchangeRates 0 zeroRate "EUR" noCache
    = (<[ "XXX" := 0%Q ]> fallbackEUR, rt') ∧
    getExchangeRates (59 * 60 * 1000) offline "EUR" rt'
    = (<[ "XXX" := 0%Q ]> fallbackEUR, rt') ∧
    getExchangeRates (60 * 60 * 1000) offline "EUR" rt'
    = (getFallbackRates "EUR", rt').
Proof.
  split; [reflexivity|]. split; [reflexivity|]. split; [reflexivity|].
  destruct (getExchangeRates_cache 0 zeroRate "EUR" noCache
              (<[ "XXX" := 0%Q ]> fallbackEUR) eq_refl eq_refl eq_refl)
    as (rt' & Hrun & Hfresh & Hstale & _).
  exists rt'. split; [exact Hrun|]. split.
  - apply Hfresh. reflexivity.
  - apply Hstale; [discriminate | reflexivity].
Defined.

End CurrencyCache.

Section Totals.
Import Currency Budget.

(** ** Totals and the budget *)






End Totals.

Section Timeline.
Import JsDate Store TripPage TripPageActions.

(** ** The timeline and the header of the trip page *)












End Timeline.

Section CalendarText.
Import TripPageActions.

(** ** The texts of the calendar *)

Lemma append_cons x (s1 s2 : string) :
  String x s1 +:+ s2 = String x (s1 +:+ s2).
Proof. done. Qed.

Lemma append_assoc (s1 s2 s3 : string) :
  (s1 +:+ s2) +:+ s3 = s1 +:+ (s2 +:+ s3).
Proof.
  induction s1 as [|x s1 IH]; [done|]. by rewrite !append_cons, IH.
Qed.

Lemma replaceAll_app c by_ s1 s2 :
  replaceAll c by_ (s1 +:+ s2)
  = replaceAll c by_ s1 +:+ replaceAll c by_ s2.
Proof.
  induction s1 as [|x s1 IH]; [done|].
  rewrite append_cons. cbn [replaceAll]. destruct (Ascii.eqb x c).
  - by rewrite IH, append_assoc.
  - by rewrite append_cons, IH.
Qed.

Lemma escaped_app c (s : string) :
  escaped c +:+ s = String backslash (String c s).
Proof. done. Qed.

(** The four replacements, one after the other, escape each character of
    the text once. *)
Lemma escapeICS_cons x rest :
  escapeICS (String x rest) = escapeChar x +:+ escapeICS rest.
Proof.
  unfold escapeICS, escapeChar. cbn [replaceAll].
  destruct (Ascii.eqb_spec x backslash) as [->|Hb];
    [by rewrite !replaceAll_app|].
  cbn [replaceAll].
  destruct (Ascii.eqb_spec x semicolon) as [->|Hs];
    [by rewrite !replaceAll_app|].
  cbn [replaceAll].
  destruct (Ascii.eqb_spec x comma) as [->|Hc];
    [by rewrite !replaceAll_app|].
  cbn [replaceAll].
  by destruct (Ascii.eqb_spec x lineFeed) as [->|Hl].
Qed.

Lemma unescape_plain x (s : string) :
  x ≠ backslash → unescapeICS (String x s) = String x (unescapeICS s).
Proof.
  intros Hb. apply Ascii.eqb_neq in Hb.
  destruct s as [|y tail]; [done|]. simpl. by rewrite Hb.
Qed.

Lemma unescape_escape str : unescapeICS (escapeICS str) = str.
Proof.
  induction str as [|x rest IH]; [done|].
  rewrite escapeICS_cons. unfold escapeChar.
  destruct (Ascii.eqb_spec x backslash) as [->|Hb];
    [rewrite escaped_app; cbn [unescapeICS]; by rewrite IH|].
  destruct (Ascii.eqb_spec x semicolon) as [->|Hs];
    [rewrite escaped_app; cbn [unescapeICS]; by rewrite IH|].
  destruct (Ascii.eqb_spec x comma) as [->|Hc];
    [rewrite escaped_app; cbn [unescapeICS]; by rewrite IH|].
  destruct (Ascii.eqb_spec x lineFeed) as [->|Hl];
    [rewrite escaped_app; cbn [unescapeICS]; by rewrite IH|].
  rewrite append_cons.
  change (EmptyString +:+ escapeICS rest) with (escapeICS rest).
  by rewrite unescape_plain, IH.
Qed.

(** X19.  The escape of a text of the calendar: the text can be read
    back from its escaped form, so that two texts never have the same
    one; the escaped form has no line feed, and a semicolon or a comma
    in it always follows a backslash that escapes it. *)
Theorem escapeICS_is_safe str :
  unescapeICS (escapeICS str) = str ∧
  (∀ other, escapeICS other = escapeICS str → other = str) ∧
  (lineFeed ∉ characters (escapeICS str)) ∧
  guarded (characters (escapeICS str)).
Proof.
  split; [apply unescape_escape|]. split.
  { intros other Heq. rewrite <- (unescape_escape other), Heq.
    apply unescape_escape. }
  split.
  - induction str as [|x rest IH]; [by apply not_elem_of_nil|].
    rewrite escapeICS_cons. unfold escapeChar.
    destruct (Ascii.eqb_spec x backslash) as [->|Hb];
      [rewrite escaped_app; cbn [characters];
       rewrite !not_elem_of_cons; by repeat split|].
    destruct (Ascii.eqb_spec x semicolon) as [->|Hs];
      [rewrite escaped_app; cbn [characters];
       rewrite !not_elem_of_cons; by repeat split|].
    destruct (Ascii.eqb_spec x comma) as [->|Hc];
      [rewrite escaped_app; cbn [characters];
       rewrite !not_elem_of_cons; by repeat split|].
    destruct (Ascii.eqb_spec x lineFeed) as [->|Hl];
      [rewrite escaped_app; cbn [characters];
       rewrite !not_elem_of_cons; by repeat split|].
    rewrite append_cons. cbn [characters]. rewrite not_elem_of_cons.
    by split.
  - induction str as [|x rest IH]; [done|].
    rewrite escapeICS_cons. unfold escapeChar.
    destruct (Ascii.eqb_spec x backslash) as [->|Hb];
      [by rewrite escaped_app|].
    destruct (Ascii.eqb_spec x semicolon) as [->|Hs];
      [by rewrite escaped_app|].
    destruct (Ascii.eqb_spec x comma) as [->|Hc];
      [by rewrite escaped_app|].
    destruct (Ascii.eqb_spec x lineFeed) as [->|Hl];
      [by rewrite escaped_app|].
    rewrite append_cons. cbn [characters guarded].
    apply Ascii.eqb_neq in Hb. rewrite Hb. done.
Qed.

End CalendarText.

Section FormOfAnActivity.
Import JsDate Store.

(** ** The form of an activity *)

Lemma setHours0_shift tz t k :
  0 ≤ k < MS_PER_DAY → setHours0 tz (setHours0 tz t + k) = setHours0 tz t.
Proof.
  intros Hk. unfold setHours0. pose proof MS_PER_DAY_pos as HD.
  pose proof (Z.div_mod (t + tz) MS_PER_DAY ltac:(lia)) as Hdm.
  assert ((t - (t + tz) `mod` MS_PER_DAY + k + tz) `mod` MS_PER_DAY = k)
    as ->; [|lia].
  replace (t - (t + tz) `mod` MS_PER_DAY + k + tz)
    with (k + (t + tz) `div` MS_PER_DAY * MS_PER_DAY) by lia.
  rewrite Z_mod_plus_full. by apply Z.mod_small.
Qed.

Lemma setHours0_local tz t k :
  0 ≤ k < MS_PER_DAY → (setHours0 tz t + k + tz) `mod` MS_PER_DAY = k.
Proof.
  intros Hk. unfold setHours0. pose proof MS_PER_DAY_pos as HD.
  pose proof (Z.div_mod (t + tz) MS_PER_DAY ltac:(lia)) as Hdm.
  replace (t - (t + tz) `mod` MS_PER_DAY + k + tz)
    with (k + (t + tz) `div` MS_PER_DAY * MS_PER_DAY) by lia.
  rewrite Z_mod_plus_full. by apply Z.mod_small.
Qed.

Lemma timeValue_bound tzBrowser time date :
  timeOfDay time →
  0 ≤ timeValue tzBrowser time date < MS_PER_DAY.
Proof.
  unfold timeOfDay, timeValue. destruct time as [[hours minutes]|].
  - intros [Hh Hm].
    pose proof (Z.mod_pos_bound (date + tzBrowser)
                  TripPageActions.MS_PER_MINUTE) as Hs.
    unfold TripPageActions.MS_PER_HOUR, TripPageActions.MS_PER_MINUTE,
      MS_PER_DAY in *. lia.
  - intros _. unfold MS_PER_DAY. lia.
Qed.

Lemma startDateTime_shown tzBrowser trip form d day :
  TripPageActions.dayId form = Some d →
  showsDay trip d day →
  TripPageActions.startDateTime tzBrowser trip form
  = Some (setHours0 tzBrowser (day_date day)
          + timeValue tzBrowser (TripPageActions.time form) (day_date day)).
Proof.
  intros Hd (pday & Hfind & Hdate).
  unfold TripPageActions.startDateTime. rewrite Hd, Hfind, Hdate.
  unfold timeValue, TripPageActions.setHours.
  destruct (TripPageActions.time form) as [[hours minutes]|];
    f_equal; lia.
Qed.

(** X20.  Saving the form of an activity, with the browser in the zone of
    the server: the activity, created or changed, is on the day chosen in
    the form, its start time falls on the date of that day at the time
    of the form (midnight when the time is empty), and nothing else in
    the store changes. *)
Theorem form_saves_on_its_day tz JSON_stringify splitImages selected trip
    form db d day :
  TripPageActions.dayId form = Some d →
  days db !! d = Some day →
  showsDay trip d day →
  timeOfDay (TripPageActions.time form) →
  match TripPageActions.id form with
  | Some i => is_Some (activities db !! i)
  | None => True
  end →
  let db' :=
    TripPageActions.handleCreateActivity tz tz JSON_stringify splitImages
      (Some selected) trip form db in
  let i := default (next_id db) (TripPageActions.id form) in
  ∃ a st,
    activities db' = <[i := a]> (activities db) ∧
    days db' = days db ∧ trips db' = trips db ∧
    act_dayId a = d ∧
    act_title a = TripPageActions.title form ∧
    act_type a = Some (TripPageActions.finalType form) ∧
    act_startTime a = Some st ∧
    setHours0 tz st = setHours0 tz (day_date day) ∧
    (st + tz) `mod` MS_PER_DAY
    = timeValue tz (TripPageActions.time form) (day_date day).
Proof.
  intros Hd Hday Hshown Htime Hid db' i.
  pose proof (timeValue_bound tz _ (day_date day) Htime) as Hk.
  pose proof (startDateTime_shown tz trip form d day Hd Hshown) as Hst.
  set (st := setHours0 tz (day_date day)
             + timeValue tz (TripPageActions.time form) (day_date day))
    in Hst.
  assert (setHours0 tz st = setHours0 tz (day_date day)) as Hdate
    by (by apply setHours0_shift).
  assert ((st + tz) `mod` MS_PER_DAY
          = timeValue tz (TripPageActions.time form) (day_date day))
    as Hlocal by (by apply setHours0_local).
  subst db' i. unfold TripPageActions.handleCreateActivity.
  destruct (TripPageActions.id form) as [i|] eqn:Hform.
  - destruct Hid as [a Ha].
    unfold ActivitiesRoute.PATCH, TripPageActions.updateBody.
    cbn [ActivitiesRoute.p_id]. rewrite Hform.
    unfold activity_update. rewrite Ha.
    unfold ActivitiesRoute.updateData.
    cbn [ActivitiesRoute.p_dayId ActivitiesRoute.p_title
         ActivitiesRoute.p_images ActivitiesRoute.p_startTime
         ActivitiesRoute.p_type ActivitiesRoute.setRequired
         ActivitiesRoute.setImages ActivitiesRoute.setNullable].
    rewrite Hd, Hst.
    cbn [ActivitiesRoute.setRequired ActivitiesRoute.setImages
         ActivitiesRoute.setNullable mbind option_bind act_dayId].
    rewrite Hday.
    eexists _, st. cbn [fst activities days trips default].
    repeat (split; [reflexivity|]). by split.
  - unfold ActivitiesRoute.POST, TripPageActions.createBody.
    cbn [ActivitiesRoute.dayId ActivitiesRoute.title
         ActivitiesRoute.startTime]. rewrite Hd, Hst.
    unfold ActivitiesRoute.correctedDayId. rewrite Hday.
    rewrite bool_decide_eq_false_2 by (by intros Hne).
    unfold activity_create. cbn [act_dayId]. rewrite Hday.
    eexists _, st. cbn [fst activities days trips default].
    repeat (split; [reflexivity|]). by split.
Qed.

Lemma form_saves_on_its_day_witness :
  TripPageActions.dayId museumForm = Some 2%nat ∧
  days lisbon !! 2%nat = Some (mkDay 0 (march 6) 1) ∧
  showsDay lisbonPage 2%nat (mkDay 0 (march 6) 1) ∧
  timeOfDay (TripPageActions.time museumForm) ∧
  ∃ a st,
    activities
      (TripPageActions.handleCreateActivity 0 0 stringify noImages
         (Some 2%nat) lisbonPage museumForm lisbon)
    = <[4%nat := a]> (activities lisbon) ∧
    act_dayId a = 2%nat ∧ act_title a = "Museum" ∧
    act_startTime a = Some st ∧
    setHours0 0 st = march 6 ∧ (st + 0) `mod` MS_PER_DAY = 10 * hour.
Proof.
  assert (showsDay lisbonPage 2%nat (mkDay 0 (march 6) 1)) as Hshown
    by (eexists; split; reflexivity).
  assert (timeOfDay (TripPageActions.time museumForm)) as Htime
    by (simpl; lia).
  split; [reflexivity|]. split; [reflexivity|]. split; [exact Hshown|].
  split; [exact Htime|].
  destruct (form_saves_on_its_day 0 stringify noImages 2%nat lisbonPage
              museumForm lisbon 2%nat (mkDay 0 (march 6) 1)
              eq_refl eq_refl Hshown Htime I)
    as (a & st & Hacts & _ & _ & Hday & Htitle & _ & Hst & Hdate & Hlocal).
  exists a, st. split; [exact Hacts|]. split; [exact Hday|].
  split; [exact Htitle|]. split; [exact Hst|].
  split; [exact Hdate | exact Hlocal].
Defined.

(** X21.  Creating an activity from a browser whose zone is not that of
    the server, the server in UTC and the days at midnight UTC (as the
    form of a new trip makes them): when the time of the form is earlier
    than the offset of the browser (counted eastwards, inside a day), the
    start time falls on the eve of the day chosen, and the activity is
    attached to a day of the eve when the trip has one, not to the day
    chosen. *)
Theorem form_in_another_zone tzBrowser JSON_stringify splitImages selected
    trip form db d day p eve :
  TripPageActions.id form = None →
  TripPageActions.dayId form = Some d →
  days db !! d = Some day →
  showsDay trip d day →
  timeOfDay (TripPageActions.time form) →
  isCalendarDate (day_date day) →
  timeValue tzBrowser (TripPageActions.time form) (day_date day)
  < tzBrowser `mod` MS_PER_DAY →
  days db !! p = Some eve →
  day_tripId eve = day_tripId day →
  day_date eve = day_date day - MS_PER_DAY →
  let db' :=
    TripPageActions.handleCreateActivity tzBrowser 0 JSON_stringify
      splitImages (Some selected) trip form db in
  ∃ a st q day',
    activities db' = <[next_id db := a]> (activities db) ∧
    act_startTime a = Some st ∧
    isoDate st = isoDate (day_date day) - 1 ∧
    act_dayId a = q ∧ q ≠ d ∧
    days db !! q = Some day' ∧
    day_tripId day' = day_tripId day ∧
    isoDate (day_date day') = isoDate (day_date day) - 1.
Proof.
  intros Hform Hd Hday Hshown Htime Hcal Hearly Heve Htrip Hprev db'.
  pose proof MS_PER_DAY_pos as HD.
  pose proof (timeValue_bound tzBrowser _ (day_date day) Htime) as Hk.
  pose proof (startDateTime_shown tzBrowser trip form d day Hd Hshown)
    as Hst.
  set (k := timeValue tzBrowser (TripPageActions.time form) (day_date day))
    in *.
  set (st := setHours0 tzBrowser (day_date day) + k) in Hst.
  assert (∀ t, setHours0 0 t = isoDate t * MS_PER_DAY) as Hzero.
  { intros t. unfold setHours0, isoDate. rewrite Z.add_0_r.
    pose proof (Z.div_mod t MS_PER_DAY ltac:(lia)). lia. }
  unfold isCalendarDate in Hcal.
  assert (day_date day = isoDate (day_date day) * MS_PER_DAY) as Hmid.
  { unfold isoDate. pose proof (Z.div_mod (day_date day) MS_PER_DAY
                                  ltac:(lia)). lia. }
  assert (isoDate st = isoDate (day_date day) - 1) as Hdate.
  { pose proof (Z.mod_pos_bound tzBrowser MS_PER_DAY HD) as Hb.
    assert ((day_date day + tzBrowser) `mod` MS_PER_DAY
            = tzBrowser `mod` MS_PER_DAY) as Hoff.
    { rewrite Hmid, Z.add_comm. apply Z_mod_plus_full. }
    unfold isoDate at 1. subst st. unfold setHours0. rewrite Hoff.
    symmetry.
    apply (Z.div_unique_pos _ _ _
             (MS_PER_DAY - tzBrowser `mod` MS_PER_DAY + k)); [lia|].
    rewrite Hmid at 1. lia. }
  subst db'. unfold TripPageActions.handleCreateActivity. rewrite Hform.
  unfold ActivitiesRoute.POST, TripPageActions.createBody.
  cbn [ActivitiesRoute.dayId ActivitiesRoute.title
       ActivitiesRoute.startTime]. rewrite Hd, Hst.
  unfold ActivitiesRoute.correctedDayId. rewrite Hday.
  rewrite !Hzero, Hdate.
  rewrite bool_decide_eq_true_2 by lia.
  destruct (List.find _ _) as [[q day']|] eqn:Hfind.
  - apply find_some in Hfind as [Hin Hq].
    apply list_elem_of_In, elem_of_days_of_trip in Hin as [Hq' Hid].
    apply bool_decide_eq_true in Hq. simpl in Hq, Hq', Hid.
    rewrite Hzero in Hq.
    unfold activity_create. cbn [act_dayId fst]. rewrite Hq'.
    eexists _, st, q, day'. cbn [fst activities act_startTime act_dayId].
    split; [reflexivity|]. split; [reflexivity|]. split; [done|].
    split; [reflexivity|].
    assert (isoDate (day_date day') = isoDate (day_date day) - 1) as Hq2
      by (apply (Z.mul_reg_r _ _ MS_PER_DAY); lia).
    split; [|done].
    intros ->. rewrite Hday in Hq'. injection Hq' as <-. lia.
  - exfalso. pose proof (find_none _ _ Hfind (p, eve)) as Hn. simpl in Hn.
    rewrite bool_decide_eq_true_2 in Hn.
    + assert (true = false); [|done]. apply Hn.
      apply list_elem_of_In. by apply elem_of_days_of_trip.
    + rewrite Hzero, Hprev. unfold isoDate.
      replace (day_date day - MS_PER_DAY)
        with (day_date day + (-1) * MS_PER_DAY) by lia.
      rewrite Z.div_add by lia. unfold isoDate in Hmid. lia.
Qed.

Lemma form_in_another_zone_witness :
  TripPageActions.id museumForm = None ∧
  TripPageActions.dayId museumForm = Some 2%nat ∧
  days lisbon !! 2%nat = Some (mkDay 0 (march 6) 1) ∧
  showsDay lisbonPage 2%nat (mkDay 0 (march 6) 1) ∧
  timeOfDay (TripPageActions.time museumForm) ∧
  isCalendarDate (march 6) ∧
  timeValue (-5 * hour) (TripPageActions.time museumForm) (march 6)
  < (-5 * hour) `mod` MS_PER_DAY ∧
  days lisbon !! 1%nat = Some (mkDay 0 (march 5) 0) ∧
  march 5 = march 6 - MS_PER_DAY ∧
  ∃ a,
    activities
      (TripPageActions.handleCreateActivity (-5 * hour) 0 stringify noImages
         (Some 2%nat) lisbonPage museumForm lisbon)
    = <[4%nat := a]> (activities lisbon) ∧
    act_startTime a = Some (march 5 + 15 * hour) ∧
    act_dayId a = 1%nat.
Proof.
  assert (showsDay lisbonPage 2%nat (mkDay 0 (march 6) 1)) as Hshown
    by (eexists; split; reflexivity).
  assert (timeOfDay (TripPageActions.time museumForm)) as Htime
    by (simpl; lia).
  split; [reflexivity|]. split; [reflexivity|]. split; [reflexivity|].
  split; [exact Hshown|]. split; [exact Htime|]. split; [reflexivity|].
  split; [reflexivity|]. split; [reflexivity|]. split; [reflexivity|].
  destruct (form_in_another_zone (-5 * hour) stringify noImages 2%nat
              lisbonPage museumForm lisbon 2%nat (mkDay 0 (march 6) 1)
              1%nat (mkDay 0 (march 5) 0)
              eq_refl eq_refl eq_refl Hshown Htime eq_refl eq_refl eq_refl
              eq_refl eq_refl)
    as (a & st & q & day' & Hacts & _).
  exists a. split; [exact Hacts|].
  pose proof (lookup_insert_eq (activities lisbon) (next_id lisbon) a) as Ha.
  rewrite <- Hacts in Ha. vm_compute in Ha. injection Ha as <-.
  split; reflexivity.
Defined.

End FormOfAnActivity.

Section EditDialog.
Import JsDate Store.

(** ** The form of the trip *)

(** X22.  Saving the form of the trip as it was opened: the row keeps its
    title, destination, budget and currency, the cover image of a trip
    without one becomes the empty text, and both dates are moved to
    midnight UTC of their calendar dates.  When both already are at
    midnight UTC, the days and the activities are not touched; when one
    is not, the request counts as a change of dates and the days are
    reconciled. *)
Theorem edit_dialog_saved_unchanged id trip t db :
  wf db →
  trips db !! id = Some t →
  showsTrip trip t →
  let t' :=
    {| trip_title := trip_title t;
       trip_destination := trip_destination t;
       trip_startDate := isoDate (trip_startDate t) * MS_PER_DAY;
       trip_endDate := isoDate (trip_endDate t) * MS_PER_DAY;
       trip_budget := trip_budget t;
       trip_currency := trip_currency t;
       trip_coverImage := Some (or_string (trip_coverImage t) "") |} in
  let tripForm := TripPageActions.openEditTrip trip in
  trips (TripPageActions.handleEditTrip id tripForm db) !! id = Some t' ∧
  (isCalendarDate (trip_startDate t) → isCalendarDate (trip_endDate t) →
   TripRoute.PATCH id tripForm db
   = ({| trips := <[id := t']> (trips db); days := days db;
         activities := activities db; next_id := next_id db |}, Ok t')) ∧
  (¬ isCalendarDate (trip_startDate t) ∨ ¬ isCalendarDate (trip_endDate t) →
   TripRoute.datesChanged tripForm t = true).
Proof.
  intros Hwf Htrip (Htitle & Hdest & Hs & He & Hbudget & Hcover) t' tripForm.
  assert (TripRoute.updateData tripForm
            (default (trip_startDate t) (TripRoute.startDate tripForm))
            (default (trip_endDate t) (TripRoute.endDate tripForm)) t = t')
    as Hrow.
  { subst t' tripForm. unfold TripRoute.updateData, TripPageActions.openEditTrip.
    cbn [TripRoute.title TripRoute.destination TripRoute.startDate
         TripRoute.endDate TripRoute.budget TripRoute.coverImage default].
    rewrite Htitle, Hdest, Hs, He, Hbudget, Hcover. f_equal.
    - unfold or_string. by destruct (truthy_string (trip_title t)).
    - unfold truthy_opt_string, or_string.
      destruct (trip_destination t) as [s|]; [|done].
      by destruct (truthy_string s) eqn:Hd; [rewrite Hd|].
    - unfold truthy_number. destruct (trip_budget t) as [b|]; [|done].
      by destruct (Qnonzero b) eqn:Hb; [rewrite Hb|]. }
  split; [|split].
  - unfold TripPageActions.handleEditTrip.
    by rewrite (PATCH_trip_row id tripForm db t Hwf Htrip), Hrow.
  - intros Hcs Hce. apply calendarDate_eq in Hcs, Hce.
    assert (TripRoute.datesChanged tripForm t = false) as Hsame.
    { subst tripForm. unfold TripRoute.datesChanged,
        TripPageActions.openEditTrip.
      cbn [TripRoute.startDate TripRoute.endDate default].
      rewrite Hs, He, Hcs, Hce.
      by rewrite !bool_decide_eq_true_2, !andb_false_r by done. }
    unfold TripRoute.PATCH. rewrite Htrip. cbv zeta.
    unfold bind. rewrite (trip_update_run _ _ _ _ Htrip), Hsame.
    unfold ret. by rewrite Hrow.
  - intros Hnot. subst tripForm.
    unfold TripRoute.datesChanged, TripPageActions.openEditTrip.
    cbn [TripRoute.startDate TripRoute.endDate default].
    rewrite Hs, He.
    rewrite !(bool_decide_eq_true_2 (is_Some _)) by (by eexists).
    cbn [andb]. apply orb_true_iff.
    destruct Hnot as [Hn|Hn]; [left|right]; apply negb_true_iff,
      bool_decide_eq_false; intros Heq; apply Hn; unfold isCalendarDate;
      rewrite <- Heq; apply Z_mod_mult.
Qed.

Lemma edit_dialog_saved_unchanged_witness :
  wf lisbonWithMuseum ∧
  trips lisbonWithMuseum !! 0%nat = Some lisbonTrip ∧
  showsTrip lisbonPage lisbonTrip ∧
  isCalendarDate (trip_startDate lisbonTrip) ∧
  isCalendarDate (trip_endDate lisbonTrip) ∧
  ∃ t',
    TripRoute.PATCH 0%nat (TripPageActions.openEditTrip lisbonPage)
      lisbonWithMuseum
    = ({| trips := <[0%nat := t']> (trips lisbonWithMuseum);
          days := days lisbonWithMuseum;
          activities := activities lisbonWithMuseum;
          next_id := next_id lisbonWithMuseum |}, Ok t') ∧
    trip_title t' = "Lisbon" ∧ trip_startDate t' = march 5 ∧
    trip_endDate t' = march 7 ∧ trip_coverImage t' = Some "".
Proof.
  assert (wf lisbonWithMuseum) as Hwf by (apply wfb_wf; reflexivity).
  assert (showsTrip lisbonPage lisbonTrip) as Hshown
    by (repeat split; reflexivity).
  split; [exact Hwf|]. split; [reflexivity|]. split; [exact Hshown|].
  split; [reflexivity|]. split; [reflexivity|].
  destruct (edit_dialog_saved_unchanged 0%nat lisbonPage lisbonTrip
              lisbonWithMuseum Hwf eq_refl Hshown) as (_ & Hrun & _).
  eexists. split; [apply Hrun; reflexivity|].
  split; [reflexivity|]. split; [reflexivity|]. split; reflexivity.
Defined.

End EditDialog.

Section DragAndDrop.
Import JsDate Store.

(** ** Moving an activity to another day *)

(** X23.  Dropping an activity changes at most the row of that activity,
    and of it only the day: dropped on another day that exists, the
    activity is attached to it and keeps every other property, its start
    time too, whatever the date of the new day; dropped outside the days,
    on its own day, or when the page does not show it, or when the
    activity or the new day are no longer in the store, nothing
    changes. *)
Theorem drag_moves_only_the_day JSON_stringify activityId over trip db :
  let db' :=
    TripPageActions.handleDragEnd JSON_stringify activityId over trip db in
  trips db' = trips db ∧ days db' = days db ∧ next_id db' = next_id db ∧
  (∀ j, j ≠ activityId → activities db' !! j = activities db !! j) ∧
  (∀ newDayId current a,
     over = Some newDayId →
     TripPageActions.currentDayId activityId trip = Some current →
     newDayId ≠ current →
     activities db !! activityId = Some a →
     is_Some (days db !! newDayId) →
     activities db' !! activityId
     = Some {| act_dayId := newDayId;
               act_type := act_type a;
               act_title := act_title a;
               act_description := act_description a;
               act_location := act_location a;
               act_startTime := act_startTime a;
               act_endTime := act_endTime a;
               act_cost := act_cost a;
               act_currency := act_currency a;
               act_images := act_images a;
               act_details := act_details a |}) ∧
  (over = None ∨ TripPageActions.currentDayId activityId trip = None ∨
   over = TripPageActions.currentDayId activityId trip ∨
   activities db !! activityId = None ∨
   (∃ newDayId, over = Some newDayId ∧ days db !! newDayId = None) →
   db' = db).
Proof.
  intros db'. subst db'. unfold TripPageActions.handleDragEnd.
  destruct over as [newDayId|];
    [|repeat split; try done; intros; by simplify_eq].
  destruct (TripPageActions.currentDayId activityId trip) as [current|];
    [|repeat split; try done; intros; by simplify_eq].
  case_bool_decide as Hne;
    [|repeat split; try done; intros; by simplify_eq].
  unfold ActivitiesRoute.PATCH, TripPageActions.moveBody.
  cbn [ActivitiesRoute.p_id]. unfold activity_update.
  destruct (activities db !! activityId) as [a|] eqn:Ha;
    [|repeat split; try done; intros; by simplify_eq].
  unfold ActivitiesRoute.updateData.
  cbn [ActivitiesRoute.p_dayId ActivitiesRoute.p_title
       ActivitiesRoute.p_images ActivitiesRoute.p_startTime
       ActivitiesRoute.p_type ActivitiesRoute.p_description
       ActivitiesRoute.p_location ActivitiesRoute.p_cost
       ActivitiesRoute.p_currency ActivitiesRoute.setRequired
       ActivitiesRoute.setImages ActivitiesRoute.setNullable
       mbind option_bind act_dayId].
  destruct (days db !! newDayId) as [day|] eqn:Hday.
  - cbn [fst trips days activities next_id].
    split; [done|]. split; [done|]. split; [done|].
    split; [intros j Hj; by rewrite lookup_insert_ne|].
    split.
    + intros n c a0 [= <-] [= <-] _ [= <-] _. apply lookup_insert_eq.
    + intros [H|[H|[H|[H|(n & [= <-] & H)]]]]; try done.
      * by injection H as ->.
      * by rewrite Hday in H.
  - cbn [fst]. split; [done|]. split; [done|]. split; [done|].
    split; [done|]. split; [|done].
    intros n c a0 [= <-] _ _ _ [? H]. by rewrite Hday in H.
Qed.

End DragAndDrop.

Section ImportsMore.
Import JsDate Store.

(** ** Imports of other documents *)









End ImportsMore.
